(** * Verification of best_pdf_converter.py (BestPDFConverter)

    A shallow embedding of the heading detectors, the deduplication pass, the
    hierarchy builder and the command surface of [src/best_pdf_converter.py],
    followed by the properties stated about them.

    Conventions of the embedding.
    - A Python [str] is a Rocq [string]; every [ascii] stands for the Unicode
      code point of the same number, so the texts covered are those over
      code points 0..255.  Character classes ([str.isspace], [str.isupper],
      the regular expression classes [\s], [\d], [\w]) are CPython's, cut
      down to that range.
    - Python integers are [Z]; positions in lists and lengths of lists are
      [nat].  The conversions between integers and decimal strings obey the
      interpreter's limit of 4300 digits ([int_max_str_digits]): [int(s)]
      and the printing of an integer raise [ValueError] beyond it.
    - Confidence scores and the similarity ratio are Python floats.  They are
      embedded as the rationals [Q] their literals denote.  The only float
      operations of the program are comparisons between such values, one
      division of two small integers compared with [0.8], and one product
      [len(words) * 0.6] compared with an integer; on all of these the
      rounded and the exact results order the same way (see the notes at
      [_calculate_similarity] and [_is_title_case]).
    - An exception is a value [Raise e] of the type [result]; [try/except]
      blocks are pattern matches on it. *)

From Stdlib Require Import ZArith QArith Ascii String List Bool Lia.
From stdpp Require Import base option list strings gmap.

Set Warnings "-register-all".

Local Open Scope string_scope.
Local Open Scope list_scope.
Local Open Scope Z_scope.

(** ** Exceptions *)

Inductive exn : Type :=
| IndexError | TypeError | ValueError | OverflowError | OSError.

Inductive result (A : Type) : Type :=
| Ok (a : A)
| Raise (e : exn).
Arguments Ok {A} a.
Arguments Raise {A} e.

Definition bind {A B : Type} (m : result A) (k : A -> result B) : result B :=
  match m with
  | Ok a => k a
  | Raise e => Raise e
  end.

Notation "'let!' x ':=' m 'in' k" := (bind m (fun x => k))
  (at level 10, x name, m at level 100, k at level 200).

(** ** Characters *)

Module PyChar.

Definition ord (c : ascii) : N := N_of_ascii c.

Definition between (lo hi : N) (c : ascii) : bool :=
  ((lo <=? ord c) && (ord c <=? hi))%N.

(** [str.isspace] on one character, which is also the class [\s] of a
    [str] pattern: TAB..CR, FS..US, space, NEL, NBSP. *)
Definition isspace (c : ascii) : bool :=
  between 9 13 c || between 28 32 c || (ord c =? 133)%N || (ord c =? 160)%N.

(** The class [[A-Z]]. *)
Definition is_AZ (c : ascii) : bool := between 65 90 c.

(** The class [[a-z]]. *)
Definition is_az (c : ascii) : bool := between 97 122 c.

(** The class [\d] of a [str] pattern (decimal digits). *)
Definition isdecimal (c : ascii) : bool := between 48 57 c.

(** [c.isupper()] for a one-character string: the Uppercase property. *)
Definition isupper (c : ascii) : bool :=
  is_AZ c || between 192 214 c || between 216 222 c.

(** [c.islower()] for a one-character string: the Lowercase property
    (the ordinal indicators 170 and 186 and the micro sign 181 have it). *)
Definition islower (c : ascii) : bool :=
  is_az c || (ord c =? 170)%N || (ord c =? 181)%N || (ord c =? 186)%N
  || between 223 246 c || between 248 255 c.

(** [c.isalnum()]: letters, decimal digits, superscript digits and the
    vulgar fractions. *)
Definition isalnum (c : ascii) : bool :=
  isupper c || islower c || isdecimal c
  || (ord c =? 178)%N || (ord c =? 179)%N || (ord c =? 185)%N
  || between 188 190 c.

(** The class [\w] of a [str] pattern. *)
Definition isword (c : ascii) : bool := isalnum c || (ord c =? 95)%N.

(** [c.lower()]: every uppercase letter of the range has its lowercase
    form 32 code points above it.  This holds of the code points 0..255
    only: beyond them some uppercase letters have no lowercase form and are
    left as they are by [str.lower] (U+2102, U+03D2), so nothing is stated
    here about the case of characters outside the range. *)
Definition lower (c : ascii) : ascii :=
  if isupper c then ascii_of_N (ord c + 32) else c.

(** Case-insensitive comparison of a pattern letter with a character
    (flag [re.IGNORECASE]). *)
Definition eqb_nocase (a b : ascii) : bool := Ascii.eqb (lower a) (lower b).

End PyChar.

(** ** Strings *)

Module PyStr.

Definition LF : ascii := "010"%char.
Definition FF : ascii := "012"%char.
Definition SP : ascii := " "%char.
Definition DOT : ascii := "."%char.

Definition len (s : string) : Z := Z.of_nat (String.length s).

(** Truth value of a string: non-empty. *)
Definition truthy (s : string) : bool :=
  match s with EmptyString => false | String _ _ => true end.

Fixpoint lstrip (s : string) : string :=
  match s with
  | EmptyString => EmptyString
  | String c s' => if PyChar.isspace c then lstrip s' else s
  end.

Fixpoint rstrip (s : string) : string :=
  match s with
  | EmptyString => EmptyString
  | String c s' =>
      match rstrip s' with
      | EmptyString => if PyChar.isspace c then EmptyString else String c EmptyString
      | t => String c t
      end
  end.

(** [s.strip()] *)
Definition strip (s : string) : string := rstrip (lstrip s).

(** [s.split(sep)] for a one-character separator. *)
Fixpoint split_on (sep : ascii) (s : string) : list string :=
  match s with
  | EmptyString => [EmptyString]
  | String c s' =>
      if Ascii.eqb c sep then EmptyString :: split_on sep s'
      else match split_on sep s' with
           | w :: ws => String c w :: ws
           | [] => [String c EmptyString]
           end
  end.

(** [s.split()]: the maximal runs of non-whitespace characters. *)
Fixpoint split (s : string) : list string :=
  match s with
  | EmptyString => []
  | String c s' =>
      if PyChar.isspace c then split s'
      else match s' with
           | EmptyString => [String c EmptyString]
           | String c' _ =>
               if PyChar.isspace c' then String c EmptyString :: split s'
               else match split s' with
                    | w :: ws => String c w :: ws
                    | [] => [String c EmptyString]
                    end
           end
  end.

Fixpoint existsb (p : ascii -> bool) (s : string) : bool :=
  match s with
  | EmptyString => false
  | String c s' => p c || existsb p s'
  end.

(** [s.isupper()]: no lowercase character and at least one uppercase
    one (the range has no titlecase character). *)
Definition isupper (s : string) : bool :=
  negb (existsb PyChar.islower s) && existsb PyChar.isupper s.

Fixpoint lower (s : string) : string :=
  match s with
  | EmptyString => EmptyString
  | String c s' => String (PyChar.lower c) (lower s')
  end.

Fixpoint last (s : string) : option ascii :=
  match s with
  | EmptyString => None
  | String c EmptyString => Some c
  | String _ s' => last s'
  end.

(** [s.endswith(c)] for a one-character suffix. *)
Definition endswith (c : ascii) (s : string) : bool :=
  match last s with
  | Some d => Ascii.eqb c d
  | None => false
  end.

(** [s.count(c)] for a one-character argument. *)
Fixpoint count (c : ascii) (s : string) : Z :=
  match s with
  | EmptyString => 0
  | String d s' => (if Ascii.eqb c d then 1 else 0) + count c s'
  end.

Fixpoint startswith (p s : string) : bool :=
  match p, s with
  | EmptyString, _ => true
  | String a p', String b s' => Ascii.eqb a b && startswith p' s'
  | String _ _, EmptyString => false
  end.

(** [p in s] *)
Fixpoint contains (p s : string) : bool :=
  startswith p s ||
  match s with
  | EmptyString => false
  | String _ s' => contains p s'
  end.

(** [s[0]], which raises [IndexError] on the empty string. *)
Definition first (s : string) : result ascii :=
  match s with
  | EmptyString => Raise IndexError
  | String c _ => Ok c
  end.

(** The number a string of decimal digits denotes. *)
Fixpoint int_digits (acc : Z) (s : string) : Z :=
  match s with
  | EmptyString => acc
  | String c s' => int_digits (10 * acc + (Z.of_N (PyChar.ord c) - 48)) s'
  end.

Fixpoint take (n : nat) (s : string) : string :=
  match n, s with
  | S n', String c s' => String c (take n' s')
  | _, _ => EmptyString
  end.

End PyStr.

(** ** Regular expressions

    The patterns of the program use character classes, concatenation,
    alternation, the repetitions [*], [+], [?] and [{2,}], a leading [^]
    (redundant under [re.match]) and a trailing [$].  The program looks at
    a match only to see whether there is one ([re.match], [re.search]) or,
    for [re.sub] and [re.findall], where the leftmost match ends; on the
    patterns given to [re.sub] and [re.findall] here ([\s+], [\f],
    [\n\s*\n], [[^\w\s]], [\d+]) the greedy match is the longest one.  So the
    matcher below computes with Brzozowski derivatives. *)

Module Re.

Inductive regex : Type :=
| Never                              (* matches nothing *)
| Eps                                (* the empty string *)
| Class (p : ascii -> bool)          (* one character of a class *)
| Cat (r s : regex)
| Or (r s : regex)
| Star (r : regex).

Definition chr (c : ascii) : regex := Class (Ascii.eqb c).
Definition chr_nocase (c : ascii) : regex := Class (PyChar.eqb_nocase c).
Definition plus (r : regex) : regex := Cat r (Star r).
Definition opt (r : regex) : regex := Or r Eps.
(** [r{2,}] *)
Definition two_or_more (r : regex) : regex := Cat r (Cat r (Star r)).

(** A literal word under [re.IGNORECASE]. *)
Fixpoint lit_nocase (s : string) : regex :=
  match s with
  | EmptyString => Eps
  | String c s' => Cat (chr_nocase c) (lit_nocase s')
  end.

Fixpoint alt (rs : list regex) : regex :=
  match rs with
  | [] => Never
  | [r] => r
  | r :: rs' => Or r (alt rs')
  end.

Fixpoint nullable (r : regex) : bool :=
  match r with
  | Never => false
  | Eps => true
  | Class _ => false
  | Cat r s => nullable r && nullable s
  | Or r s => nullable r || nullable s
  | Star _ => true
  end.

(** Constructors that drop the dead branches of a derivative. *)
Definition cat (r s : regex) : regex :=
  match r, s with
  | Never, _ => Never
  | _, Never => Never
  | Eps, _ => s
  | _, _ => Cat r s
  end.

Definition or (r s : regex) : regex :=
  match r, s with
  | Never, _ => s
  | _, Never => r
  | _, _ => Or r s
  end.

Fixpoint deriv (c : ascii) (r : regex) : regex :=
  match r with
  | Never => Never
  | Eps => Never
  | Class p => if p c then Eps else Never
  | Cat r s =>
      or (cat (deriv c r) s) (if nullable r then deriv c s else Never)
  | Or r s => or (deriv c r) (deriv c s)
  | Star r => cat (deriv c r) (Star r)
  end.

(** The whole of [s] matches [r]. *)
Fixpoint fullmatch (r : regex) (s : string) : bool :=
  match s with
  | EmptyString => nullable r
  | String c s' => fullmatch (deriv c r) s'
  end.

(** Length of the longest prefix of [s] that matches [r], if any. *)
Fixpoint longest (r : regex) (s : string) : option nat :=
  match s with
  | EmptyString => if nullable r then Some O else None
  | String c s' =>
      match longest (deriv c r) s' with
      | Some n => Some (S n)
      | None => if nullable r then Some O else None
      end
  end.

(** A compiled pattern: its body and whether it ends in [$]. *)
Record pattern : Type := Pattern { body : regex; dollar : bool }.

Definition open (r : regex) : pattern := Pattern r false.
Definition closed (r : regex) : pattern := Pattern r true.

(** [$] holds at the end of the string and just before a newline that
    ends the string: a match of [r$] from the start of [s] is a match of
    [r] on the whole of [s], or on [s] less its final newline. *)
Fixpoint chop_newline (s : string) : option string :=
  match s with
  | EmptyString => None
  | String c EmptyString =>
      if Ascii.eqb c PyStr.LF then Some EmptyString else None
  | String c s' => option_map (String c) (chop_newline s')
  end.

(** Truth value of [re.match(p, s)]. *)
Definition matches (p : pattern) (s : string) : bool :=
  if dollar p then
    fullmatch (body p) s ||
    match chop_newline s with
    | Some s' => fullmatch (body p) s'
    | None => false
    end
  else
    match longest (body p) s with Some _ => true | None => false end.

(** Truth value of [re.search(p, s)]: a match starting at some
    position of [s], the end included. *)
Fixpoint search (p : pattern) (s : string) : bool :=
  matches p s ||
  match s with
  | EmptyString => false
  | String _ s' => search p s'
  end.

(** [re.sub(r, repl, s)] for a pattern [r] without empty matches:
    [skip] counts the characters of [s] still inside the match being
    replaced. *)
Fixpoint sub_from (r : regex) (repl : string) (skip : nat) (s : string)
  : string :=
  match s with
  | EmptyString => EmptyString
  | String c s' =>
      match skip with
      | S k => sub_from r repl k s'
      | O =>
          match longest r s with
          | Some (S k) => (repl ++ sub_from r repl k s')%string
          | _ => String c (sub_from r repl O s')
          end
      end
  end.

Definition sub (r : regex) (repl : string) (s : string) : string :=
  sub_from r repl O s.

(** [re.findall(r, s)] for a pattern [r] without groups and without
    empty matches. *)
Fixpoint findall_from (r : regex) (skip : nat) (s : string) : list string :=
  match s with
  | EmptyString => []
  | String c s' =>
      match skip with
      | S k => findall_from r k s'
      | O =>
          match longest r s with
          | Some (S k) => PyStr.take (S k) s :: findall_from r k s'
          | _ => findall_from r O s'
          end
      end
  end.

Definition findall (r : regex) (s : string) : list string :=
  findall_from r O s.

(** The classes of the program's patterns. *)
Definition ws : regex := Class PyChar.isspace.                 (* \s *)
Definition digit : regex := Class PyChar.isdecimal.            (* \d *)
Definition upper_AZ : regex := Class PyChar.is_AZ.             (* [A-Z] *)
Definition lower_az : regex := Class PyChar.is_az.             (* [a-z] *)

End Re.

(** ** Data model *)

(** The four values of the key ['source']. *)
Inductive source_tag : Type :=
| builtin_outline | text_analysis | font_analysis | position_analysis.

(** A heading candidate: the dict the detectors build.  The key
    ['line_number'] is absent from the dicts of the builtin outline, and
    their ['page_number'] may be [None]; the keys ['color'], ['italic'] and
    ['bold'] exist on builtin entries only.  Every dict is created with
    ['children': []]; that list is written by [_build_hierarchy] alone and
    is modelled there. *)
Record heading : Type := Heading {
  title : string;
  level : Z;
  page_number : option Z;
  line_number : option Z;
  source : source_tag;
  confidence : Q;
  color : option string;
  italic : option string;
  bold : option string
}.

(** A candidate of one of the three text detectors. *)
Definition candidate (t : string) (lvl page line : Z) (src : source_tag)
    (conf : Q) : heading :=
  {| title := t; level := lvl; page_number := Some page;
     line_number := Some line; source := src; confidence := conf;
     color := None; italic := None; bold := None |}.

(** Python floats: the finite ones by their exact value. *)
Inductive py_float : Type :=
| Finite (q : Q)
| NaN
| Inf (negative : bool).

(** [int(x)] for a float [x]: truncation toward zero; [ValueError] on a
    NaN and [OverflowError] on an infinity. *)
Definition int_of_float (x : py_float) : result Z :=
  match x with
  | Finite q => Ok (Z.quot (Qnum q) (Zpos (Qden q)))
  | NaN => Raise ValueError
  | Inf _ => Raise OverflowError
  end.

(** [sys.get_int_max_str_digits()], at its default: the most digits a
    string may have for [int] to convert it, and an integer for [str],
    [repr] or [json.dump] to print it. *)
Definition int_max_str_digits : Z := 4300.

(** [int(s)] for a string [s] of decimal digits: [ValueError] when [s] has
    more than 4300 digits (leading zeros count). *)
Definition int_of_digits (s : string) : result Z :=
  if int_max_str_digits <? PyStr.len s then Raise ValueError
  else Ok (PyStr.int_digits 0 s).

(** What [item.page] can be, by the tests [_get_page_number] makes. *)
Inductive page_ref : Type :=
| NoPage                          (* no attribute [page], or [None] *)
| IntPage (n : Z)                 (* an integer: has [__int__] *)
| FloatPage (x : py_float)        (* a float: it has [__int__] too *)
| FloatLikePage (x : py_float)    (* [__float__] without [__int__] *)
| OtherPage (s : string).         (* neither; [s] is [str(item.page)] *)

(** One entry of the document outline. [entry_title] is [None] when the
    entry has no attribute [title], [Some None] when the attribute is
    [None], and [Some (Some s)] when [str(item.title)] is [s]. *)
Record outline_entry : Type := OutlineEntry {
  entry_title : option (option string);
  entry_str : string;                       (* [str(item)] *)
  entry_page : page_ref;
  entry_color : option string;              (* [str(item.color)] if present *)
  entry_italic : option string;
  entry_bold : option string
}.

(** The outline is a list whose elements are entries or nested lists. *)
Inductive outline_item : Type :=
| Entry (e : outline_entry)
| Nested (items : list outline_item).

(** A page: what [page.extract_text()] returns or raises. *)
Record page : Type := Page { extract_text : result string }.

(** A loaded document: [reader.pages] and [reader.outline] (reading the
    outline may raise). *)
Record pdf_reader : Type := PdfReader {
  pages : list page;
  outline : result (list outline_item)
}.

(** What is found at [pdf_path]. *)
Inductive pdf_file : Type :=
| Missing                         (* [os.path.exists] is false *)
| Unreadable (e : exn)            (* [PdfReader(path)] raises *)
| Parsed (r : pdf_reader).

(** ** Loading *)

(** [load_pdf]: [Some r] stands for the result [True] with
    [self.pdf_reader = r], [None] for the result [False]. *)
Definition load_pdf (f : pdf_file) : option pdf_reader :=
  match f with
  | Missing => None
  | Unreadable _ => None
  | Parsed r => if Nat.eqb (length (pages r)) 0 then None else Some r
  end.

(** ** Builtin outline reader *)

Definition _safe_str (obj : option string) : string :=
  match obj with
  | Some s => s
  | None => ""
  end.

Definition _get_page_number (p : page_ref) : result (option Z) :=
  let attempt : result (option Z) :=
    match p with
    | NoPage => Ok None
    | IntPage n => Ok (Some (n + 1))
    | FloatPage x => let! n := int_of_float x in Ok (Some (n + 1))
    | FloatLikePage x => let! n := int_of_float x in Ok (Some (n + 1))
    | OtherPage page_str =>
        let numbers := Re.findall (Re.plus Re.digit) page_str in
        match numbers with
        | n0 :: _ => let! n := int_of_digits n0 in Ok (Some (n + 1))
        | [] => Ok None
        end
    end in
  match attempt with
  | Raise ValueError | Raise TypeError => Ok None
  | r => r
  end.

(** The dict built for one entry.  It has no key ['confidence'] until
    [_extract_builtin_outline] sets it; the field holds 0 meanwhile, the
    value [heading.get('confidence', 0)] reads from a dict without the
    key. *)
Definition outline_dict (e : outline_entry) (lvl : Z) (page : option Z)
    : heading :=
  {| title := match entry_title e with
              | Some t => _safe_str t
              | None => entry_str e
              end;
     level := lvl;
     page_number := page;
     line_number := None;
     source := builtin_outline;
     confidence := 0;
     color := entry_color e;
     italic := entry_italic e;
     bold := entry_bold e |}.

(** One element of the list walked by [_process_outline_items]: a nested
    list is processed one level deeper, an entry whose processing raises
    is skipped. *)
Fixpoint _process_outline_item (item : outline_item) (lvl : Z) : list heading :=
  match item with
  | Nested items =>
      (fix each (l : list outline_item) : list heading :=
         match l with
         | [] => []
         | i :: l' => _process_outline_item i (lvl + 1) ++ each l'
         end) items
  | Entry e =>
      match _get_page_number (entry_page e) with
      | Ok p => [outline_dict e lvl p]
      | Raise _ => []
      end
  end.

Definition _process_outline_items (items : list outline_item) (lvl : Z)
    : list heading :=
  concat (map (fun i => _process_outline_item i lvl) items).

Definition set_confidence (c : Q) (h : heading) : heading :=
  {| title := title h; level := level h; page_number := page_number h;
     line_number := line_number h; source := source h; confidence := c;
     color := color h; italic := italic h; bold := bold h |}.

Definition set_source (s : source_tag) (h : heading) : heading :=
  {| title := title h; level := level h; page_number := page_number h;
     line_number := line_number h; source := s; confidence := confidence h;
     color := color h; italic := italic h; bold := bold h |}.

Definition _extract_builtin_outline (r : pdf_reader) : list heading :=
  match outline r with
  | Ok ((_ :: _) as items) =>
      map (fun item => set_confidence 0.95 (set_source builtin_outline item))
          (_process_outline_items items 0)
  | Ok [] => []
  | Raise _ => []
  end.

(** ** Text normalizer *)

Definition _clean_extracted_text (text : string) : string :=
  (* Remove excessive whitespace: re.sub(r'\s+', ' ', text) *)
  let text := Re.sub (Re.plus Re.ws) " " text in
  (* Remove page breaks and other artifacts: re.sub(r'\f', '\n', text) *)
  let text := Re.sub (Re.chr PyStr.FF) (String PyStr.LF "") text in
  (* Clean up line breaks: re.sub(r'\n\s*\n', '\n', text) *)
  let text :=
    Re.sub (Re.Cat (Re.chr PyStr.LF) (Re.Cat (Re.Star Re.ws) (Re.chr PyStr.LF)))
           (String PyStr.LF "") text in
  PyStr.strip text.

(** ** Pattern-based text detector *)

(** The class [[•\-*]]: the bullet is U+2022, outside the code points
    modelled, which leaves the hyphen and the asterisk. *)
Definition bullet_class (c : ascii) : bool :=
  Ascii.eqb c "-" || Ascii.eqb c "*".

Definition padded (r : Re.regex) : Re.regex :=
  Re.Cat (Re.Star Re.ws) (Re.Cat r (Re.Star Re.ws)).

Definition skip_patterns : list Re.pattern :=
  [ Re.closed (Re.Star Re.ws);                                    (* ^\s*$ *)
    Re.closed (Re.plus Re.digit);                                 (* ^\d+$ *)
    Re.open Re.lower_az;                                          (* ^[a-z] *)
    Re.closed (Re.chr PyStr.DOT);                                 (* \.$ *)
    Re.open (padded (Re.Class bullet_class));                     (* ^\s*[•\-*]\s* *)
    Re.closed (padded (Re.Cat (Re.plus Re.digit) (Re.chr PyStr.DOT)));
                                                                  (* ^\s*\d+\.\s*$ *)
    Re.closed (padded Re.upper_AZ);                               (* ^\s*[A-Z]\s*$ *)
    Re.closed (padded (Re.Cat Re.upper_AZ (Re.opt Re.upper_AZ))); (* ^\s*[A-Z]{1,2}\s*$ *)
    Re.closed (padded (Re.Cat Re.lower_az
                 (Re.Cat (Re.opt Re.lower_az) (Re.opt Re.lower_az))));
                                                                  (* ^\s*[a-z]{1,3}\s*$ *)
    Re.closed (padded (Re.Cat Re.upper_AZ
                 (Re.Cat Re.lower_az (Re.opt Re.lower_az)))) ].   (* ^\s*[A-Z][a-z]{1,2}\s*$ *)

(** The class [[.!?]]. *)
Definition sentence_end (c : ascii) : bool :=
  Ascii.eqb c "." || Ascii.eqb c "!" || Ascii.eqb c "?".

Definition _is_regular_text (line : string) : bool :=
  if existsb (fun pattern => Re.matches pattern line) skip_patterns then true
  else if Re.search (Re.closed (Re.Cat (Re.Class sentence_end) (Re.Star Re.ws))) line
          && (10 <? Z.of_nat (length (PyStr.split line)))
  then true
  else false.

(** [sum(1 for word in words if word and word[0].isupper())] *)
Definition capitalized (word : string) : bool :=
  match word with
  | EmptyString => false
  | String c _ => PyChar.isupper c
  end.

(** The comparison [capitalized_count >= len(words) * 0.6] is made on
    floats.  The product is an integer exactly when [len(words)] is a
    multiple of 5, and there the rounded product is that integer; everywhere
    else it is at least 0.2 away from every integer.  So the comparison
    agrees with the exact one on rationals. *)
Definition _is_title_case (text : string) : result bool :=
  let words := PyStr.split text in
  if Z.of_nat (length words) <? 2 then Ok false
  else
    let! w0 := match words with w :: _ => Ok w | [] => Raise IndexError end in
    let! c0 := PyStr.first w0 in
    if negb (PyChar.isupper c0) then Ok false
    else
      (* Count capitalized words *)
      let capitalized_count := Z.of_nat (length (List.filter capitalized words)) in
      Ok (Qle_bool (inject_Z (Z.of_nat (length words)) * 0.6)
                   (inject_Z capitalized_count)).

Definition heading_keywords : list string :=
  [ "introduction"; "overview"; "background"; "method"; "methodology";
    "results"; "discussion"; "conclusion"; "summary"; "abstract";
    "chapter"; "section"; "part"; "appendix"; "reference"; "bibliography";
    "round"; "phase"; "step"; "stage"; "level"; "challenge"; "task";
    "objective"; "goal"; "purpose"; "scope"; "limitation"; "requirement" ].

Definition _contains_heading_keywords (text : string) : bool :=
  let text_lower := PyStr.lower text in
  existsb (fun keyword => PyStr.contains keyword text_lower) heading_keywords.

(** [^\d+(\.\d+)*\.?\s+[A-Z]] *)
Definition numbered_heading : Re.pattern :=
  Re.open (Re.Cat (Re.plus Re.digit)
          (Re.Cat (Re.Star (Re.Cat (Re.chr PyStr.DOT) (Re.plus Re.digit)))
          (Re.Cat (Re.opt (Re.chr PyStr.DOT))
          (Re.Cat (Re.plus Re.ws) Re.upper_AZ)))).

(** [^[A-Z][A-Za-z\s]{2,}$] *)
Definition letters_or_space (c : ascii) : bool :=
  PyChar.is_AZ c || PyChar.is_az c || PyChar.isspace c.

Definition capitalized_words : Re.pattern :=
  Re.closed (Re.Cat Re.upper_AZ (Re.two_or_more (Re.Class letters_or_space))).

(** [^(Section|Chapter|Part|Appendix|Round|Phase)\s+\d+] with
    [re.IGNORECASE] *)
Definition section_prefix : Re.pattern :=
  Re.open (Re.Cat (Re.alt (map Re.lit_nocase
                     ["Section"; "Chapter"; "Part"; "Appendix"; "Round"; "Phase"]))
          (Re.Cat (Re.plus Re.ws) (Re.plus Re.digit))).

Definition word_count (line : string) : Z := Z.of_nat (length (PyStr.split line)).

(** The chain of [if]/[elif] tests of [_analyze_line_for_heading], which
    yields [(confidence, level)]; the initial values are [(0.0, 0)]. *)
Definition classify_line (line : string) : result (Q * Z) :=
  (* Pattern 1: Numbered headings *)
  if Re.matches numbered_heading line then Ok (0.9%Q, PyStr.count PyStr.DOT line)
  (* Pattern 2: All caps headings *)
  else if PyStr.isupper line && (3 <? PyStr.len line) && (PyStr.len line <? 100)
  then Ok (0.85%Q, 0)
  else
    (* Pattern 3: Title case with specific keywords *)
    let! title_case := _is_title_case line in
    if title_case && _contains_heading_keywords line then Ok (0.8%Q, 1)
    (* Pattern 4: Bold-like patterns *)
    else if Re.matches capitalized_words line && (word_count line <=? 8)
    then Ok (0.75%Q, 2)
    (* Pattern 5: Section-like patterns *)
    else if Re.matches section_prefix line then Ok (0.9%Q, 0)
    (* Pattern 6: Short, capitalized lines *)
    else if word_count line <=? 5 then
      let! c0 := PyStr.first line in
      if PyChar.isupper c0 && negb (PyStr.endswith PyStr.DOT line)
      then Ok (0.7%Q, 2)
      else Ok (0.0%Q, 0)
    else Ok (0.0%Q, 0).

(** [confidence > c] on floats. *)
Definition Qgtb (a b : Q) : bool := negb (Qle_bool a b).

Definition _analyze_line_for_heading (line : string) (page_num line_num : Z)
    : result (option heading) :=
  (* Remove extra whitespace *)
  let line := Re.sub (Re.plus Re.ws) " " (PyStr.strip line) in
  (* Skip if too short or too long *)
  if (PyStr.len line <? 3) || (200 <? PyStr.len line) then Ok None
  (* Skip common non-heading patterns *)
  else if _is_regular_text line then Ok None
  else
    let! found := classify_line line in
    let conf := fst found in
    let lvl := snd found in
    if Qgtb conf 0.6
    then Ok (Some (candidate line lvl page_num line_num text_analysis conf))
    else Ok None.

(** The loop over the lines of one page inside a [try] block: an exception
    ends the page, and the candidates appended before it stay. *)
Fixpoint scan_lines (f : string -> Z -> result (option heading))
    (line_num : Z) (lines : list string) (headings : list heading)
    : list heading :=
  match lines with
  | [] => headings
  | line :: rest =>
      match f line line_num with
      | Ok (Some h) => scan_lines f (line_num + 1) rest (headings ++ [h])
      | Ok None => scan_lines f (line_num + 1) rest headings
      | Raise _ => headings
      end
  end.

(** The loop over [enumerate(self.pdf_reader.pages, 1)]. *)
Fixpoint scan_pages (f : Z -> string -> list heading -> list heading)
    (page_num : Z) (ps : list page) (headings : list heading) : list heading :=
  match ps with
  | [] => headings
  | p :: rest =>
      let headings :=
        match extract_text p with
        | Ok text => if PyStr.truthy text then f page_num text headings else headings
        | Raise _ => headings
        end in
      scan_pages f (page_num + 1) rest headings
  end.

Definition text_line (page_num : Z) (line : string) (line_num : Z)
    : result (option heading) :=
  let line := PyStr.strip line in
  if negb (PyStr.truthy line) || (PyStr.len line <? 3) then Ok None
  else _analyze_line_for_heading line page_num line_num.

Definition _extract_headings_from_text (r : pdf_reader) : list heading :=
  scan_pages
    (fun page_num text headings =>
       (* Clean and split text *)
       let text := _clean_extracted_text text in
       let lines := PyStr.split_on PyStr.LF text in
       scan_lines (text_line page_num) 1 lines headings)
    1 (pages r) [].

(** ** Font-heuristic detector *)

Definition font_line (page_num : Z) (line : string) (line_num : Z)
    : result (option heading) :=
  let line := PyStr.strip line in
  if (3 <? PyStr.len line) && (PyStr.len line <? 50) then
    (* Simple heuristic for font-based headings *)
    let! looks_like_heading :=
      if PyStr.isupper line then Ok true
      else
        let! c0 := PyStr.first line in
        Ok (PyChar.isupper c0 && (word_count line <=? 6)
            && negb (PyStr.endswith PyStr.DOT line)) in
    if looks_like_heading
    then Ok (Some (candidate line 1 page_num line_num font_analysis 0.6))
    else Ok None
  else Ok None.

Definition _extract_headings_by_font (r : pdf_reader) : list heading :=
  scan_pages
    (fun page_num text headings =>
       let lines := PyStr.split_on PyStr.LF text in
       scan_lines (font_line page_num) 1 lines headings)
    1 (pages r) [].

(** ** Position heuristic detector *)

Definition position_line (page_num : Z) (line : string) (line_num : Z)
    : result (option heading) :=
  let line := PyStr.strip line in
  if (line_num <=? 3) && (3 <? PyStr.len line) && (PyStr.len line <? 100) then
    let! c0 := PyStr.first line in
    if PyChar.isupper c0 && negb (PyStr.endswith PyStr.DOT line)
    then Ok (Some (candidate line (if line_num =? 1 then 0 else 1)
                             page_num line_num position_analysis 0.65))
    else Ok None
  else Ok None.

Definition _extract_headings_by_position (r : pdf_reader) : list heading :=
  scan_pages
    (fun page_num text headings =>
       let lines := PyStr.split_on PyStr.LF text in
       (* Look for lines at the beginning of pages or sections *)
       scan_lines (position_line page_num) 1 lines headings)
    1 (pages r) [].

(** ** Fusion / deduplication *)

Definition _normalize_title (t : string) : string :=
  (* Convert to lowercase and remove extra spaces *)
  let normalized := Re.sub (Re.plus Re.ws) " " (PyStr.strip (PyStr.lower t)) in
  (* Remove common punctuation: re.sub(r'[^\w\s]', '', normalized) *)
  Re.sub (Re.Class (fun c => negb (PyChar.isword c || PyChar.isspace c))) ""
         normalized.

(** [len(intersection) / len(union)] is a float division of two set sizes.
    The program only compares the quotient with [0.8]; the rounded quotient
    of two integers below 2^50 is above the float [0.8] exactly when the
    exact quotient is above 4/5. *)
Definition _calculate_similarity (title1 title2 : string) : Q :=
  if negb (PyStr.truthy title1) || negb (PyStr.truthy title2) then 0.0
  else
    (* Simple word overlap similarity *)
    let words1 : gset string := list_to_set (PyStr.split title1) in
    let words2 : gset string := list_to_set (PyStr.split title2) in
    if Nat.eqb (size words1) 0 || Nat.eqb (size words2) 0 then 0.0
    else
      let intersection := words1 ∩ words2 in
      let union := words1 ∪ words2 in
      if Nat.eqb (size union) 0 then 0.0
      else inject_Z (Z.of_nat (size intersection)) / inject_Z (Z.of_nat (size union)).

#[global] Instance source_tag_eq_dec : EqDecision source_tag.
Proof. solve_decision. Defined.

(** [a == b] on two heading dicts: equal keys with equal values, floats
    compared by value. *)
Definition heading_eqb (a b : heading) : bool :=
  bool_decide (title a = title b)
  && bool_decide (level a = level b)
  && bool_decide (page_number a = page_number b)
  && bool_decide (line_number a = line_number b)
  && bool_decide (source a = source b)
  && Qeq_bool (confidence a) (confidence b)
  && bool_decide (color a = color b)
  && bool_decide (italic a = italic b)
  && bool_decide (bold a = bold b).

(** [l.remove(x)]: drops the first element equal to [x].  (Python raises
    [ValueError] when there is none; the program calls it on an element it
    has just read from the list.) *)
Fixpoint list_remove (x : heading) (l : list heading) : list heading :=
  match l with
  | [] => []
  | y :: l' => if heading_eqb y x then l' else y :: list_remove x l'
  end.

(** The test made on each [existing] entry: exact match of the normalized
    titles, or similarity above [0.8]. *)
Definition duplicates (normalized_title : string) (existing : heading) : bool :=
  let existing_title := PyStr.strip (title existing) in
  let existing_normalized := _normalize_title existing_title in
  (* Check exact match *)
  String.eqb normalized_title existing_normalized
  (* Check similarity *)
  || Qgtb (_calculate_similarity normalized_title existing_normalized) 0.8.

(** One turn of the outer loop.  The inner loop stops at the first entry
    the heading duplicates; the list is changed only just before that
    [break]. *)
Definition dedup_step (unique_headings : list heading) (h : heading)
    : list heading :=
  let t := PyStr.strip (title h) in
  if negb (PyStr.truthy t) then unique_headings
  else
    (* Normalize title for comparison *)
    let normalized_title := _normalize_title t in
    match List.find (duplicates normalized_title) unique_headings with
    | Some existing =>
        (* Keep the one with higher confidence *)
        if Qgtb (confidence h) (confidence existing)
        then list_remove existing unique_headings ++ [h]
        else unique_headings
    | None => unique_headings ++ [h]
    end.

Definition _advanced_deduplication (headings : list heading) : list heading :=
  fold_left dedup_step headings [].

(** ** Sorting with Python's comparisons

    A sort key is a tuple of values that are [None] or an integer.  Tuples
    are compared position by position: the first position where the two
    values are not equal decides, by [<] on those two values, and [<]
    between [None] and anything raises [TypeError]. *)

Inductive py_value : Type :=
| PyNone
| PyInt (n : Z).

Definition py_eq (a b : py_value) : bool :=
  match a, b with
  | PyNone, PyNone => true
  | PyInt x, PyInt y => x =? y
  | _, _ => false
  end.

Definition py_lt (a b : py_value) : result bool :=
  match a, b with
  | PyInt x, PyInt y => Ok (x <? y)
  | _, _ => Raise TypeError
  end.

Fixpoint tuple_lt (k1 k2 : list py_value) : result bool :=
  match k1, k2 with
  | a :: k1', b :: k2' => if py_eq a b then tuple_lt k1' k2' else py_lt a b
  | [], _ :: _ => Ok true
  | _, [] => Ok false
  end.

(** [l.sort(key=key)]: a stable sort that uses [<] on the keys only, and
    lets the exception of a comparison through.  The model inserts the
    elements one by one from the left; CPython's sort may compare other
    pairs of keys, so on a list where some pair of keys cannot be compared
    it raises on possibly different inputs, and wherever both return they
    return the same list. *)
Section Sort.
Context {A : Type} (key : A -> list py_value).

Fixpoint sort_insert (x : A) (sorted : list A) : result (list A) :=
  match sorted with
  | [] => Ok [x]
  | y :: rest =>
      let! before := tuple_lt (key x) (key y) in
      if before then Ok (x :: y :: rest)
      else let! rest' := sort_insert x rest in Ok (y :: rest')
  end.

Fixpoint sort_into (sorted : list A) (l : list A) : result (list A) :=
  match l with
  | [] => Ok sorted
  | x :: l' => let! sorted' := sort_insert x sorted in sort_into sorted' l'
  end.

Definition py_sort (l : list A) : result (list A) := sort_into [] l.
End Sort.

(** [x.get('page_number', 0)]: the key is always there, its value may be
    [None]. *)
Definition page_key (x : heading) : py_value :=
  match page_number x with
  | Some n => PyInt n
  | None => PyNone
  end.

(** [x.get('line_number', 0)]: [0] where the key is absent. *)
Definition line_key (x : heading) : py_value :=
  match line_number x with
  | Some n => PyInt n
  | None => PyInt 0
  end.

(** ** Hierarchy builder

    [_build_hierarchy] links the dicts of its list to each other by
    appending a dict to the ['children'] list of another.  A dict is
    identified by its position in the sorted list; [children] holds, for
    every position, the positions appended to that dict's ['children'] so
    far.  The stack holds references to dicts: positions, paired with the
    (unchanging) fields of the dict.  Its top, [stack[-1]], is the head. *)

Record builder : Type := Builder {
  children : list (list nat);
  hierarchy : list nat;
  stack : list (nat * heading)
}.

(** [while stack and stack[-1]['level'] >= level: stack.pop()] *)
Fixpoint pop_stack (lvl : Z) (stack : list (nat * heading))
    : list (nat * heading) :=
  match stack with
  | [] => []
  | top :: below =>
      if level (snd top) >=? lvl then pop_stack lvl below else stack
  end.

(** The body of the loop, for the dict at position [i]. *)
Definition place (st : builder) (i : nat) (h : heading) : builder :=
  let lvl := level h in
  (* Pop stack until we find the right parent level *)
  let stack := pop_stack lvl (stack st) in
  (* Add to appropriate parent *)
  match stack with
  | [] =>
      {| children := children st;
         hierarchy := hierarchy st ++ [i];
         stack := (i, h) :: stack |}
  | (parent, _) :: _ =>
      {| children := alter (fun cs => cs ++ [i]) parent (children st);
         hierarchy := hierarchy st;
         stack := (i, h) :: stack |}
  end.

Fixpoint place_all (st : builder) (i : nat) (headings : list heading) : builder :=
  match headings with
  | [] => st
  | h :: rest => place_all (place st i h) (S i) rest
  end.

(** The nested value reached from a dict: its fields and, under
    ['children'], the nested values of the dicts appended to it. *)
Inductive node : Type :=
| Node (h : heading) (subnodes : list node).

Definition node_heading (n : node) : heading :=
  match n with Node h _ => h end.

Definition node_children (n : node) : list node :=
  match n with Node _ cs => cs end.

(** The nested values of the dicts at positions [base], [base+1], ...
    Every position appended to a dict is a later one, so the values are
    built from the last dict backwards. *)
Fixpoint reify (headings : list heading) (children : list (list nat))
    (base : nat) : list node :=
  match headings, children with
  | h :: headings', cs :: children' =>
      let later := reify headings' children' (S base) in
      Node h (omap (fun c => later !! (c - S base)%nat) cs) :: later
  | _, _ => []
  end.

Definition level_key (x : heading) : list py_value :=
  [PyInt (level x); page_key x; line_key x].

Definition run_builder (sorted : list heading) : builder :=
  place_all {| children := replicate (length sorted) [];
               hierarchy := []; stack := [] |} 0%nat sorted.

Definition forest_of (sorted : list heading) (st : builder) : list node :=
  let nodes := reify sorted (children st) 0 in
  omap (fun i => nodes !! i) (hierarchy st).

Definition _build_hierarchy (headings : list heading) : result (list node) :=
  (* Sort by level and position *)
  let! sorted := py_sort level_key headings in
  (* Build hierarchy *)
  Ok (forest_of sorted (run_builder sorted)).

(** ** Report assembly *)

Record extraction_methods : Type := ExtractionMethods {
  count_builtin_outline : nat;
  count_text_analysis : nat;
  count_font_analysis : nat;
  count_position_analysis : nat
}.

Record report : Type := Report {
  pdf_filename : string;
  total_headings : nat;
  methods : extraction_methods;
  headings : list node
}.

(** The dict returned by [extract_all_headings]. *)
Inductive extraction : Type :=
| ErrorResult (message : string)          (* {"error": message} *)
| ReportResult (r : report).

Module Path.

Definition SLASH : ascii := "/"%char.

(** [os.path.basename]: what follows the last slash. *)
Fixpoint basename (p : string) : string :=
  match p with
  | EmptyString => EmptyString
  | String c p' =>
      if Ascii.eqb c SLASH then basename p'
      else if PyStr.existsb (Ascii.eqb SLASH) p' then basename p'
      else p
  end.

(** The root of [os.path.splitext] on a name without slash: the name up
    to its last dot, provided some character before that dot is not a
    dot. *)
Fixpoint cut_extension (seen_other : bool) (name : string) : option string :=
  match name with
  | EmptyString => None
  | String c name' =>
      let is_dot := Ascii.eqb c PyStr.DOT in
      match cut_extension (seen_other || negb is_dot) name' with
      | Some root => Some (String c root)
      | None => if is_dot && seen_other then Some EmptyString else None
      end
  end.

Definition splitext_root (name : string) : string :=
  match cut_extension false name with
  | Some root => root
  | None => name
  end.

End Path.

Definition by_position (x : heading) : list py_value := [page_key x; line_key x].

(** [extract_all_headings], for the document [f] found at [pdf_path]. *)
Definition extract_all_headings (pdf_path : string) (f : pdf_file)
    : result extraction :=
  match load_pdf f with
  | None => Ok (ErrorResult "Failed to load PDF")
  | Some reader =>
      (* Extract headings using different methods *)
      let builtin_headings := _extract_builtin_outline reader in
      let text_headings := _extract_headings_from_text reader in
      let font_headings := _extract_headings_by_font reader in
      let position_headings := _extract_headings_by_position reader in
      (* Combine all headings *)
      let all_headings :=
        builtin_headings ++ text_headings ++ font_headings ++ position_headings in
      (* Advanced deduplication and cleaning *)
      let final_headings := _advanced_deduplication all_headings in
      (* Sort by page number and line number *)
      let! final_headings := py_sort by_position final_headings in
      (* Build hierarchical structure *)
      let! hierarchical_headings := _build_hierarchy final_headings in
      Ok (ReportResult
            {| pdf_filename := Path.basename pdf_path;
               total_headings := length final_headings;
               methods :=
                 {| count_builtin_outline := length builtin_headings;
                    count_text_analysis := length text_headings;
                    count_font_analysis := length font_headings;
                    count_position_analysis := length position_headings |};
               headings := hierarchical_headings |})
  end.

(** ** Command surface *)

(** What the system does with the output path: [open] raises; [open]
    returns a file and a later write to it raises; or the file takes
    everything it is given. *)
Inductive output_state : Type :=
| CannotOpen
| CannotWrite
| Writable.

(** What the run finds outside itself: the document at the given path and
    the state of the output path. *)
Record world : Type := World {
  document : pdf_file;
  output : output_state
}.

Definition output_writable (w : world) : bool :=
  match output w with
  | Writable => true
  | CannotOpen | CannotWrite => false
  end.

(** Whether the interpreter prints the integer [n]: [json.dump] prints an
    integer with [int.__repr__], which raises [ValueError] on a number of
    more than 4300 digits. *)
Definition printable (n : Z) : bool := Z.abs n <? 10 ^ int_max_str_digits.

Definition printable_option (n : option Z) : bool :=
  match n with
  | Some n => printable n
  | None => true
  end.

(** The integers of one dict: the values under ['level'], ['page_number']
    and ['line_number'], and those of its children. *)
Fixpoint printable_node (n : node) : bool :=
  match n with
  | Node h cs =>
      printable (level h) && printable_option (page_number h)
      && printable_option (line_number h)
      && (fix each (l : list node) : bool :=
            match l with
            | [] => true
            | c :: l' => printable_node c && each l'
            end) cs
  end.

(** Whether [json.dump(result, f, indent=2, ensure_ascii=False)] returns:
    the keys are strings and the values are strings, floats, [None], lists,
    dicts and integers, so it raises only on an integer that cannot be
    printed.  (The limits of the interpreter on memory and on the depth of
    recursion are left out.) *)
Definition dumpable (result : extraction) : bool :=
  match result with
  | ErrorResult _ => true
  | ReportResult r =>
      printable (Z.of_nat (total_headings r))
      && printable (Z.of_nat (count_builtin_outline (methods r)))
      && printable (Z.of_nat (count_text_analysis (methods r)))
      && printable (Z.of_nat (count_font_analysis (methods r)))
      && printable (Z.of_nat (count_position_analysis (methods r)))
      && forallb printable_node (headings r)
  end.

(** What the output file holds when the run is over: the whole dump of a
    result, or the beginning of it, cut where the exception was raised. *)
Inductive file_content : Type :=
| Complete (result : extraction)
| Truncated (result : extraction).

(** What a run leaves behind: the file it wrote, the lines it printed and
    its exit status ([0] when [main] returns). *)
Record outcome : Type := Outcome {
  written : option (string * file_content);
  printed : list string;
  exit_status : Z
}.

(** [convert_to_json(output_path=None)]: the value returned ([None] or the
    output path) and the file written, if any.  The file exists as soon as
    [open] has returned: an exception raised inside the [with] block, by
    [json.dump] or by a write, leaves it behind with what was written
    before. *)
Definition convert_to_json (pdf_path : string) (w : world)
    (output_path : option string) : option string * option (string * file_content) :=
  match extract_all_headings pdf_path (document w) with
  | Raise _ => (None, None)
  | Ok result =>
      let output_path :=
        match output_path with
        | Some p => p
        | None =>
            let base_name := Path.splitext_root (Path.basename pdf_path) in
            (base_name ++ "_best_outline.json")%string
        end in
      match output w with
      | CannotOpen => (None, None)
      | CannotWrite => (None, Some (output_path, Truncated result))
      | Writable =>
          if dumpable result
          then (Some output_path, Some (output_path, Complete result))
          else (None, Some (output_path, Truncated result))
      end
  end.

(** [main], on [sys.argv]. *)
Definition main (argv : list string) (w : world) : outcome :=
  match argv with
  | [_; pdf_path] =>
      match convert_to_json pdf_path w None with
      | (Some output_path, file) =>
          if PyStr.truthy output_path then
            {| written := file;
               printed := ["Conversion completed successfully!";
                           ("Output saved to: " ++ output_path)%string];
               exit_status := 0 |}
          else
            {| written := file; printed := ["Conversion failed!"]; exit_status := 1 |}
      | (None, file) =>
          {| written := file; printed := ["Conversion failed!"]; exit_status := 1 |}
      end
  | _ =>
      {| written := None;
         printed := ["Usage: python best_pdf_converter.py <pdf_file>"];
         exit_status := 1 |}
  end.

(** ** Properties of the output, and the inputs of the scenarios *)

(** In a nested value, every child has a level strictly above its
    parent's, at every depth. *)
Inductive levels_increase : node -> Prop :=
| levels_increase_node (h : heading) (cs : list node) :
    Forall (fun c => level h < level (node_heading c)) cs ->
    Forall levels_increase cs ->
    levels_increase (Node h cs).

(** [descendant n d]: [d] is reached from [n] by one or more steps to a
    child. *)
Inductive descendant : node -> node -> Prop :=
| descendant_child (n c : node) :
    In c (node_children n) -> descendant n c
| descendant_below (n c d : node) :
    In c (node_children n) -> descendant c d -> descendant n d.

(** Two accepted candidates that the deduplication test itself declares
    duplicates of each other. *)
Definition same_normalized_title (a b : heading) : Prop :=
  _normalize_title (PyStr.strip (title a)) = _normalize_title (PyStr.strip (title b)).

Definition newline : string := String PyStr.LF "".
Definition formfeed : string := String PyStr.FF "".

(** The page of the numbered-heading scenario. *)
Definition scenario_page_text : string :=
  ("1. Introduction" ++ newline ++ "This describes the overall approach."
   ++ newline ++ "2. Methodology" ++ newline ++ "Details follow.")%string.

Definition scenario_reader : pdf_reader :=
  {| pages := [ {| extract_text := Ok scenario_page_text |} ]; outline := Ok [] |}.

(** The outline entry [{title: "Chapter 1", page: 2.0}]. *)
Definition chapter_entry : outline_entry :=
  {| entry_title := Some (Some "Chapter 1"); entry_str := "Chapter 1";
     entry_page := FloatPage (Finite 2.0);
     entry_color := None; entry_italic := None; entry_bold := None |}.

Definition chapter_reader : pdf_reader :=
  {| pages := [ {| extract_text := Ok "Chapter 1" |} ];
     outline := Ok [Entry chapter_entry] |}.

(** A page of three lines: two six-word lines and, between them, their
    five common words. *)
Definition overlap_page_text : string :=
  ("Alpha Beta Gamma Delta Epsilon Zeta" ++ newline
   ++ "Alpha Beta Gamma Delta Epsilon" ++ newline
   ++ "Alpha Beta Gamma Delta Epsilon Eta")%string.

Definition overlap_reader : pdf_reader :=
  {| pages := [ {| extract_text := Ok overlap_page_text |} ]; outline := Ok [] |}.

(** The list [all_headings] that [extract_all_headings] hands to the
    deduplication. *)
Definition all_headings_of (r : pdf_reader) : list heading :=
  _extract_builtin_outline r ++ _extract_headings_from_text r
  ++ _extract_headings_by_font r ++ _extract_headings_by_position r.

(** Four candidates: two six-word titles, then their common five words
    twice, in two spellings, with rising confidence. *)
Definition overlapping_candidates : list heading :=
  [ candidate "Alpha Beta Gamma Delta Epsilon Zeta" 1 1 1 font_analysis 0.6;
    candidate "Alpha Beta Gamma Delta Epsilon Eta" 1 1 2 font_analysis 0.6;
    candidate "Alpha Beta Gamma Delta Epsilon" 1 1 3 position_analysis 0.65;
    candidate "ALPHA BETA GAMMA DELTA EPSILON" 0 2 1 text_analysis 0.85 ].

(** A one-page document whose first line the font detector and the
    position detector both report. *)
Definition summary_reader : pdf_reader :=
  {| pages := [ {| extract_text := Ok ("SUMMARY OF RESULTS" ++ newline ++ "it went well.")%string |} ];
     outline := Ok [] |}.

Definition script : string := "best_pdf_converter.py".

(** *** The page of an outline entry, in the words of the claim

    The reference of an entry is integer-like, float-like or a string; a
    string gives its first embedded integer, the first run of digits, when
    that run has at most 4300 digits; the index found is 0-based and the
    page number is that index plus one; without an index the page number is
    null. *)

(** The decimal digits [s] starts with. *)
Fixpoint digits_prefix (s : string) : string :=
  match s with
  | EmptyString => EmptyString
  | String c s' =>
      if PyChar.isdecimal c then String c (digits_prefix s') else EmptyString
  end.

(** The first run of decimal digits of [s], if [s] has a digit. *)
Fixpoint first_digits (s : string) : option string :=
  match s with
  | EmptyString => None
  | String c s' =>
      if PyChar.isdecimal c then Some (digits_prefix s) else first_digits s'
  end.

(** The first integer embedded in [s]: the number its first run of decimal
    digits denotes, when the run has at most 4300 digits. *)
Definition first_integer (s : string) : option Z :=
  match first_digits s with
  | Some run =>
      if PyStr.len run <=? int_max_str_digits
      then Some (PyStr.int_digits 0 run) else None
  | None => None
  end.

Definition truncate (q : Q) : Z := Z.quot (Qnum q) (Zpos (Qden q)).

Definition zero_based_index (p : page_ref) : option Z :=
  match p with
  | NoPage => None
  | IntPage n => Some n
  | FloatPage (Finite q) | FloatLikePage (Finite q) => Some (truncate q)
  | FloatPage _ | FloatLikePage _ => None
  | OtherPage s => first_integer s
  end.

Definition one_based_page (p : page_ref) : option Z :=
  option_map (fun index => index + 1) (zero_based_index p).

(** The entries of an outline, nested lists flattened. *)
Fixpoint item_entries (item : outline_item) : list outline_entry :=
  match item with
  | Entry e => [e]
  | Nested items =>
      (fix each (l : list outline_item) : list outline_entry :=
         match l with
         | [] => []
         | i :: l' => item_entries i ++ each l'
         end) items
  end.

Definition outline_entries (r : pdf_reader) : list outline_entry :=
  match outline r with
  | Ok items => concat (map item_entries items)
  | Raise _ => []
  end.

(** The report of [summary_reader]. *)
Definition summary_report : report :=
  {| pdf_filename := "summary.pdf";
     total_headings := 1;
     methods := {| count_builtin_outline := 0; count_text_analysis := 0;
                   count_font_analysis := 1; count_position_analysis := 1 |};
     headings :=
       [ Node (candidate "SUMMARY OF RESULTS" 0 1 1 position_analysis 0.65) [] ] |}.

(** Six candidates of two pages, and the forest built from them. *)
Definition sample_headings : list heading :=
  [ candidate "PART ONE" 0 1 1 text_analysis 0.85;
    candidate "Scope And Goal" 1 1 4 text_analysis 0.8;
    candidate "Open Points" 2 1 9 text_analysis 0.75;
    candidate "PART TWO" 0 2 1 text_analysis 0.85;
    candidate "Method Overview" 1 2 3 text_analysis 0.8;
    candidate "Results Summary" 1 3 2 text_analysis 0.8 ].

Definition sample_forest : list node :=
  [ Node (candidate "PART ONE" 0 1 1 text_analysis 0.85) [];
    Node (candidate "PART TWO" 0 2 1 text_analysis 0.85)
      [ Node (candidate "Scope And Goal" 1 1 4 text_analysis 0.8) [];
        Node (candidate "Method Overview" 1 2 3 text_analysis 0.8) [];
        Node (candidate "Results Summary" 1 3 2 text_analysis 0.8)
          [ Node (candidate "Open Points" 2 1 9 text_analysis 0.75) [] ] ] ].

(** [linked hs p c]: the dicts at positions [p] and [c] of [hs] can be
    parent and child: [c] comes later and has the greater level. *)
Definition linked (hs : list heading) (p c : nat) : Prop :=
  (p < c)%nat
  /\ exists hp hc, hs !! p = Some hp /\ hs !! c = Some hc /\ level hp < level hc.

(** What holds of the builder when the dicts before position [k] have
    been placed. *)
Record builder_ok (hs : list heading) (k : nat) (st : builder) : Prop := BuilderOk {
  stack_ok : forall i h, In (i, h) (stack st) -> (i < k)%nat /\ hs !! i = Some h;
  children_ok : forall p cs c, children st !! p = Some cs -> In c cs -> linked hs p c
}.

(** A whitespace character other than the space. *)
Definition other_whitespace (c : ascii) : bool :=
  PyChar.isspace c && negb (Ascii.eqb c PyStr.SP).

(** Two keys that [<] can compare. *)
Definition comparable (k1 k2 : list py_value) : Prop :=
  exists b, tuple_lt k1 k2 = Ok b.

(** A candidate whose ['page_number'] is not [None]. *)
Definition has_page (h : heading) : Prop := page_number h <> None.

(** Every dict before position [k] has been appended exactly once, to the
    top-level list or to the ['children'] of an earlier dict. *)
Record builder_complete (hs : list heading) (k : nat) (st : builder) : Prop :=
  BuilderComplete {
    children_length : length (children st) = length hs;
    placed_once : Permutation (hierarchy st ++ concat (children st)) (seq 0 k)
  }.

(** The strings a regular expression denotes: the meaning the matcher of
    [Re] is checked against. *)
Inductive denotes : Re.regex -> string -> Prop :=
| denotes_eps : denotes Re.Eps EmptyString
| denotes_class (p : ascii -> bool) (c : ascii) :
    p c = true -> denotes (Re.Class p) (String c EmptyString)
| denotes_cat (r s : Re.regex) (u v : string) :
    denotes r u -> denotes s v -> denotes (Re.Cat r s) (u ++ v)%string
| denotes_or_l (r s : Re.regex) (u : string) :
    denotes r u -> denotes (Re.Or r s) u
| denotes_or_r (r s : Re.regex) (u : string) :
    denotes s u -> denotes (Re.Or r s) u
| denotes_star_nil (r : Re.regex) : denotes (Re.Star r) EmptyString
| denotes_star_cons (r : Re.regex) (u v : string) :
    denotes r u -> denotes (Re.Star r) v -> denotes (Re.Star r) (u ++ v)%string.

(** A page reference that is an infinite float: the one kind on which
    [_get_page_number] lets an exception ([OverflowError]) through, so that
    [_process_outline_items] skips the entry. *)
Definition infinite_page (p : page_ref) : Prop :=
  exists neg, p = FloatPage (Inf neg) \/ p = FloatLikePage (Inf neg).

(** *** Deduplication with its history

    The same pass, where every accepted candidate carries the candidates
    that collapsed into it: a candidate found to duplicate an accepted entry
    either joins the entry's group, or takes the entry's place and inherits
    the entry and its group. *)

Definition group : Type := (heading * list heading)%type.

Definition members (g : group) : list heading := fst g :: snd g.

(** The group list without its first group whose head satisfies [p]. *)
Fixpoint remove_first (p : heading -> bool) (gs : list group) : list group :=
  match gs with
  | [] => []
  | g :: gs' => if p (fst g) then gs' else g :: remove_first p gs'
  end.

(** [h] joins the first group whose head satisfies [p]. *)
Fixpoint absorb (p : heading -> bool) (h : heading) (gs : list group) : list group :=
  match gs with
  | [] => []
  | g :: gs' =>
      if p (fst g) then (fst g, snd g ++ [h]) :: gs' else g :: absorb p h gs'
  end.

Definition traced_step (gs : list group) (h : heading) : list group :=
  let t := PyStr.strip (title h) in
  if negb (PyStr.truthy t) then gs
  else
    let normalized_title := _normalize_title t in
    match List.find (fun g => duplicates normalized_title (fst g)) gs with
    | Some (existing, collapsed) =>
        if Qgtb (confidence h) (confidence existing)
        then remove_first (duplicates normalized_title) gs
             ++ [(h, collapsed ++ [existing])]
        else absorb (duplicates normalized_title) h gs
    | None => gs ++ [(h, [])]
    end.

Definition traced_deduplication (headings : list heading) : list group :=
  fold_left traced_step headings [].

(** The head of a group has the greatest confidence of the group. *)
Definition best_first (g : group) : Prop :=
  Forall (fun x => (confidence x <= confidence (fst g))%Q) (snd g).

(** The candidates the deduplication does not skip. *)
Definition titled (h : heading) : bool := PyStr.truthy (PyStr.strip (title h)).

(** [later] is not a duplicate of [earlier], by the test of the pass. *)
Definition distinct_titles (earlier later : heading) : Prop :=
  duplicates (_normalize_title (PyStr.strip (title later))) earlier = false.

(** No candidate has a higher confidence than one before it. *)
Definition never_rising (headings : list heading) : Prop :=
  ForallOrdPairs (fun a b => (confidence b <= confidence a)%Q) headings.

(** Three candidates in the order of their confidence. *)
Definition falling_candidates : list heading :=
  [ candidate "Results and Discussion" 1 1 1 text_analysis 0.8;
    candidate "Results  and discussion." 1 1 1 position_analysis 0.65;
    candidate "Conclusion" 1 2 1 font_analysis 0.6 ].

(** The normalized title the deduplication compares a candidate by. *)
Definition comparison_title (h : heading) : string :=
  _normalize_title (PyStr.strip (title h)).

(** The set of words of a title, as [_calculate_similarity] builds it. *)
Definition word_set (t : string) : gset string := list_to_set (PyStr.split t).

(** A string without the character [c]. *)
Definition lacks (c : ascii) (s : string) : Prop :=
  PyStr.existsb (Ascii.eqb c) s = false.

(** A file name that is not made of dots only. *)
Definition has_stem (name : string) : Prop :=
  PyStr.existsb (fun c => negb (Ascii.eqb c PyStr.DOT)) name = true.

(** The path [dir/stem.ext]. *)
Definition path_of (dir stem ext : string) : string :=
  (dir ++ "/" ++ stem ++ "." ++ ext)%string.

(** *** Whitespace collapsing, described directly

    [squeeze false s] is [s] with every run of whitespace replaced by one
    space ([squeeze true] continues inside a run); [spaced false s] says
    that [s] is already so: its only whitespace characters are spaces, no
    two of them adjacent. *)

Fixpoint ws_run (s : string) : nat :=
  match s with
  | EmptyString => O
  | String c s' => if PyChar.isspace c then S (ws_run s') else O
  end.

Fixpoint squeeze (in_run : bool) (s : string) : string :=
  match s with
  | EmptyString => EmptyString
  | String c s' =>
      if PyChar.isspace c
      then if in_run then squeeze true s' else String PyStr.SP (squeeze true s')
      else String c (squeeze false s')
  end.

Fixpoint spaced (after_space : bool) (s : string) : bool :=
  match s with
  | EmptyString => true
  | String c s' =>
      if PyChar.isspace c
      then negb after_space && Ascii.eqb c PyStr.SP && spaced true s'
      else spaced false s'
  end.

(** The text of page [page_num] (counted from 1), when the page exists and
    its text can be extracted. *)
Definition page_text (r : pdf_reader) (page_num : Z) : option string :=
  if page_num <? 1 then None
  else match pages r !! Z.to_nat (page_num - 1) with
       | Some p => match extract_text p with
                   | Ok text => Some text
                   | Raise _ => None
                   end
       | None => None
       end.

(** Line [line_num] (counted from 1) of a text split at newlines. *)
Definition line_at (text : string) (line_num : Z) : option string :=
  if line_num <? 1 then None
  else PyStr.split_on PyStr.LF text !! Z.to_nat (line_num - 1).

(** The headings of a nested value, parent first. *)
Fixpoint flatten (n : node) : list heading :=
  match n with
  | Node h cs =>
      h :: (fix each (l : list node) : list heading :=
              match l with
              | [] => []
              | c :: l' => flatten c ++ each l'
              end) cs
  end.

(** All the headings of a forest. *)
Definition forest_headings (forest : list node) : list heading :=
  concat (map flatten forest).

(** Whether a candidate has a page number ([true]) or [None] ([false]). *)
Definition paged (h : heading) : bool :=
  match page_number h with
  | Some _ => true
  | None => false
  end.

(** A list that holds a candidate with a page number and one without. *)
Definition mixed_pages (l : list heading) : Prop :=
  (exists x, In x l /\ paged x = true) /\ (exists y, In y l /\ paged y = false).

(** A one-page document whose outline has one entry without a page. *)
Definition cover_reader : pdf_reader :=
  {| pages := [ {| extract_text := Ok "SUMMARY OF RESULTS" |} ];
     outline := Ok [Entry {| entry_title := Some (Some "Cover");
                             entry_str := "Cover"; entry_page := NoPage;
                             entry_color := None; entry_italic := None;
                             entry_bold := None |}] |}.

(** The entries of an outline in the order of the walk, each with its
    nesting depth: [lvl] for the entries of the list itself, one more for
    each list around an entry. *)
Fixpoint item_depths (item : outline_item) (lvl : Z) : list (outline_entry * Z) :=
  match item with
  | Entry e => [(e, lvl)]
  | Nested items =>
      (fix each (l : list outline_item) : list (outline_entry * Z) :=
         match l with
         | [] => []
         | i :: l' => item_depths i (lvl + 1) ++ each l'
         end) items
  end.

Definition outline_depths (r : pdf_reader) : list (outline_entry * Z) :=
  match outline r with
  | Ok items => concat (map (fun i => item_depths i 0) items)
  | Raise _ => []
  end.

(** A page reference that is not an infinite float. *)
Definition finite_page (p : page_ref) : bool :=
  match p with
  | FloatPage (Inf _) | FloatLikePage (Inf _) => false
  | _ => true
  end.

(** The dict of the builtin reader for an entry at a depth. *)
Definition builtin_dict (ed : outline_entry * Z) : heading :=
  set_confidence 0.95 (outline_dict (fst ed) (snd ed) (one_based_page (entry_page (fst ed)))).

(** A dict without children. *)
Definition leaf (h : heading) : node := Node h [].

(** The shape of a forest in which the dicts of a list have one level,
    only the last of them has children, and its children have that shape
    again. *)
Inductive comb : list node -> Prop :=
| comb_nil : comb []
| comb_row (leaves : list heading) (h : heading) (subs : list node) :
    Forall (fun x => level x = level h) leaves ->
    Forall (fun c => level h < level (node_heading c)) subs ->
    comb subs ->
    comb (map leaf leaves ++ [Node h subs]).

(** No heading has a lower level than one after it. *)
Definition level_sorted (l : list heading) : Prop :=
  ForallOrdPairs (fun a b => level a <= level b) l.

(** The builder as it stands when the loop runs under a dict [b] that stays
    at the bottom of the stack: [m] dicts without children come first, then
    [b] at position [m]; the positions after it are those of the builder
    [st], moved up by [S m], and what [st] appends to its top-level list
    is appended to the children of [b]. *)
Definition under (m : nat) (b : heading) (top : list nat) (st : builder) : builder :=
  {| children := replicate m [] ++ map (Nat.add (S m)) (hierarchy st)
                 :: map (map (Nat.add (S m))) (children st);
     hierarchy := top;
     stack := map (fun e => ((S m + fst e)%nat, snd e)) (stack st) ++ [(m, b)] |}.

(** The integer of a key component that is not [None]. *)
Definition int_of (v : py_value) : Z :=
  match v with
  | PyInt n => n
  | PyNone => 0
  end.

(** [a] is not after [b] in the order of the keys (level, page, line) of
    two headings with page numbers. *)
Definition sort_order (a b : heading) : Prop :=
  level a < level b
  \/ (level a = level b
      /\ (int_of (page_key a) < int_of (page_key b)
          \/ (int_of (page_key a) = int_of (page_key b)
              /\ int_of (line_key a) <= int_of (line_key b)))).

(** A capital letter among the code points 0..255: A-Z, or one of the
    accented capitals U+00C0..U+00D6 and U+00D8..U+00DE. *)
Definition latin_capital (c : ascii) : bool :=
  PyChar.is_AZ c || PyChar.between 192 214 c || PyChar.between 216 222 c.

(** A space, or a word character that is not one of these capitals. *)
Definition plain_char (c : ascii) : bool :=
  (Ascii.eqb c PyStr.SP || PyChar.isword c) && negb (latin_capital c).

(** An outline entry whose page is the float [inf], and a one-page document
    whose outline is that entry alone. *)
Definition endless_entry : outline_entry :=
  {| entry_title := Some (Some "Appendix"); entry_str := "Appendix";
     entry_page := FloatPage (Inf false);
     entry_color := None; entry_italic := None; entry_bold := None |}.

Definition endless_reader : pdf_reader :=
  {| pages := [ {| extract_text := Ok "it went well." |} ];
     outline := Ok [Entry endless_entry] |}.

(** A candidate of page [page_num]. *)
Definition on_page (page_num : Z) (h : heading) : bool :=
  bool_decide (page_number h = Some page_num).

(** The string of [n] digits 9. *)
Fixpoint nines (n : nat) : string :=
  match n with
  | O => EmptyString
  | S n' => String "9" (nines n')
  end.

(** * Proofs *)

(** ** The matcher computes the denotation *)

Lemma append_empty (u v : string) :
  (u ++ v)%string = EmptyString -> u = EmptyString /\ v = EmptyString.
Proof. destruct u; cbn; [auto | discriminate]. Qed.

Lemma denotes_never (w : string) : ~ denotes Re.Never w.
Proof. intros H. inversion H. Qed.

Lemma denotes_cat_inv (r s : Re.regex) (w : string) :
  denotes (Re.Cat r s) w ->
  exists u v, w = (u ++ v)%string /\ denotes r u /\ denotes s v.
Proof. intros H. inversion H; subst. eauto. Qed.

Lemma denotes_or_inv (r s : Re.regex) (w : string) :
  denotes (Re.Or r s) w -> denotes r w \/ denotes s w.
Proof. intros H. inversion H; subst; auto. Qed.

Lemma nullable_denotes (r : Re.regex) :
  Re.nullable r = true <-> denotes r EmptyString.
Proof.
  induction r as [| |p|r IHr s IHs|r IHr s IHs|r IHr]; cbn.
  - split; [discriminate | intros H; inversion H].
  - split; [constructor | reflexivity].
  - split; [discriminate | intros H; inversion H].
  - rewrite andb_true_iff, IHr, IHs. split.
    + intros [Hr Hs]. apply (denotes_cat r s EmptyString EmptyString); assumption.
    + intros H. apply denotes_cat_inv in H. destruct H as (u & v & Huv & Hu & Hv).
      symmetry in Huv. apply append_empty in Huv. destruct Huv as [-> ->]. auto.
  - rewrite orb_true_iff, IHr, IHs. split.
    + intros [H | H]; [now apply denotes_or_l | now apply denotes_or_r].
    + apply denotes_or_inv.
  - split; [constructor | reflexivity].
Qed.

Lemma cat_denotes (r s : Re.regex) (w : string) :
  denotes (Re.cat r s) w <-> denotes (Re.Cat r s) w.
Proof.
  assert (Hleft : forall s', ~ denotes (Re.Cat Re.Never s') w).
  { intros s' H. apply denotes_cat_inv in H. destruct H as (u & v & _ & Hu & _).
    inversion Hu. }
  assert (Hright : forall r', ~ denotes (Re.Cat r' Re.Never) w).
  { intros r' H. apply denotes_cat_inv in H. destruct H as (u & v & _ & _ & Hv).
    inversion Hv. }
  assert (Heps : forall s', denotes s' w <-> denotes (Re.Cat Re.Eps s') w).
  { intros s'. split.
    - intros H. apply (denotes_cat Re.Eps s' EmptyString w); [constructor | exact H].
    - intros H. apply denotes_cat_inv in H. destruct H as (u & v & -> & Hu & Hv).
      inversion Hu; subst. exact Hv. }
  destruct r, s; cbn; try reflexivity;
    try apply Heps;
    split; intros H;
    solve [ inversion H
          | exfalso; eapply Hleft; eassumption
          | exfalso; eapply Hright; eassumption ].
Qed.

Lemma or_denotes (r s : Re.regex) (w : string) :
  denotes (Re.or r s) w <-> denotes (Re.Or r s) w.
Proof.
  assert (Hl : forall s', denotes s' w <-> denotes (Re.Or Re.Never s') w).
  { intros s'. split; [apply denotes_or_r |].
    intros H. apply denotes_or_inv in H. destruct H as [H | H]; [inversion H | exact H]. }
  assert (Hr : forall r', denotes r' w <-> denotes (Re.Or r' Re.Never) w).
  { intros r'. split; [apply denotes_or_l |].
    intros H. apply denotes_or_inv in H. destruct H as [H | H]; [exact H | inversion H]. }
  destruct r, s; cbn; try reflexivity; try apply Hl; try apply Hr.
Qed.

(** A non-empty string of [r*] starts with a non-empty string of [r]. *)
Lemma denotes_star_step (r : Re.regex) (c : ascii) (w : string) :
  denotes (Re.Star r) (String c w) ->
  exists u v, w = (u ++ v)%string /\ denotes r (String c u) /\ denotes (Re.Star r) v.
Proof.
  intros H. remember (Re.Star r) as re eqn:Hre. remember (String c w) as s eqn:Hs.
  revert Hre Hs.
  induction H as [| | | | | |r' u v Hu _ Hv IHv]; intros Hre Hs; try discriminate.
  injection Hre as ->.
  destruct u as [|c' u']; cbn in Hs.
  - apply IHv; [reflexivity | exact Hs].
  - injection Hs as -> <-. eauto.
Qed.

Lemma deriv_denotes (c : ascii) (r : Re.regex) :
  forall w, denotes (Re.deriv c r) w <-> denotes r (String c w).
Proof.
  induction r as [| |p|r IHr s IHs|r IHr s IHs|r IHr]; intros w; cbn [Re.deriv].
  - split; intros H; inversion H.
  - split; intros H; inversion H.
  - destruct (p c) eqn:Hc; split; intros H; inversion H; subst.
    + now constructor.
    + constructor.
    + congruence.
  - rewrite or_denotes. split.
    + intros H. apply denotes_or_inv in H. destruct H as [H | H].
      * apply cat_denotes, denotes_cat_inv in H.
        destruct H as (u & v & -> & Hu & Hv). apply IHr in Hu.
        apply (denotes_cat r s (String c u) v); assumption.
      * destruct (Re.nullable r) eqn:Hnull; [| inversion H].
        apply nullable_denotes in Hnull. apply IHs in H.
        apply (denotes_cat r s EmptyString (String c w)); assumption.
    + intros H. apply denotes_cat_inv in H. destruct H as (u & v & Huv & Hu & Hv).
      destruct u as [|c' u']; cbn in Huv.
      * change (String c w = v) in Huv. subst v. apply denotes_or_r.
        apply nullable_denotes in Hu. rewrite Hu. now apply IHs.
      * injection Huv as <- ->. apply denotes_or_l, cat_denotes.
        apply denotes_cat; [now apply IHr | exact Hv].
  - rewrite or_denotes. split.
    + intros H. apply denotes_or_inv in H.
      destruct H as [H | H]; [apply denotes_or_l, IHr | apply denotes_or_r, IHs]; exact H.
    + intros H. apply denotes_or_inv in H.
      destruct H as [H | H]; [apply denotes_or_l, IHr | apply denotes_or_r, IHs]; exact H.
  - rewrite cat_denotes. split.
    + intros H. apply denotes_cat_inv in H. destruct H as (u & v & -> & Hu & Hv).
      apply IHr in Hu. apply (denotes_star_cons r (String c u) v); assumption.
    + intros H. apply denotes_star_step in H. destruct H as (u & v & -> & Hu & Hv).
      apply denotes_cat; [now apply IHr | exact Hv].
Qed.

(** [Re.fullmatch] decides membership in the denotation. *)
Lemma fullmatch_denotes (s : string) :
  forall r, Re.fullmatch r s = true <-> denotes r s.
Proof.
  induction s as [|c s IH]; intros r; cbn.
  - apply nullable_denotes.
  - rewrite IH. apply deriv_denotes.
Qed.

(** [Re.longest] returns the length of a prefix in the denotation... *)
Lemma longest_sound (s : string) :
  forall r n, Re.longest r s = Some n ->
              (n <= String.length s)%nat /\ denotes r (PyStr.take n s).
Proof.
  induction s as [|c s IH]; intros r n; cbn [Re.longest].
  - destruct (Re.nullable r) eqn:Hnull; [| discriminate].
    intros H. injection H as <-. split; [cbn; lia | now apply nullable_denotes].
  - destruct (Re.longest (Re.deriv c r) s) as [k|] eqn:Hk.
    + intros H. injection H as <-. destruct (IH _ _ Hk) as [Hle Hden].
      split; [cbn; lia | cbn; now apply deriv_denotes].
    + destruct (Re.nullable r) eqn:Hnull; [| discriminate].
      intros H. injection H as <-. split; [cbn; lia | now apply nullable_denotes].
Qed.

(** ... and no longer prefix is in it; it returns [None] only when no
    prefix is. *)
Lemma longest_complete (s : string) :
  forall r m, (m <= String.length s)%nat -> denotes r (PyStr.take m s) ->
              exists n, Re.longest r s = Some n /\ (m <= n)%nat.
Proof.
  induction s as [|c s IH]; intros r m Hm Hden; cbn [Re.longest].
  - cbn in Hm. assert (m = 0%nat) as -> by lia. cbn in Hden.
    apply nullable_denotes in Hden. rewrite Hden. eauto.
  - destruct m as [|m]; cbn in Hden, Hm.
    + apply nullable_denotes in Hden. rewrite Hden.
      destruct (Re.longest (Re.deriv c r) s); eexists; split; eauto; lia.
    + apply deriv_denotes in Hden.
      destruct (IH _ m ltac:(lia) Hden) as (n & -> & Hn).
      exists (S n). split; [reflexivity | lia].
Qed.

(** ** Load failure and the command surface *)

Lemma load_failure_is_error_result (pdf_path : string) (f : pdf_file) :
  load_pdf f = None ->
  extract_all_headings pdf_path f = Ok (ErrorResult "Failed to load PDF").
Proof. intros Hload. unfold extract_all_headings. now rewrite Hload. Qed.

Lemma load_pdf_fails_iff (f : pdf_file) :
  load_pdf f = None <->
  f = Missing \/ (exists e, f = Unreadable e) \/ (exists r, f = Parsed r /\ pages r = []).
Proof.
  destruct f as [|e|r]; simpl.
  - split; auto.
  - split; eauto.
  - destruct (pages r) as [|p ps] eqn:Hp; simpl; split.
    + intros _. right. right. exists r. auto.
    + auto.
    + discriminate.
    + intros [H|[[e H]|[r' [H Hr]]]]; try discriminate.
      injection H as <-. congruence.
Qed.

(** C1 (the code departs from the claim).  A run on a path where no file
    exists, on a file the parser rejects, and on a document without pages:
    each time [extract_all_headings] returns the single error result, and
    each time [main] writes that result to the output file, prints the
    success message and returns with exit status 0. *)
Theorem load_failure_is_written_and_reported_as_success :
  let success :=
    {| written := Some ("report_best_outline.json",
                        Complete (ErrorResult "Failed to load PDF"));
       printed := ["Conversion completed successfully!";
                   "Output saved to: report_best_outline.json"];
       exit_status := 0 |} in
  main [script; "docs/report.pdf"] {| document := Missing; output := Writable |}
    = success
  /\ main [script; "docs/report.pdf"]
       {| document := Unreadable ValueError; output := Writable |}
    = success
  /\ main [script; "docs/report.pdf"]
       {| document := Parsed {| pages := []; outline := Ok [] |};
          output := Writable |}
    = success.
Proof. repeat split; reflexivity. Qed.

Lemma truthy_append (a b : string) :
  PyStr.truthy (a ++ b)%string = PyStr.truthy a || PyStr.truthy b.
Proof. destruct a; reflexivity. Qed.

(** Whatever the path and the kind of load failure, the run ends the same
    way as soon as the output file can be written. *)
Lemma load_failure_outcome (prog pdf_path : string) (f : pdf_file) :
  load_pdf f = None ->
  let out := main [prog; pdf_path] {| document := f; output := Writable |} in
  exit_status out = 0
  /\ exists output_path,
       written out = Some (output_path, Complete (ErrorResult "Failed to load PDF")).
Proof.
  intros Hload. unfold main, convert_to_json. simpl.
  rewrite (load_failure_is_error_result pdf_path f Hload). simpl.
  rewrite truthy_append, orb_true_r. simpl.
  split; [reflexivity | eexists; reflexivity].
Qed.

(** ** The numbered-heading scenario *)

(** The normalizer leaves the scenario page as one line of eleven words
    that ends in a period, which [_is_regular_text] rejects. *)
Lemma scenario_page_is_one_regular_line :
  _clean_extracted_text scenario_page_text
    = "1. Introduction This describes the overall approach. 2. Methodology Details follow."
  /\ _is_regular_text (_clean_extracted_text scenario_page_text) = true
  /\ _extract_headings_from_text scenario_reader = [].
Proof. repeat split; vm_compute; reflexivity. Qed.

(** C3 (counterexample).  On the scenario page the text detector does not
    emit the two candidates of the claim: it emits none. *)
Lemma scenario_page_candidates_differ :
  map (fun h => (title h, level h, confidence h))
      (_extract_headings_from_text scenario_reader)
  <> [ ("1. Introduction", 0, 0.9%Q); ("2. Methodology", 0, 0.9%Q) ].
Proof. vm_compute. discriminate. Qed.

(** C3 (amended).  Taken one by one, the lines of the scenario page go
    through the line loop of the text detector as follows: ["1. Introduction"]
    and ["2. Methodology"] are numbered headings of confidence 0.9 and
    level 1, the number of dots in the line, and the two sentences yield no
    candidate. *)
Theorem scenario_lines_one_by_one (page_num line_num : Z) :
  _analyze_line_for_heading "1. Introduction" page_num line_num
    = Ok (Some (candidate "1. Introduction" 1 page_num line_num text_analysis 0.9))
  /\ _analyze_line_for_heading "2. Methodology" page_num line_num
    = Ok (Some (candidate "2. Methodology" 1 page_num line_num text_analysis 0.9))
  /\ _analyze_line_for_heading "This describes the overall approach." page_num line_num
    = Ok None
  /\ _analyze_line_for_heading "Details follow." page_num line_num = Ok None
  /\ scan_lines (text_line page_num) 1 (PyStr.split_on PyStr.LF scenario_page_text) []
    = [ candidate "1. Introduction" 1 page_num 1 text_analysis 0.9;
        candidate "2. Methodology" 1 page_num 3 text_analysis 0.9 ].
Proof. repeat split; vm_compute; reflexivity. Qed.

(** ** The text normalizer *)

(** C4 (the code departs from the claim).  A form feed between two words
    comes out as a space, not as a newline, and so does a newline: the
    first substitution has already rewritten both when the other two run. *)
Theorem form_feed_becomes_space :
  _clean_extracted_text ("Intro" ++ formfeed ++ "Body")%string = "Intro Body"
  /\ _clean_extracted_text ("Intro" ++ newline ++ newline ++ "Body")%string = "Intro Body".
Proof. split; vm_compute; reflexivity. Qed.

(** ** Deduplication on overlapping titles *)

(** C5 (the code departs from the claim).  On the candidates of the
    three-line page the deduplication accepts the first and the second
    line, whose normalized titles have similarity 5/6, above [0.8]. *)
Theorem similar_titles_survive_deduplication :
  let first_line :=
    candidate "Alpha Beta Gamma Delta Epsilon Zeta" 0 1 1 position_analysis 0.65 in
  let second_line :=
    candidate "Alpha Beta Gamma Delta Epsilon" 1 1 2 position_analysis 0.65 in
  _advanced_deduplication (all_headings_of overlap_reader) = [first_line; second_line]
  /\ _calculate_similarity (_normalize_title (title first_line))
                           (_normalize_title (title second_line)) = (5 # 6)%Q
  /\ duplicates (_normalize_title (PyStr.strip (title second_line))) first_line = true.
Proof. repeat split; vm_compute; reflexivity. Qed.

(** The same pass can even leave two candidates with one normalized
    title. *)
Lemma identical_titles_survive_deduplication :
  let kept :=
    [ candidate "Alpha Beta Gamma Delta Epsilon" 1 1 3 position_analysis 0.65;
      candidate "ALPHA BETA GAMMA DELTA EPSILON" 0 2 1 text_analysis 0.85 ] in
  _advanced_deduplication overlapping_candidates = kept
  /\ Forall (fun h => _normalize_title (PyStr.strip (title h)) = "alpha beta gamma delta epsilon") kept.
Proof. split; [vm_compute; reflexivity | repeat constructor]. Qed.

(** The scenario of the two spellings of one title: the candidate of
    confidence 0.8 is the one kept. *)
Lemma results_and_discussion_scenario :
  _advanced_deduplication
    [ candidate "results and discussion" 1 1 1 text_analysis 0.8;
      candidate "results  and discussion." 1 1 2 font_analysis 0.7 ]
  = [ candidate "results and discussion" 1 1 1 text_analysis 0.8 ].
Proof. vm_compute. reflexivity. Qed.

(** ** Regular expressions: the facts used below *)

Lemma longest_Never (s : string) : Re.longest Re.Never s = None.
Proof. induction s as [|c s IH]; simpl; [reflexivity | now rewrite IH]. Qed.

Lemma longest_digits (s : string) :
  Re.longest (Re.Star Re.digit) s = Some (String.length (digits_prefix s)).
Proof.
  induction s as [|c s IH]; simpl; [reflexivity |].
  destruct (PyChar.isdecimal c); simpl.
  - now rewrite IH.
  - now rewrite longest_Never.
Qed.

Lemma longest_digit_run (c : ascii) (s : string) :
  Re.longest (Re.plus Re.digit) (String c s)
  = if PyChar.isdecimal c then Some (S (String.length (digits_prefix s))) else None.
Proof.
  unfold Re.plus. simpl.
  destruct (PyChar.isdecimal c); simpl.
  - now rewrite longest_digits.
  - now rewrite longest_Never.
Qed.

Lemma take_digits_prefix (s : string) :
  PyStr.take (String.length (digits_prefix s)) s = digits_prefix s.
Proof.
  induction s as [|c s IH]; simpl; [reflexivity |].
  destruct (PyChar.isdecimal c); simpl; [now rewrite IH | reflexivity].
Qed.

(** [numbers[0]], where [numbers = re.findall(r'\d+', s)], is the first
    run of digits of [s]. *)
Lemma findall_digits_first (s : string) :
  match Re.findall (Re.plus Re.digit) s with
  | n0 :: _ => Some n0
  | [] => None
  end = first_digits s.
Proof.
  unfold Re.findall.
  induction s as [|c s IH]; [reflexivity |].
  cbn [Re.findall_from first_digits].
  rewrite longest_digit_run.
  destruct (PyChar.isdecimal c) eqn:Hc.
  - cbn [PyStr.take digits_prefix]. rewrite Hc, take_digits_prefix. reflexivity.
  - exact IH.
Qed.

(** [int(numbers[0])] succeeds exactly on a run of at most 4300 digits. *)
Lemma int_of_digits_limit (run : string) :
  int_of_digits run
  = if PyStr.len run <=? int_max_str_digits
    then Ok (PyStr.int_digits 0 run) else Raise ValueError.
Proof.
  unfold int_of_digits.
  destruct (Z.ltb_spec int_max_str_digits (PyStr.len run)),
           (Z.leb_spec (PyStr.len run) int_max_str_digits); try reflexivity; lia.
Qed.

Lemma get_page_number_of_string (s : string) :
  _get_page_number (OtherPage s)
  = Ok (option_map (fun index => index + 1) (first_integer s)).
Proof.
  unfold _get_page_number, first_integer. rewrite <- findall_digits_first.
  destruct (Re.findall (Re.plus Re.digit) s) as [|n0 rest]; [reflexivity |].
  rewrite int_of_digits_limit.
  now destruct (PyStr.len n0 <=? int_max_str_digits).
Qed.

(** ** The builtin outline reader *)

(** [_get_page_number] against the wording of the claim; an infinite
    float is the one reference on which it raises. *)
Lemma get_page_number_resolves (p : page_ref) (found : option Z) :
  _get_page_number p = Ok found -> found = one_based_page p.
Proof.
  destruct p as [|n|[q| |neg]|[q| |neg]|s];
    try (cbn; unfold truncate; congruence).
  rewrite get_page_number_of_string. unfold one_based_page.
  cbn [zero_based_index]. congruence.
Qed.

Lemma get_page_number_raises_iff (p : page_ref) :
  (exists e, _get_page_number p = Raise e) <-> infinite_page p.
Proof.
  unfold infinite_page.
  split.
  - intros [e He].
    destruct p as [|n|[q| |neg]|[q| |neg]|s];
      try (cbn in He; discriminate); eauto.
    rewrite get_page_number_of_string in He. discriminate.
  - intros [neg [-> | ->]]; eexists; reflexivity.
Qed.

Lemma outline_item_induction (P : outline_item -> Prop) :
  (forall e, P (Entry e)) ->
  (forall items, Forall P items -> P (Nested items)) ->
  forall item, P item.
Proof.
  intros HE HN. fix IH 1. intros [e | items].
  - apply HE.
  - apply HN. induction items as [|i items IHitems]; constructor.
    + apply IH.
    + exact IHitems.
Qed.

Lemma process_outline_item_sound (item : outline_item) :
  forall (lvl : Z) (h : heading),
    In h (_process_outline_item item lvl) ->
    exists e l, In e (item_entries item)
              /\ _get_page_number (entry_page e) = Ok (page_number h)
              /\ h = outline_dict e l (page_number h).
Proof.
  induction item as [e | items IH] using outline_item_induction; intros lvl h Hin.
  - cbn in Hin. destruct (_get_page_number (entry_page e)) as [p|] eqn:Hp.
    + destruct Hin as [<- | []]. exists e, lvl. cbn. auto.
    + destruct Hin.
  - cbn in Hin |- *. revert Hin.
    induction IH as [|i items Hi _ IHitems]; intros Hin; [destruct Hin |].
    apply in_app_or in Hin. destruct Hin as [Hin | Hin].
    + destruct (Hi _ _ Hin) as (e & l & He & Hp & Hh).
      exists e, l. split; [apply in_or_app; auto | auto].
    + destruct (IHitems Hin) as (e & l & He & Hp & Hh).
      exists e, l. split; [apply in_or_app; auto | auto].
Qed.

Lemma process_outline_items_sound (items : list outline_item) (lvl : Z) (h : heading) :
  In h (_process_outline_items items lvl) ->
  exists e l, In e (concat (map item_entries items))
            /\ _get_page_number (entry_page e) = Ok (page_number h)
            /\ h = outline_dict e l (page_number h).
Proof.
  unfold _process_outline_items.
  induction items as [|i items IH]; cbn; [intros [] |].
  intros Hin. apply in_app_or in Hin. destruct Hin as [Hin | Hin].
  - destruct (process_outline_item_sound i lvl h Hin) as (e & l & He & Hp & Hh).
    exists e, l. split; [apply in_or_app; auto | auto].
  - destruct (IH Hin) as (e & l & He & Hp & Hh).
    exists e, l. split; [apply in_or_app; auto | auto].
Qed.

Lemma process_outline_item_complete (item : outline_item) :
  forall (lvl : Z) (e : outline_entry) (p : option Z),
    In e (item_entries item) ->
    _get_page_number (entry_page e) = Ok p ->
    exists l, In (outline_dict e l p) (_process_outline_item item lvl).
Proof.
  induction item as [e0 | items IH] using outline_item_induction;
    intros lvl e p Hin Hp.
  - destruct Hin as [<- | []]. exists lvl. cbn. rewrite Hp. now left.
  - cbn in Hin |- *. revert Hin.
    induction IH as [|i items Hi _ IHitems]; intros Hin; [destruct Hin |].
    apply in_app_or in Hin. destruct Hin as [Hin | Hin].
    + destruct (Hi (lvl + 1) e p Hin Hp) as [l Hl].
      exists l. apply in_or_app. now left.
    + destruct (IHitems Hin) as [l Hl].
      exists l. apply in_or_app. now right.
Qed.

Lemma process_outline_items_complete (items : list outline_item) (lvl : Z)
    (e : outline_entry) (p : option Z) :
  In e (concat (map item_entries items)) ->
  _get_page_number (entry_page e) = Ok p ->
  exists l, In (outline_dict e l p) (_process_outline_items items lvl).
Proof.
  unfold _process_outline_items.
  induction items as [|i items IH]; cbn; [intros [] |].
  intros Hin Hp. apply in_app_or in Hin. destruct Hin as [Hin | Hin].
  - destruct (process_outline_item_complete i lvl e p Hin Hp) as [l Hl].
    exists l. apply in_or_app. now left.
  - destruct (IH Hin Hp) as [l Hl]. exists l. apply in_or_app. now right.
Qed.

(** The claim, as it is written, fails on an entry whose page is the float
    [inf]: [int] raises [OverflowError], which [_get_page_number] does not
    catch, and [_process_outline_items] skips the entry: it leaves no
    heading at all, tagged or not.  And a string reference resolves through
    its digits only up to 4300 of them: 4300 digits 9 give the page number
    [10 ^ 4300], one more digit gives null. *)
Lemma infinite_page_entry_is_skipped :
  In endless_entry (outline_entries endless_reader)
  /\ _get_page_number (entry_page endless_entry) = Raise OverflowError
  /\ _extract_builtin_outline endless_reader = []
  /\ ~ (forall (r : pdf_reader) (e : outline_entry),
          In e (outline_entries r) ->
          exists h, In h (_extract_builtin_outline r)
                    /\ page_number h = one_based_page (entry_page e)
                    /\ source h = builtin_outline /\ confidence h = 0.95%Q)
  /\ _get_page_number (OtherPage (nines 4300)) = Ok (Some (10 ^ 4300))
  /\ _get_page_number (OtherPage (nines 4301)) = Ok None.
Proof.
  split; [now left | split; [reflexivity | split; [reflexivity | split]]].
  - intros Hall.
    destruct (Hall endless_reader endless_entry) as (h & [] & _). now left.
  - split; vm_compute; reflexivity.
Qed.

(** C7.  Every heading of the builtin outline reader is tagged
    [builtin_outline] with confidence 0.95 and comes from an entry of the
    outline, one whose page is not an infinite float, whose page reference
    it resolves as the claim says: the 0-based index of an integer-like,
    float-like or string reference plus one, and null when there is no
    index (a string gives the number of its first run of digits when the
    run has at most 4300 digits, and no index otherwise).  Conversely every
    entry of the outline whose reference is not an infinite float has such
    a heading.  The entry [{title: "Chapter 1", page: 2.0}] comes out with
    page number 3. *)
Theorem builtin_outline_pages_and_tags :
  (forall (r : pdf_reader) (h : heading),
     In h (_extract_builtin_outline r) ->
     source h = builtin_outline
     /\ confidence h = 0.95%Q
     /\ exists e, In e (outline_entries r)
                  /\ ~ infinite_page (entry_page e)
                  /\ page_number h = one_based_page (entry_page e))
  /\ (forall (r : pdf_reader) (e : outline_entry),
        In e (outline_entries r) -> ~ infinite_page (entry_page e) ->
        exists h, In h (_extract_builtin_outline r)
                  /\ page_number h = one_based_page (entry_page e)
                  /\ source h = builtin_outline /\ confidence h = 0.95%Q)
  /\ (forall n, one_based_page (IntPage n) = Some (n + 1))
  /\ (forall q, one_based_page (FloatPage (Finite q)) = Some (truncate q + 1))
  /\ (forall c s, PyChar.isdecimal c = true ->
        PyStr.len (String c (digits_prefix s)) <= int_max_str_digits ->
        one_based_page (OtherPage (String c s))
        = Some (PyStr.int_digits 0 (String c (digits_prefix s)) + 1))
  /\ (forall c s, PyChar.isdecimal c = true ->
        int_max_str_digits < PyStr.len (String c (digits_prefix s)) ->
        one_based_page (OtherPage (String c s)) = None)
  /\ one_based_page NoPage = None
  /\ one_based_page (FloatPage NaN) = None
  /\ _get_page_number (OtherPage "IndirectObject(12, 0)") = Ok (Some 13)
  /\ _get_page_number (OtherPage "cover") = Ok None
  /\ _extract_builtin_outline chapter_reader
     = [ {| title := "Chapter 1"; level := 0; page_number := Some 3;
            line_number := None; source := builtin_outline; confidence := 0.95;
            color := None; italic := None; bold := None |} ].
Proof.
  split; [| split; [| split; [| split; [| split; [| split; [| repeat split]]]]]].
  - intros r h Hin. unfold _extract_builtin_outline, outline_entries in *.
    destruct (outline r) as [[|i items]|]; try destruct Hin.
    apply in_map_iff in Hin. destruct Hin as (d & <- & Hd). cbn.
    split; [reflexivity | split; [reflexivity |]].
    destruct (process_outline_items_sound _ _ _ Hd) as (e & l & He & Hp & _).
    exists e. split; [exact He | split; [| now apply get_page_number_resolves]].
    intros Hinf. apply get_page_number_raises_iff in Hinf.
    destruct Hinf as [exc Hexc]. congruence.
  - intros r e He Hfinite. unfold _extract_builtin_outline, outline_entries in *.
    destruct (_get_page_number (entry_page e)) as [p|exc] eqn:Hp.
    + destruct (outline r) as [[|i items]|]; try destruct He.
      destruct (process_outline_items_complete (i :: items) 0 e p He Hp) as [l Hl].
      exists (set_confidence 0.95 (set_source builtin_outline (outline_dict e l p))).
      split; [apply in_map_iff; eauto |].
      cbn. split; [now apply get_page_number_resolves | auto].
    + exfalso. apply Hfinite, get_page_number_raises_iff. eauto.
  - intros n. reflexivity.
  - intros q. reflexivity.
  - intros c s Hc Hlen. unfold one_based_page. cbn [zero_based_index].
    unfold first_integer. cbn [first_digits digits_prefix]. rewrite !Hc.
    apply Z.leb_le in Hlen. now rewrite Hlen.
  - intros c s Hc Hlen. unfold one_based_page. cbn [zero_based_index].
    unfold first_integer. cbn [first_digits digits_prefix]. rewrite !Hc.
    apply Z.leb_gt in Hlen. now rewrite Hlen.
Qed.

Lemma builtin_outline_pages_and_tags_witness :
  source (set_confidence 0.95 (outline_dict chapter_entry 0 (Some 3))) = builtin_outline
  /\ confidence (set_confidence 0.95 (outline_dict chapter_entry 0 (Some 3))) = 0.95%Q
  /\ exists e, In e (outline_entries chapter_reader)
               /\ ~ infinite_page (entry_page e)
               /\ page_number (set_confidence 0.95 (outline_dict chapter_entry 0 (Some 3)))
                  = one_based_page (entry_page e).
Proof.
  apply (proj1 builtin_outline_pages_and_tags chapter_reader).
  vm_compute. left. reflexivity.
Defined.

(** ** Deduplication: what the output is made of *)

Lemma list_remove_incl (x y : heading) (l : list heading) :
  In y (list_remove x l) -> In y l.
Proof.
  induction l as [|z l IH]; cbn; [auto |].
  destruct (heading_eqb z x); cbn; intuition.
Qed.

Lemma list_remove_length (x : heading) (l : list heading) :
  (length (list_remove x l) <= length l)%nat.
Proof.
  induction l as [|z l IH]; cbn; [lia |].
  destruct (heading_eqb z x); cbn; lia.
Qed.

Lemma dedup_step_incl (unique_headings : list heading) (h x : heading) :
  In x (dedup_step unique_headings h) -> In x unique_headings \/ x = h.
Proof.
  unfold dedup_step.
  destruct (negb (PyStr.truthy (PyStr.strip (title h)))); [auto |].
  destruct (List.find _ unique_headings) as [existing|].
  - destruct (Qgtb (confidence h) (confidence existing)); [| auto].
    intros Hin. apply in_app_or in Hin. destruct Hin as [Hin | [<- | []]]; [| auto].
    left. eapply list_remove_incl, Hin.
  - intros Hin. apply in_app_or in Hin. destruct Hin as [Hin | [<- | []]]; auto.
Qed.

Lemma dedup_step_length (unique_headings : list heading) (h : heading) :
  (length (dedup_step unique_headings h) <= S (length unique_headings))%nat.
Proof.
  unfold dedup_step.
  destruct (negb (PyStr.truthy (PyStr.strip (title h)))); [lia |].
  destruct (List.find _ unique_headings) as [existing|].
  - destruct (Qgtb (confidence h) (confidence existing)); [| lia].
    rewrite length_app. cbn.
    pose proof (list_remove_length existing unique_headings). lia.
  - rewrite length_app. cbn. lia.
Qed.

Lemma dedup_fold_incl (headings unique_headings : list heading) (x : heading) :
  In x (fold_left dedup_step headings unique_headings) ->
  In x unique_headings \/ In x headings.
Proof.
  revert unique_headings.
  induction headings as [|h headings IH]; cbn; intros unique_headings Hin; [auto |].
  destruct (IH _ Hin) as [Hx | Hx]; [| auto].
  destruct (dedup_step_incl _ _ _ Hx); auto.
Qed.

Lemma dedup_fold_length (headings unique_headings : list heading) :
  (length (fold_left dedup_step headings unique_headings)
   <= length unique_headings + length headings)%nat.
Proof.
  revert unique_headings.
  induction headings as [|h headings IH]; cbn; intros unique_headings; [lia |].
  pose proof (IH (dedup_step unique_headings h)).
  pose proof (dedup_step_length unique_headings h). lia.
Qed.

(** C10.  Every element of the deduplicated list is an element of the
    input list, the very record with all its fields, and the output is no
    longer than the input. *)
Theorem deduplication_returns_input_records (headings : list heading) :
  (forall h, In h (_advanced_deduplication headings) -> In h headings)
  /\ (length (_advanced_deduplication headings) <= length headings)%nat.
Proof.
  unfold _advanced_deduplication. split.
  - intros h Hin. destruct (dedup_fold_incl _ _ _ Hin) as [[] | H]. exact H.
  - apply (dedup_fold_length headings []).
Qed.

Lemma deduplication_returns_input_records_witness :
  In (candidate "ALPHA BETA GAMMA DELTA EPSILON" 0 2 1 text_analysis 0.85)
     overlapping_candidates.
Proof.
  apply (proj1 (deduplication_returns_input_records overlapping_candidates)).
  vm_compute. right. left. reflexivity.
Defined.

(** ** Sorting keeps the elements *)

Lemma sort_insert_length {A : Type} (key : A -> list py_value) (x : A)
    (sorted sorted' : list A) :
  sort_insert key x sorted = Ok sorted' -> length sorted' = S (length sorted).
Proof.
  revert sorted'.
  induction sorted as [|y rest IH]; cbn; intros sorted' H.
  - injection H as <-. reflexivity.
  - destruct (tuple_lt (key x) (key y)) as [[|]|]; cbn in H; try discriminate.
    + injection H as <-. reflexivity.
    + destruct (sort_insert key x rest) as [rest'|]; cbn in H; try discriminate.
      injection H as <-. cbn. now rewrite (IH rest').
Qed.

Lemma sort_into_length {A : Type} (key : A -> list py_value)
    (l sorted sorted' : list A) :
  sort_into key sorted l = Ok sorted' ->
  length sorted' = (length sorted + length l)%nat.
Proof.
  revert sorted.
  induction l as [|x l IH]; cbn; intros sorted H.
  - injection H as <-. lia.
  - destruct (sort_insert key x sorted) as [s1|] eqn:Hs; cbn in H; try discriminate.
    apply sort_insert_length in Hs. rewrite (IH _ H). lia.
Qed.

Lemma py_sort_length {A : Type} (key : A -> list py_value) (l sorted : list A) :
  py_sort key l = Ok sorted -> length sorted = length l.
Proof. intros H. apply sort_into_length in H. exact H. Qed.

(** ** The report *)

(** C8.  In a report, each count of [extraction_methods] is the number of
    candidates its detector returned, before deduplication; the number of
    candidates left after deduplication is [total_headings]. *)
Theorem extraction_method_counts_are_raw
    (pdf_path : string) (f : pdf_file) (r : pdf_reader) (rep : report) :
  load_pdf f = Some r ->
  extract_all_headings pdf_path f = Ok (ReportResult rep) ->
  count_builtin_outline (methods rep) = length (_extract_builtin_outline r)
  /\ count_text_analysis (methods rep) = length (_extract_headings_from_text r)
  /\ count_font_analysis (methods rep) = length (_extract_headings_by_font r)
  /\ count_position_analysis (methods rep) = length (_extract_headings_by_position r)
  /\ total_headings rep = length (_advanced_deduplication (all_headings_of r)).
Proof.
  intros Hload H. unfold extract_all_headings in H. rewrite Hload in H.
  fold (all_headings_of r) in H.
  destruct (py_sort by_position _) as [final|] eqn:Hsort; cbn in H; try discriminate.
  destruct (_build_hierarchy final) as [forest|]; cbn in H; try discriminate.
  injection H as <-. cbn.
  repeat split. now apply py_sort_length in Hsort.
Qed.

Lemma extraction_method_counts_are_raw_witness :
  count_builtin_outline (methods summary_report)
    = length (_extract_builtin_outline summary_reader)
  /\ count_text_analysis (methods summary_report)
    = length (_extract_headings_from_text summary_reader)
  /\ count_font_analysis (methods summary_report)
    = length (_extract_headings_by_font summary_reader)
  /\ count_position_analysis (methods summary_report)
    = length (_extract_headings_by_position summary_reader)
  /\ total_headings summary_report
    = length (_advanced_deduplication (all_headings_of summary_reader)).
Proof.
  apply (extraction_method_counts_are_raw
           "docs/summary.pdf" (Parsed summary_reader) summary_reader summary_report);
    vm_compute; reflexivity.
Defined.

(** ** The line tests never raise *)

Lemma split_words_nonempty (s : string) :
  Forall (fun w => w <> EmptyString) (PyStr.split s).
Proof.
  induction s as [|c s IH]; simpl; [constructor |].
  destruct (PyChar.isspace c); [exact IH |].
  remember (PyStr.split s) as ws eqn:Hws.
  destruct s as [|c' s']; [repeat constructor; discriminate |].
  destruct (PyChar.isspace c'); [constructor; [discriminate | exact IH] |].
  destruct ws as [|w ws]; [repeat constructor; discriminate |].
  inversion IH; subst. constructor; [discriminate | assumption].
Qed.

Lemma first_of_nonempty (s : string) :
  s <> EmptyString -> exists c, PyStr.first s = Ok c.
Proof. destruct s as [|c s]; [congruence | intros _; exists c; reflexivity]. Qed.

(** [words[0][0]] is reached with at least two words, none of them
    empty. *)
Lemma is_title_case_never_raises (text : string) :
  exists b, _is_title_case text = Ok b.
Proof.
  unfold _is_title_case.
  pose proof (split_words_nonempty text) as Hwords.
  destruct (PyStr.split text) as [|w ws]; [cbn; eauto |].
  destruct (Z.of_nat (length (w :: ws)) <? 2); [eauto |].
  inversion Hwords as [|? ? Hw _]; subst. cbn [bind].
  destruct (first_of_nonempty w Hw) as [c ->]. cbn [bind].
  destruct (negb (PyChar.isupper c)); eauto.
Qed.

Lemma classify_line_never_raises (line : string) :
  line <> EmptyString -> exists found, classify_line line = Ok found.
Proof.
  intros Hline. unfold classify_line.
  destruct (Re.matches numbered_heading line); [eauto |].
  destruct (PyStr.isupper line && (3 <? PyStr.len line) && (PyStr.len line <? 100));
    [eauto |].
  destruct (is_title_case_never_raises line) as [b ->]. cbn [bind].
  destruct (b && _contains_heading_keywords line); [eauto |].
  destruct (Re.matches capitalized_words line && (word_count line <=? 8)); [eauto |].
  destruct (Re.matches section_prefix line); [eauto |].
  destruct (word_count line <=? 5); [| eauto].
  destruct (first_of_nonempty line Hline) as [c ->]. cbn [bind].
  destruct (PyChar.isupper c && negb (PyStr.endswith PyStr.DOT line)); eauto.
Qed.

Lemma len_nonempty (s : string) : 0 < PyStr.len s -> s <> EmptyString.
Proof. intros H ->. unfold PyStr.len in H. cbn in H. lia. Qed.

(** C9.  [_analyze_line_for_heading] returns, for every string, [None] or
    a candidate, and never raises: where it reads [line[0]] the collapsed
    line has at least 3 characters, and [words[0][0]] is read from the
    first of at least two non-empty words.  The tests of the font and of
    the position detector read [line[0]] on lines of more than 3
    characters only, and never raise either. *)
Theorem line_tests_never_raise :
  (forall (line : string) (page_num line_num : Z),
     exists r, _analyze_line_for_heading line page_num line_num = Ok r)
  /\ (forall (page_num : Z) (line : string) (line_num : Z),
        exists r, font_line page_num line line_num = Ok r)
  /\ (forall (page_num : Z) (line : string) (line_num : Z),
        exists r, position_line page_num line line_num = Ok r).
Proof.
  split; [| split].
  - intros line page_num line_num. unfold _analyze_line_for_heading.
    set (collapsed := Re.sub (Re.plus Re.ws) " " (PyStr.strip line)).
    destruct (PyStr.len collapsed <? 3) eqn:Hshort; [cbn; eauto |].
    destruct (200 <? PyStr.len collapsed); [cbn; eauto |]. cbn [orb].
    destruct (_is_regular_text collapsed); [eauto |].
    apply Z.ltb_ge in Hshort.
    destruct (classify_line_never_raises collapsed) as [found ->];
      [apply len_nonempty; lia |].
    cbn [bind]. destruct (Qgtb (fst found) 0.6); eauto.
  - intros page_num line line_num. unfold font_line.
    set (stripped := PyStr.strip line).
    destruct (3 <? PyStr.len stripped) eqn:Hlong; [| cbn; eauto].
    destruct (PyStr.len stripped <? 50); [| cbn; eauto]. cbn [andb].
    apply Z.ltb_lt in Hlong.
    destruct (PyStr.isupper stripped); [cbn; eauto |].
    destruct (first_of_nonempty stripped) as [c ->]; [apply len_nonempty; lia |].
    cbn [bind].
    destruct (PyChar.isupper c && (word_count stripped <=? 6)
              && negb (PyStr.endswith PyStr.DOT stripped)); eauto.
  - intros page_num line line_num. unfold position_line.
    set (stripped := PyStr.strip line).
    destruct (line_num <=? 3); [| cbn; eauto].
    destruct (3 <? PyStr.len stripped) eqn:Hlong; [| cbn; eauto].
    destruct (PyStr.len stripped <? 100); [| cbn; eauto]. cbn [andb].
    apply Z.ltb_lt in Hlong.
    destruct (first_of_nonempty stripped) as [c ->]; [apply len_nonempty; lia |].
    cbn [bind].
    destruct (PyChar.isupper c && negb (PyStr.endswith PyStr.DOT stripped)); eauto.
Qed.

(** ** Confidence of the candidates *)

Lemma scan_lines_Forall (P : heading -> Prop)
    (f : string -> Z -> result (option heading)) :
  (forall line n h, f line n = Ok (Some h) -> P h) ->
  forall lines n acc, Forall P acc -> Forall P (scan_lines f n lines acc).
Proof.
  intros Hf lines.
  induction lines as [|line rest IH]; cbn; intros n acc Hacc; [exact Hacc |].
  destruct (f line n) as [[h|]|] eqn:Hline; auto.
  apply IH. apply Forall_app. split; [exact Hacc |].
  constructor; [eapply Hf, Hline | constructor].
Qed.

Lemma scan_pages_Forall (P : heading -> Prop)
    (f : Z -> string -> list heading -> list heading) :
  (forall page_num text acc, Forall P acc -> Forall P (f page_num text acc)) ->
  forall ps page_num acc, Forall P acc -> Forall P (scan_pages f page_num ps acc).
Proof.
  intros Hf ps.
  induction ps as [|p rest IH]; cbn; intros page_num acc Hacc; [exact Hacc |].
  apply IH. destruct (extract_text p) as [text|]; [| exact Hacc].
  destruct (PyStr.truthy text); auto.
Qed.

Lemma Qgtb_lt (a b : Q) : Qgtb a b = true -> (b < a)%Q.
Proof.
  unfold Qgtb. intros H. apply negb_true_iff in H.
  apply Qnot_le_lt. intros Hle. apply Qle_bool_iff in Hle. congruence.
Qed.

(** The values [classify_line] can give to [confidence]. *)
Lemma classify_line_confidence (line : string) (found : Q * Z) :
  classify_line line = Ok found ->
  In (fst found) [0.9%Q; 0.85%Q; 0.8%Q; 0.75%Q; 0.7%Q; 0.0%Q].
Proof.
  unfold classify_line.
  repeat match goal with
         | |- context [if ?b then _ else _] => destruct b
         | |- context [bind ?m _] => destruct m; cbn [bind]
         end;
    intros H; try discriminate; injection H as <-; cbn; tauto.
Qed.

Lemma analyze_line_candidate (line : string) (page_num line_num : Z) (h : heading) :
  _analyze_line_for_heading line page_num line_num = Ok (Some h) ->
  source h = text_analysis /\ (0.6 < confidence h)%Q /\ (confidence h <= 0.9)%Q.
Proof.
  unfold _analyze_line_for_heading.
  set (collapsed := Re.sub (Re.plus Re.ws) " " (PyStr.strip line)).
  destruct (_ || _); [discriminate |].
  destruct (_is_regular_text collapsed); [discriminate |].
  destruct (classify_line collapsed) as [found|] eqn:Hfound; [| discriminate].
  cbn [bind]. destruct (Qgtb (fst found) 0.6) eqn:Hgt; [| discriminate].
  intros H. injection H as <-. cbn.
  split; [reflexivity | split; [now apply Qgtb_lt |]].
  apply classify_line_confidence in Hfound.
  cbn in Hfound.
  destruct Hfound as [<- | [<- | [<- | [<- | [<- | [<- | []]]]]]]; vm_compute; discriminate.
Qed.

Lemma text_line_candidate (page_num : Z) (line : string) (line_num : Z) (h : heading) :
  text_line page_num line line_num = Ok (Some h) ->
  source h = text_analysis /\ (0.6 < confidence h)%Q /\ (confidence h <= 0.9)%Q.
Proof.
  unfold text_line. destruct (_ || _); [discriminate |].
  apply analyze_line_candidate.
Qed.

Lemma font_line_candidate (page_num : Z) (line : string) (line_num : Z) (h : heading) :
  font_line page_num line line_num = Ok (Some h) ->
  source h = font_analysis /\ confidence h = 0.6%Q.
Proof.
  unfold font_line.
  repeat match goal with
         | |- context [if ?b then _ else _] => destruct b
         | |- context [bind ?m _] => destruct m; cbn [bind]
         end;
    intros H; try discriminate; injection H as <-; cbn; auto.
Qed.

Lemma position_line_candidate (page_num : Z) (line : string) (line_num : Z) (h : heading) :
  position_line page_num line line_num = Ok (Some h) ->
  source h = position_analysis /\ confidence h = 0.65%Q.
Proof.
  unfold position_line.
  destruct (_ && _); [| discriminate].
  destruct (PyStr.first _); cbn [bind]; [| discriminate].
  destruct (_ && _); [| discriminate].
  intros H. injection H as <-. cbn. auto.
Qed.

Lemma text_candidates (r : pdf_reader) :
  Forall (fun h => source h = text_analysis
                   /\ (0.6 < confidence h)%Q /\ (confidence h <= 0.9)%Q)
         (_extract_headings_from_text r).
Proof.
  unfold _extract_headings_from_text.
  apply scan_pages_Forall; [| constructor].
  intros page_num text acc Hacc.
  apply scan_lines_Forall; [| exact Hacc].
  intros line n h. apply text_line_candidate.
Qed.

Lemma font_candidates (r : pdf_reader) :
  Forall (fun h => source h = font_analysis /\ confidence h = 0.6%Q)
         (_extract_headings_by_font r).
Proof.
  unfold _extract_headings_by_font.
  apply scan_pages_Forall; [| constructor].
  intros page_num text acc Hacc.
  apply scan_lines_Forall; [| exact Hacc].
  intros line n h. apply font_line_candidate.
Qed.

Lemma position_candidates (r : pdf_reader) :
  Forall (fun h => source h = position_analysis /\ confidence h = 0.65%Q)
         (_extract_headings_by_position r).
Proof.
  unfold _extract_headings_by_position.
  apply scan_pages_Forall; [| constructor].
  intros page_num text acc Hacc.
  apply scan_lines_Forall; [| exact Hacc].
  intros line n h. apply position_line_candidate.
Qed.

Lemma builtin_candidates (r : pdf_reader) :
  Forall (fun h => source h = builtin_outline /\ confidence h = 0.95%Q)
         (_extract_builtin_outline r).
Proof.
  unfold _extract_builtin_outline.
  destruct (outline r) as [[|i items]|]; try constructor.
  apply List.Forall_forall. intros h Hin.
  apply in_map_iff in Hin. destruct Hin as (d & <- & _). cbn. auto.
Qed.

(** C2 (counterexample).  The font detector emits a candidate whose
    confidence is not above 0.6. *)
Lemma font_candidate_not_above_threshold :
  exists h, In h (_extract_headings_by_font summary_reader)
            /\ ~ (0.6 < confidence h)%Q.
Proof.
  exists (candidate "SUMMARY OF RESULTS" 1 1 1 font_analysis 0.6).
  split; [vm_compute; left; reflexivity | vm_compute; discriminate].
Qed.

(** C2 (amended).  Every candidate of the four detectors has a confidence
    of at least 0.6 and at most 1.0; it is exactly 0.6 for a candidate of
    the font detector and strictly above 0.6 for every other one. *)
Theorem detector_confidence_bounds (r : pdf_reader) (h : heading) :
  In h (all_headings_of r) ->
  (0.6 <= confidence h)%Q /\ (confidence h <= 1.0)%Q
  /\ (source h = font_analysis -> confidence h = 0.6%Q)
  /\ (source h <> font_analysis -> (0.6 < confidence h)%Q).
Proof.
  unfold all_headings_of. intros Hin.
  pose proof (builtin_candidates r) as Hb. pose proof (text_candidates r) as Ht.
  pose proof (font_candidates r) as Hf. pose proof (position_candidates r) as Hp.
  rewrite List.Forall_forall in Hb, Ht, Hf, Hp.
  repeat (apply in_app_or in Hin; destruct Hin as [Hin | Hin]).
  - destruct (Hb h Hin) as [Hs Hc]. rewrite Hs, Hc.
    repeat split; try discriminate; try (intros _; reflexivity).
  - destruct (Ht h Hin) as (Hs & Hlo & Hhi). rewrite Hs.
    repeat split; try discriminate; auto.
    + now apply Qlt_le_weak.
    + eapply Qle_trans; [exact Hhi | discriminate].
  - destruct (Hf h Hin) as [Hs Hc]. rewrite Hs, Hc.
    repeat split; try discriminate; congruence.
  - destruct (Hp h Hin) as [Hs Hc]. rewrite Hs, Hc.
    repeat split; try discriminate; try (intros _; reflexivity).
Qed.

Lemma detector_confidence_bounds_witness :
  let h := candidate "SUMMARY OF RESULTS" 0 1 1 position_analysis 0.65 in
  (0.6 <= confidence h)%Q /\ (confidence h <= 1.0)%Q
  /\ (source h = font_analysis -> confidence h = 0.6%Q)
  /\ (source h <> font_analysis -> (0.6 < confidence h)%Q).
Proof.
  apply (detector_confidence_bounds summary_reader).
  vm_compute. right. left. reflexivity.
Defined.

(** ** The hierarchy builder *)

Lemma pop_stack_incl (lvl : Z) (stack : list (nat * heading)) (x : nat * heading) :
  In x (pop_stack lvl stack) -> In x stack.
Proof.
  induction stack as [|top below IH]; cbn; [auto |].
  destruct (level (snd top) >=? lvl); cbn; auto.
Qed.

(** After the [while] loop the top of the stack, if any, has a level
    strictly below the heading's. *)
Lemma pop_stack_top (lvl : Z) (stack rest : list (nat * heading))
    (parent : nat) (hp : heading) :
  pop_stack lvl stack = (parent, hp) :: rest -> level hp < lvl.
Proof.
  induction stack as [|top below IH]; cbn; [discriminate |].
  destruct (level (snd top) >=? lvl) eqn:Hge; [exact IH |].
  intros H. injection H as -> _. cbn in Hge.
  rewrite Z.geb_leb in Hge. now apply Z.leb_gt in Hge.
Qed.

Lemma place_ok (hs : list heading) (k : nat) (st : builder) (h : heading) :
  builder_ok hs k st -> hs !! k = Some h -> builder_ok hs (S k) (place st k h).
Proof.
  intros [Hstack Hchildren] Hk. unfold place.
  destruct (pop_stack (level h) (stack st)) as [|[parent hp] rest] eqn:Hpop.
  - constructor; cbn.
    + intros i h' [H | []]. injection H as <- <-. split; [lia | exact Hk].
    + exact Hchildren.
  - assert (Hparent : In (parent, hp) (stack st)).
    { eapply pop_stack_incl. rewrite Hpop. left. reflexivity. }
    constructor; cbn.
    + intros i h' [H | H].
      * injection H as <- <-. split; [lia | exact Hk].
      * destruct (Hstack i h') as [Hi Hh]; [| split; [lia | exact Hh]].
        eapply pop_stack_incl. rewrite Hpop. exact H.
    + intros p cs c Hp Hc.
      destruct (decide (p = parent)) as [-> | Hne].
      * rewrite list_lookup_alter_eq in Hp.
        destruct (children st !! parent) as [cs0|] eqn:Hcs0; [| discriminate].
        cbn in Hp. injection Hp as <-.
        apply in_app_or in Hc. destruct Hc as [Hc | [<- | []]].
        -- eapply Hchildren; eassumption.
        -- destruct (Hstack _ _ Hparent) as [Hlt Hhp].
           split; [exact Hlt |]. exists hp, h.
           split; [exact Hhp | split; [exact Hk |]].
           eapply pop_stack_top, Hpop.
      * rewrite list_lookup_alter_ne in Hp by congruence.
        eapply Hchildren; eassumption.
Qed.

Lemma place_all_ok (hs rest : list heading) :
  forall (k : nat) (st : builder),
    builder_ok hs k st ->
    (forall j h, rest !! j = Some h -> hs !! (k + j)%nat = Some h) ->
    builder_ok hs (k + length rest) (place_all st k rest).
Proof.
  induction rest as [|h rest IH]; cbn; intros k st Hst Hrest.
  - now rewrite Nat.add_0_r.
  - replace (k + S (length rest))%nat with (S k + length rest)%nat by lia.
    apply IH.
    + apply place_ok; [exact Hst |].
      specialize (Hrest 0%nat h eq_refl). now rewrite Nat.add_0_r in Hrest.
    + intros j h' Hj. specialize (Hrest (S j) h' Hj).
      now replace (S k + j)%nat with (k + S j)%nat by lia.
Qed.

Lemma run_builder_ok (sorted : list heading) :
  builder_ok sorted (length sorted) (run_builder sorted).
Proof.
  unfold run_builder.
  apply (place_all_ok sorted sorted 0%nat).
  - constructor; cbn.
    + intros i h [].
    + intros p cs c Hp Hc. apply lookup_replicate in Hp. destruct Hp as [-> _].
      destruct Hc.
  - intros j h Hj. exact Hj.
Qed.

(** The value at position [j] of [reify] carries the fields of the dict
    at position [j]. *)
Lemma reify_lookup (hs : list heading) :
  forall (ch : list (list nat)) (base j : nat) (n : node),
    reify hs ch base !! j = Some n -> hs !! j = Some (node_heading n).
Proof.
  induction hs as [|h hs IH]; intros ch base j n; [cbn; discriminate |].
  destruct ch as [|cs ch]; [cbn; discriminate |].
  cbn [reify]. destruct j as [|j]; cbn.
  - intros H. injection H as <-. reflexivity.
  - apply IH.
Qed.

Lemma reify_levels_increase (all : list heading) (hs : list heading) :
  forall (ch : list (list nat)) (base : nat),
    (forall j h, hs !! j = Some h -> all !! (base + j)%nat = Some h) ->
    (forall j cs c, ch !! j = Some cs -> In c cs -> linked all (base + j) c) ->
    Forall levels_increase (reify hs ch base).
Proof.
  induction hs as [|h hs IH]; intros ch base Hhs Hch; [constructor |].
  destruct ch as [|cs ch]; [constructor |].
  cbn [reify].
  assert (Hlater : Forall levels_increase (reify hs ch (S base))).
  { apply IH.
    - intros j h' Hj. specialize (Hhs (S j) h' Hj).
      now replace (S base + j)%nat with (base + S j)%nat by lia.
    - intros j cs' c Hj Hc. specialize (Hch (S j) cs' c Hj Hc).
      now replace (S base + j)%nat with (base + S j)%nat by lia. }
  constructor; [| exact Hlater].
  constructor.
  - apply List.Forall_forall. intros n Hn.
    apply list_elem_of_In, list_elem_of_omap in Hn.
    destruct Hn as (c & Hc & Hlook). apply list_elem_of_In in Hc.
    destruct (Hch 0%nat cs c eq_refl Hc) as (Hlt & hp & hc & Hp & Hc' & Hlevel).
    rewrite Nat.add_0_r in Hlt, Hp.
    pose proof (Hhs 0%nat h eq_refl) as Hbase. rewrite Nat.add_0_r in Hbase.
    rewrite Hbase in Hp. injection Hp as <-.
    apply reify_lookup in Hlook.
    specialize (Hhs (S (c - S base)) _ Hlook).
    replace (base + S (c - S base))%nat with c in Hhs by lia.
    rewrite Hhs in Hc'. injection Hc' as <-. exact Hlevel.
  - apply List.Forall_forall. intros n Hn.
    apply list_elem_of_In, list_elem_of_omap in Hn.
    destruct Hn as (c & _ & Hlook).
    rewrite List.Forall_forall in Hlater. apply Hlater.
    apply list_elem_of_In. eapply list_elem_of_lookup_2, Hlook.
Qed.

Lemma forest_levels_increase (sorted : list heading) :
  Forall levels_increase (forest_of sorted (run_builder sorted)).
Proof.
  pose proof (run_builder_ok sorted) as [_ Hchildren].
  assert (Hnodes : Forall levels_increase
                     (reify sorted (children (run_builder sorted)) 0)).
  { apply (reify_levels_increase sorted); [intros j h Hj; exact Hj |].
    intros j cs c Hj Hc. cbn. eapply Hchildren; eassumption. }
  unfold forest_of. apply List.Forall_forall. intros n Hn.
  apply list_elem_of_In, list_elem_of_omap in Hn. destruct Hn as (i & _ & Hlook).
  rewrite List.Forall_forall in Hnodes. apply Hnodes.
  apply list_elem_of_In. eapply list_elem_of_lookup_2, Hlook.
Qed.

(** Along a path the levels rise from step to step, so every descendant
    lies above its ancestor. *)
Lemma descendant_level (n d : node) :
  descendant n d -> levels_increase n ->
  level (node_heading n) < level (node_heading d) /\ levels_increase d.
Proof.
  induction 1 as [n c Hc | n c d Hc _ IH]; intros Hn.
  - destruct Hn as [h cs Hlevels Hbelow]. cbn in *.
    rewrite List.Forall_forall in Hlevels, Hbelow. auto.
  - destruct Hn as [h cs Hlevels Hbelow]. cbn in *.
    rewrite List.Forall_forall in Hlevels, Hbelow.
    destruct (IH (Hbelow c Hc)) as [Hlt Hd].
    split; [| exact Hd]. specialize (Hlevels c Hc). lia.
Qed.

(** C6.  In the forest [_build_hierarchy] returns, every child has a level
    strictly greater than its parent's, at every depth; so along every
    path from a root the levels are strictly increasing, and every
    descendant of a root has a greater level than the root. *)
Theorem hierarchy_levels_strictly_increase
    (headings : list heading) (forest : list node) :
  _build_hierarchy headings = Ok forest ->
  Forall levels_increase forest
  /\ forall root d, In root forest -> descendant root d ->
       level (node_heading root) < level (node_heading d).
Proof.
  unfold _build_hierarchy. intros H.
  destruct (py_sort level_key headings) as [sorted|]; cbn in H; [| discriminate].
  injection H as <-.
  pose proof (forest_levels_increase sorted) as Hforest.
  split; [exact Hforest |].
  intros root d Hroot Hd. rewrite List.Forall_forall in Hforest.
  apply (descendant_level root d Hd (Hforest root Hroot)).
Qed.

Lemma hierarchy_levels_strictly_increase_witness :
  Forall levels_increase sample_forest
  /\ forall root d, In root sample_forest -> descendant root d ->
       level (node_heading root) < level (node_heading d).
Proof.
  apply (hierarchy_levels_strictly_increase sample_headings sample_forest).
  vm_compute. reflexivity.
Defined.

(** ** The normalizer leaves one line

    After the first substitution of [_clean_extracted_text] the only
    whitespace left is the space, so the other two substitutions find
    nothing to replace. *)

Lemma longest_ws_star (s : string) : exists n, Re.longest (Re.Star Re.ws) s = Some n.
Proof.
  destruct s as [|c s]; cbn; [eauto |].
  destruct (Re.longest _ s); eauto.
Qed.

Lemma longest_ws_run (c : ascii) (s : string) :
  PyChar.isspace c = true ->
  exists k, Re.longest (Re.plus Re.ws) (String c s) = Some (S k).
Proof.
  intros Hc. unfold Re.plus. simpl. rewrite Hc. simpl.
  destruct (longest_ws_star s) as [n ->]. eauto.
Qed.

Lemma longest_ws_none (c : ascii) (s : string) :
  PyChar.isspace c = false -> Re.longest (Re.plus Re.ws) (String c s) = None.
Proof.
  intros Hc. unfold Re.plus. simpl. rewrite Hc. simpl.
  now rewrite longest_Never.
Qed.

Lemma collapse_leaves_spaces_only (s : string) :
  forall skip,
    PyStr.existsb other_whitespace (Re.sub_from (Re.plus Re.ws) " " skip s) = false.
Proof.
  induction s as [|c s IH]; intros skip; [reflexivity |].
  cbn [Re.sub_from]. destruct skip as [|k]; [| apply IH].
  destruct (PyChar.isspace c) eqn:Hc.
  - destruct (longest_ws_run c s Hc) as [k ->]. cbn. apply IH.
  - rewrite (longest_ws_none c s Hc). cbn [PyStr.existsb].
    rewrite IH. unfold other_whitespace. now rewrite Hc.
Qed.

Lemma existsb_weaken (p q : ascii -> bool) (s : string) :
  (forall c, q c = true -> p c = true) ->
  PyStr.existsb p s = false -> PyStr.existsb q s = false.
Proof.
  intros Hpq. induction s as [|c s IH]; cbn; [auto |].
  intros H. apply orb_false_iff in H. destruct H as [Hc Hs].
  rewrite (IH Hs), orb_false_r.
  destruct (q c) eqn:Hq; [| reflexivity]. apply Hpq in Hq. congruence.
Qed.

(** A pattern that cannot start at any character of the text leaves the
    text as it is. *)
Lemma sub_without_match (r : Re.regex) (repl : string) (p : ascii -> bool) :
  (forall c s, p c = false -> Re.longest r (String c s) = None) ->
  forall t, PyStr.existsb p t = false -> Re.sub r repl t = t.
Proof.
  intros Hr t. unfold Re.sub.
  induction t as [|c t IH]; [reflexivity |].
  cbn [PyStr.existsb Re.sub_from]. intros H.
  apply orb_false_iff in H. destruct H as [Hc Ht].
  rewrite (Hr c t Hc), (IH Ht). reflexivity.
Qed.

Lemma lstrip_keeps_absence (p : ascii -> bool) (s : string) :
  PyStr.existsb p s = false -> PyStr.existsb p (PyStr.lstrip s) = false.
Proof.
  induction s as [|c s IH]; cbn; [auto |].
  intros H. destruct (PyChar.isspace c); [| exact H].
  apply orb_false_iff in H. now apply IH.
Qed.

Lemma rstrip_keeps_absence (p : ascii -> bool) (s : string) :
  PyStr.existsb p s = false -> PyStr.existsb p (PyStr.rstrip s) = false.
Proof.
  induction s as [|c s IH]; cbn; [auto |].
  intros H. apply orb_false_iff in H. destruct H as [Hc Hs].
  specialize (IH Hs).
  destruct (PyStr.rstrip s) as [|d t].
  - destruct (PyChar.isspace c); cbn; [reflexivity | now rewrite Hc].
  - cbn [PyStr.existsb] in *. now rewrite Hc.
Qed.

Lemma split_on_absent (sep : ascii) (s : string) :
  PyStr.existsb (Ascii.eqb sep) s = false -> PyStr.split_on sep s = [s].
Proof.
  induction s as [|c s IH]; cbn; [reflexivity |].
  intros H. apply orb_false_iff in H. destruct H as [Hc Hs].
  rewrite Ascii.eqb_sym, Hc, (IH Hs). reflexivity.
Qed.

Lemma longest_chr_none (a c : ascii) (s : string) :
  Ascii.eqb a c = false -> Re.longest (Re.chr a) (String c s) = None.
Proof.
  intros H. unfold Re.chr. cbn [Re.longest Re.deriv Re.nullable].
  rewrite H. now rewrite longest_Never.
Qed.

Lemma longest_chr_cat_none (a c : ascii) (r : Re.regex) (s : string) :
  Ascii.eqb a c = false -> Re.longest (Re.Cat (Re.chr a) r) (String c s) = None.
Proof.
  intros H. unfold Re.chr. cbn [Re.longest Re.deriv Re.nullable andb].
  rewrite H. cbn [Re.cat Re.or]. now rewrite longest_Never.
Qed.

Lemma clean_is_collapse_and_strip (text : string) :
  _clean_extracted_text text = PyStr.strip (Re.sub (Re.plus Re.ws) " " text).
Proof.
  unfold _clean_extracted_text.
  pose proof (collapse_leaves_spaces_only text 0) as Hclean.
  fold (Re.sub (Re.plus Re.ws) " " text) in Hclean.
  set (collapsed := Re.sub (Re.plus Re.ws) " " text) in *.
  assert (Hff : PyStr.existsb (Ascii.eqb PyStr.FF) collapsed = false).
  { apply (existsb_weaken other_whitespace); [| exact Hclean].
    intros c Hc. apply Ascii.eqb_eq in Hc. subst c. reflexivity. }
  assert (Hlf : PyStr.existsb (Ascii.eqb PyStr.LF) collapsed = false).
  { apply (existsb_weaken other_whitespace); [| exact Hclean].
    intros c Hc. apply Ascii.eqb_eq in Hc. subst c. reflexivity. }
  rewrite (sub_without_match (Re.chr PyStr.FF) _ (Ascii.eqb PyStr.FF));
    [| | exact Hff].
  - rewrite (sub_without_match _ _ (Ascii.eqb PyStr.LF)); [reflexivity | | exact Hlf].
    intros c s Hc. now apply longest_chr_cat_none.
  - intros c s Hc. now apply longest_chr_none.
Qed.

Lemma clean_text_has_only_spaces (text : string) :
  PyStr.existsb other_whitespace (_clean_extracted_text text) = false.
Proof.
  rewrite clean_is_collapse_and_strip. unfold PyStr.strip.
  apply rstrip_keeps_absence, lstrip_keeps_absence.
  apply (collapse_leaves_spaces_only text 0).
Qed.

Lemma clean_text_has_no_newline (text : string) :
  PyStr.existsb (Ascii.eqb PyStr.LF) (_clean_extracted_text text) = false.
Proof.
  apply (existsb_weaken other_whitespace); [| apply clean_text_has_only_spaces].
  intros c Hc. apply Ascii.eqb_eq in Hc. subst c. reflexivity.
Qed.

Lemma clean_text_single_line (text : string) :
  PyStr.split_on PyStr.LF (_clean_extracted_text text) = [_clean_extracted_text text].
Proof. apply split_on_absent, clean_text_has_no_newline. Qed.

(** Whatever the page text, the cleaned text contains neither a newline
    nor a form feed, and splitting it on newlines gives back the whole
    text as its single line. *)
Lemma clean_text_is_one_line (text : string) :
  PyStr.existsb (Ascii.eqb PyStr.LF) (_clean_extracted_text text) = false
  /\ PyStr.existsb (Ascii.eqb PyStr.FF) (_clean_extracted_text text) = false
  /\ PyStr.split_on PyStr.LF (_clean_extracted_text text) = [_clean_extracted_text text].
Proof.
  split; [apply clean_text_has_no_newline | split; [| apply clean_text_single_line]].
  apply (existsb_weaken other_whitespace); [| apply clean_text_has_only_spaces].
  intros c Hc. apply Ascii.eqb_eq in Hc. subst c. reflexivity.
Qed.

(** ** When the sorts return

    A comparison of sort keys raises only between [None] and an integer,
    so the two sorts return as soon as every page number is known. *)

Lemma sort_insert_returns {A : Type} (key : A -> list py_value) (x : A)
    (sorted : list A) :
  (forall y, In y sorted -> comparable (key x) (key y)) ->
  exists sorted', sort_insert key x sorted = Ok sorted'
                  /\ forall z, In z sorted' <-> z = x \/ In z sorted.
Proof.
  induction sorted as [|y rest IH]; intros Hcmp.
  - exists [x]. split; [reflexivity |]. intros z. cbn. intuition congruence.
  - cbn [sort_insert].
    destruct (Hcmp y (or_introl eq_refl)) as [b ->]. cbn [bind].
    destruct b.
    + eexists. split; [reflexivity |]. intros z. cbn. intuition congruence.
    + destruct IH as (rest' & -> & Hrest); [intros z Hz; apply Hcmp; now right |].
      cbn [bind]. eexists. split; [reflexivity |].
      intros z. cbn. rewrite Hrest. intuition congruence.
Qed.

Lemma sort_into_returns {A : Type} (key : A -> list py_value) (l : list A) :
  forall sorted,
    (forall x y, In x (sorted ++ l) -> In y (sorted ++ l) ->
                 comparable (key x) (key y)) ->
    exists sorted', sort_into key sorted l = Ok sorted'
                    /\ forall z, In z sorted' <-> In z (sorted ++ l).
Proof.
  induction l as [|x l IH]; intros sorted Hcmp.
  - exists sorted. split; [reflexivity |]. intros z. now rewrite app_nil_r.
  - cbn [sort_into].
    destruct (sort_insert_returns key x sorted) as (s1 & -> & Hs1).
    { intros y Hy. apply Hcmp; apply in_or_app; cbn; auto. }
    cbn [bind].
    assert (Hsame : forall z, In z (s1 ++ l) <-> In z (sorted ++ x :: l)).
    { intros z. rewrite !in_app_iff, Hs1. cbn. intuition congruence. }
    destruct (IH s1) as (s2 & -> & Hs2).
    { intros a b Ha Hb. apply Hcmp; now apply Hsame. }
    exists s2. split; [reflexivity |].
    intros z. rewrite Hs2. apply Hsame.
Qed.

Lemma py_sort_returns {A : Type} (key : A -> list py_value) (l : list A) :
  (forall x y, In x l -> In y l -> comparable (key x) (key y)) ->
  exists sorted, py_sort key l = Ok sorted /\ forall z, In z sorted <-> In z l.
Proof. intros Hcmp. apply (sort_into_returns key l []). exact Hcmp. Qed.

Lemma level_keys_comparable (x y : heading) :
  has_page x -> has_page y -> comparable (level_key x) (level_key y).
Proof.
  unfold has_page, comparable, level_key, page_key, line_key. intros Hx Hy.
  destruct (page_number x) as [px|]; [| congruence].
  destruct (page_number y) as [py|]; [| congruence].
  cbn. destruct (level x =? level y); [| eauto].
  destruct (px =? py); [| eauto].
  destruct (line_number x), (line_number y); cbn;
    try match goal with |- context [if ?b then _ else _] => destruct b end; eauto.
Qed.

Lemma position_keys_comparable (x y : heading) :
  has_page x -> has_page y -> comparable (by_position x) (by_position y).
Proof.
  unfold has_page, comparable, by_position, page_key, line_key. intros Hx Hy.
  destruct (page_number x) as [px|]; [| congruence].
  destruct (page_number y) as [py|]; [| congruence].
  cbn. destruct (px =? py); [| eauto].
  destruct (line_number x), (line_number y); cbn;
    try match goal with |- context [if ?b then _ else _] => destruct b end; eauto.
Qed.

(** [_build_hierarchy] returns a forest whenever no page number of its
    input is [None]. *)
Lemma build_hierarchy_returns (headings : list heading) :
  Forall has_page headings -> exists forest, _build_hierarchy headings = Ok forest.
Proof.
  intros Hpages. rewrite List.Forall_forall in Hpages. unfold _build_hierarchy.
  destruct (py_sort_returns level_key headings) as (sorted & -> & _).
  { intros x y Hx Hy. apply level_keys_comparable; auto. }
  cbn [bind]. eauto.
Qed.

Lemma text_candidates_have_page (r : pdf_reader) :
  Forall has_page (_extract_headings_from_text r).
Proof.
  unfold _extract_headings_from_text.
  apply scan_pages_Forall; [| constructor].
  intros page_num text acc Hacc. apply scan_lines_Forall; [| exact Hacc].
  intros line n h. unfold text_line, _analyze_line_for_heading.
  repeat match goal with
         | |- context [if ?b then _ else _] => destruct b
         | |- context [bind ?m _] => destruct m; cbn [bind]
         end;
    intros H; try discriminate; injection H as <-; discriminate.
Qed.

Lemma font_candidates_have_page (r : pdf_reader) :
  Forall has_page (_extract_headings_by_font r).
Proof.
  unfold _extract_headings_by_font.
  apply scan_pages_Forall; [| constructor].
  intros page_num text acc Hacc. apply scan_lines_Forall; [| exact Hacc].
  intros line n h. unfold font_line.
  repeat match goal with
         | |- context [if ?b then _ else _] => destruct b
         | |- context [bind ?m _] => destruct m; cbn [bind]
         end;
    intros H; try discriminate; injection H as <-; discriminate.
Qed.

Lemma position_candidates_have_page (r : pdf_reader) :
  Forall has_page (_extract_headings_by_position r).
Proof.
  unfold _extract_headings_by_position.
  apply scan_pages_Forall; [| constructor].
  intros page_num text acc Hacc. apply scan_lines_Forall; [| exact Hacc].
  intros line n h. unfold position_line.
  destruct (_ && _); [| discriminate].
  destruct (PyStr.first _); cbn [bind]; [| discriminate].
  destruct (_ && _); [| discriminate].
  intros H. injection H as <-. discriminate.
Qed.

(** A document that loads and whose outline entries all have a page (in
    particular a document without outline) gets a report. *)
Lemma extract_all_headings_returns (pdf_path : string) (f : pdf_file) (r : pdf_reader) :
  load_pdf f = Some r ->
  Forall has_page (_extract_builtin_outline r) ->
  exists rep, extract_all_headings pdf_path f = Ok (ReportResult rep).
Proof.
  intros Hload Hbuiltin. unfold extract_all_headings. rewrite Hload.
  fold (all_headings_of r).
  assert (Hall : Forall has_page (all_headings_of r)).
  { unfold all_headings_of. repeat (apply Forall_app; split); auto.
    - apply text_candidates_have_page.
    - apply font_candidates_have_page.
    - apply position_candidates_have_page. }
  rewrite List.Forall_forall in Hall.
  assert (Hfinal : forall h, In h (_advanced_deduplication (all_headings_of r)) -> has_page h).
  { intros h Hh. apply Hall. unfold _advanced_deduplication in Hh.
    destruct (dedup_fold_incl _ _ _ Hh) as [[] | Hin]. exact Hin. }
  destruct (py_sort_returns by_position (_advanced_deduplication (all_headings_of r)))
    as (final & -> & Hsame).
  { intros x y Hx Hy. apply position_keys_comparable; auto. }
  cbn [bind].
  destruct (build_hierarchy_returns final) as [forest ->].
  { apply List.Forall_forall. intros h Hh. apply Hfinal, Hsame, Hh. }
  cbn [bind]. eauto.
Qed.

(** An outline entry without a page next to a candidate with one makes the
    first sort compare [None] with an integer: the sort raises, and the run
    fails. *)
Lemma pageless_outline_entry_fails :
  let r := {| pages := [ {| extract_text := Ok "SUMMARY OF RESULTS" |} ];
              outline := Ok [Entry {| entry_title := Some (Some "Cover");
                                      entry_str := "Cover"; entry_page := NoPage;
                                      entry_color := None; entry_italic := None;
                                      entry_bold := None |}] |} in
  extract_all_headings "summary.pdf" (Parsed r) = Raise TypeError
  /\ exit_status (main [script; "summary.pdf"]
                       {| document := Parsed r; output := Writable |}) = 1.
Proof. split; vm_compute; reflexivity. Qed.

(** ** Nothing is lost between the list and the forest *)

Lemma concat_alter_append (ch : list (list nat)) (p k : nat) :
  (p < length ch)%nat ->
  Permutation (concat (alter (fun cs => cs ++ [k]) p ch)) (k :: concat ch).
Proof.
  revert p. induction ch as [|cs ch IH]; intros p Hp; cbn in Hp; [lia |].
  destruct p as [|p]; cbn.
  - rewrite <- app_assoc. cbn.
    rewrite <- Permutation_middle. reflexivity.
  - rewrite (IH p) by lia. cbn.
    rewrite <- Permutation_middle. reflexivity.
Qed.

Lemma place_complete (hs : list heading) (k : nat) (st : builder) (h : heading) :
  (k <= length hs)%nat ->
  builder_ok hs k st -> builder_complete hs k st ->
  builder_complete hs (S k) (place st k h).
Proof.
  intros Hk [Hstack _] [Hlen Hperm]. unfold place.
  destruct (pop_stack (level h) (stack st)) as [|[parent hp] rest] eqn:Hpop.
  - constructor; cbn [hierarchy children]; [exact Hlen |].
    rewrite seq_S. cbn [Nat.add].
    rewrite <- Hperm, <- !app_assoc.
    apply Permutation_app_head. apply Permutation_app_comm.
  - assert (Hparent : In (parent, hp) (stack st)).
    { eapply pop_stack_incl. rewrite Hpop. left. reflexivity. }
    destruct (Hstack _ _ Hparent) as [Hlt _].
    constructor; cbn [hierarchy children]; [now rewrite length_alter |].
    rewrite seq_S. cbn [Nat.add].
    rewrite concat_alter_append by lia.
    rewrite <- Hperm, <- Permutation_middle.
    apply Permutation_cons_append.
Qed.

Lemma place_all_complete (hs rest : list heading) :
  forall (k : nat) (st : builder),
    builder_ok hs k st -> builder_complete hs k st ->
    (forall j h, rest !! j = Some h -> hs !! (k + j)%nat = Some h) ->
    builder_complete hs (k + length rest) (place_all st k rest).
Proof.
  induction rest as [|h rest IH]; cbn; intros k st Hok Hst Hrest.
  - now rewrite Nat.add_0_r.
  - replace (k + S (length rest))%nat with (S k + length rest)%nat by lia.
    assert (Hk : hs !! k = Some h).
    { specialize (Hrest 0%nat h eq_refl). now rewrite Nat.add_0_r in Hrest. }
    apply IH.
    + now apply place_ok.
    + apply place_complete; auto. apply lookup_lt_Some in Hk. lia.
    + intros j h' Hj. specialize (Hrest (S j) h' Hj).
      now replace (S k + j)%nat with (k + S j)%nat by lia.
Qed.

Lemma run_builder_complete (sorted : list heading) :
  builder_complete sorted (length sorted) (run_builder sorted).
Proof.
  unfold run_builder.
  apply (place_all_complete sorted sorted 0%nat).
  - constructor; cbn.
    + intros i h [].
    + intros p cs c Hp Hc. apply lookup_replicate in Hp. destruct Hp as [-> _].
      destruct Hc.
  - constructor; cbn; [apply length_replicate |].
    induction (length sorted) as [|n IHn]; cbn; [constructor | exact IHn].
  - intros j h Hj. exact Hj.
Qed.

Lemma reify_length (hs : list heading) :
  forall (ch : list (list nat)) (base : nat),
    length ch = length hs -> length (reify hs ch base) = length hs.
Proof.
  induction hs as [|h hs IH]; intros [|cs ch] base Hlen; cbn in *; try lia.
  rewrite IH; lia.
Qed.

Lemma omap_all_found {A B : Type} (f : A -> option B) (l : list A) :
  (forall x, In x l -> is_Some (f x)) -> length (omap f l) = length l.
Proof.
  induction l as [|x l IH]; cbn; intros H; [reflexivity |].
  destruct (H x (or_introl eq_refl)) as [y ->]. cbn.
  rewrite IH; [reflexivity |]. intros z Hz. apply H. now right.
Qed.

(** Every position in a ['children'] list is found among the values built
    for the later dicts: the value of a dict has as many children as
    positions were appended to it. *)
Lemma reify_keeps_children (all : list heading) (hs : list heading) :
  forall (ch : list (list nat)) (base : nat),
    length ch = length hs ->
    (base + length hs = length all)%nat ->
    (forall j cs c, ch !! j = Some cs -> In c cs -> linked all (base + j) c) ->
    forall j n cs,
      reify hs ch base !! j = Some n -> ch !! j = Some cs ->
      length (node_children n) = length cs.
Proof.
  induction hs as [|h hs IH]; intros [|cs0 ch] base Hlen Hall Hch j n cs Hn Hcs;
    cbn in Hlen; try discriminate; try lia.
  cbn [reify] in Hn. destruct j as [|j]; cbn in Hn, Hcs.
  - injection Hn as <-. injection Hcs as <-. cbn.
    apply omap_all_found. intros c Hc.
    destruct (Hch 0%nat cs0 c eq_refl Hc) as (Hlt & hp & hc & _ & Hc' & _).
    apply lookup_lt_is_Some_2. rewrite reify_length by lia.
    apply lookup_lt_Some in Hc'. cbn in Hall. lia.
  - apply (IH ch (S base)) with (j := j); auto; try lia.
    + cbn in Hall. lia.
    + intros j' cs' c Hj' Hc. specialize (Hch (S j') cs' c Hj' Hc).
      now replace (S base + j')%nat with (base + S j')%nat by lia.
Qed.

(** The forest has one tree per top-level position, every nested value has
    all the children appended to its dict, and every dict of the list was
    appended exactly once, at the top level or to one other dict. *)
Lemma forest_is_complete (sorted : list heading) :
  let st := run_builder sorted in
  let nodes := reify sorted (children st) 0 in
  length nodes = length sorted
  /\ Permutation (hierarchy st ++ concat (children st)) (seq 0 (length sorted))
  /\ length (forest_of sorted st) = length (hierarchy st)
  /\ forall i n cs, nodes !! i = Some n -> children st !! i = Some cs ->
                    length (node_children n) = length cs.
Proof.
  intros st nodes.
  destruct (run_builder_complete sorted) as [Hlen Hperm].
  destruct (run_builder_ok sorted) as [_ Hchildren].
  fold st in Hlen, Hperm, Hchildren.
  assert (Hnodes : length nodes = length sorted) by (now apply reify_length).
  split; [exact Hnodes | split; [exact Hperm | split]].
  - unfold forest_of. fold st nodes. apply omap_all_found.
    intros i Hi. apply lookup_lt_is_Some_2. rewrite Hnodes.
    assert (Hin : In i (seq 0 (length sorted))).
    { apply list_elem_of_In. rewrite <- Hperm.
      apply list_elem_of_In, in_or_app. now left. }
    apply in_seq in Hin. lia.
  - intros i n cs Hn Hcs.
    apply (reify_keeps_children sorted sorted (children st) 0%nat Hlen eq_refl)
      with (j := i); auto.
Qed.

(** ** Short lines *)

Lemma lstrip_length (s : string) :
  (String.length (PyStr.lstrip s) <= String.length s)%nat.
Proof.
  induction s as [|c s IH]; cbn; [lia |].
  destruct (PyChar.isspace c); cbn; lia.
Qed.

Lemma rstrip_length (s : string) :
  (String.length (PyStr.rstrip s) <= String.length s)%nat.
Proof.
  induction s as [|c s IH]; cbn; [lia |].
  destruct (PyStr.rstrip s) as [|d t].
  - destruct (PyChar.isspace c); cbn; lia.
  - cbn in *. lia.
Qed.

(** A line of fewer than three characters never becomes a candidate of
    the text detector. *)
Lemma short_line_is_skipped (page_num : Z) (line : string) (line_num : Z) :
  (String.length line < 3)%nat -> text_line page_num line line_num = Ok None.
Proof.
  intros Hshort. unfold text_line.
  assert (Hlen : (PyStr.len (PyStr.strip line) <? 3) = true).
  { apply Z.ltb_lt. unfold PyStr.len, PyStr.strip.
    pose proof (rstrip_length (PyStr.lstrip line)).
    pose proof (lstrip_length line). lia. }
  rewrite Hlen. now rewrite orb_true_r.
Qed.

Lemma short_line_is_skipped_witness : text_line 1 "IV" 1 = Ok None.
Proof. apply short_line_is_skipped. cbn. lia. Defined.

Lemma extract_all_headings_returns_witness :
  exists rep,
    extract_all_headings "summary.pdf" (Parsed summary_reader) = Ok (ReportResult rep).
Proof.
  apply (extract_all_headings_returns "summary.pdf" (Parsed summary_reader) summary_reader).
  - reflexivity.
  - vm_compute. constructor.
Defined.

(** ** Deduplication: the best of each group survives *)

Lemma heading_eqb_refl (h : heading) : heading_eqb h h = true.
Proof.
  unfold heading_eqb. rewrite !bool_decide_eq_true_2 by reflexivity.
  assert (Hq : Qeq_bool (confidence h) (confidence h) = true)
    by (apply Qeq_bool_iff; reflexivity).
  now rewrite Hq.
Qed.

Lemma heading_eqb_title (a b : heading) :
  heading_eqb a b = true -> title a = title b.
Proof.
  unfold heading_eqb. intros H.
  repeat (apply andb_true_iff in H; destruct H as [H _]).
  now apply bool_decide_eq_true_1 in H.
Qed.

Lemma duplicates_same_title (n : string) (a b : heading) :
  title a = title b -> duplicates n a = duplicates n b.
Proof. unfold duplicates. now intros ->. Qed.

Lemma find_heads (p : heading -> bool) (gs : list group) :
  List.find p (map fst gs) = option_map fst (List.find (fun g => p (fst g)) gs).
Proof.
  induction gs as [|g gs IH]; cbn; [reflexivity |].
  destruct (p (fst g)); [reflexivity | exact IH].
Qed.

(** [remove(existing)] takes out the entry the scan stopped at. *)
Lemma list_remove_found (n : string) (gs : list group) (existing : heading)
    (collapsed : list heading) :
  List.find (fun g => duplicates n (fst g)) gs = Some (existing, collapsed) ->
  list_remove existing (map fst gs) = map fst (remove_first (duplicates n) gs).
Proof.
  induction gs as [|g gs IH]; cbn; [discriminate |].
  destruct (duplicates n (fst g)) eqn:Hg.
  - intros H. injection H as ->. cbn. now rewrite heading_eqb_refl.
  - intros H. specialize (IH H).
    destruct (heading_eqb (fst g) existing) eqn:Heq.
    + apply heading_eqb_title in Heq.
      rewrite (duplicates_same_title n _ _ Heq) in Hg.
      apply find_some in H. cbn in H. destruct H as [_ H]. congruence.
    + cbn. now rewrite IH.
Qed.

Lemma absorb_heads (p : heading -> bool) (h : heading) (gs : list group) :
  map fst (absorb p h gs) = map fst gs.
Proof.
  induction gs as [|g gs IH]; cbn; [reflexivity |].
  destruct (p (fst g)); cbn; [reflexivity | now rewrite IH].
Qed.

Lemma traced_step_heads (gs : list group) (h : heading) :
  map fst (traced_step gs h) = dedup_step (map fst gs) h.
Proof.
  unfold traced_step, dedup_step.
  destruct (negb (PyStr.truthy (PyStr.strip (title h)))); [reflexivity |].
  rewrite find_heads.
  match goal with
  | |- context [List.find ?p gs] =>
      destruct (List.find p gs) as [[existing collapsed]|] eqn:Hfind; cbn
  end.
  - destruct (Qgtb (confidence h) (confidence existing)).
    + rewrite map_app. cbn. now rewrite (list_remove_found _ _ _ _ Hfind).
    + apply absorb_heads.
  - now rewrite map_app.
Qed.

Lemma traced_fold_heads (headings : list heading) (gs : list group) :
  map fst (fold_left traced_step headings gs)
  = fold_left dedup_step headings (map fst gs).
Proof.
  revert gs. induction headings as [|h headings IH]; intros gs; cbn; [reflexivity |].
  now rewrite IH, traced_step_heads.
Qed.

Lemma remove_first_kept (P : group -> Prop) (p : heading -> bool) (gs : list group) :
  Forall P gs -> Forall P (remove_first p gs).
Proof.
  induction 1 as [|g gs Hg Hgs IH]; cbn; [constructor |].
  destruct (p (fst g)); [exact Hgs | now constructor].
Qed.

Lemma absorb_best_first (p : heading -> bool) (h : heading) (gs : list group)
    (found : group) :
  List.find (fun g => p (fst g)) gs = Some found ->
  (confidence h <= confidence (fst found))%Q ->
  Forall best_first gs -> Forall best_first (absorb p h gs).
Proof.
  intros Hfind Hle Hgs. revert Hfind.
  induction Hgs as [|g gs Hg Hgs IH]; cbn; [discriminate |].
  destruct (p (fst g)).
  - intros H. injection H as <-. constructor; [| exact Hgs].
    unfold best_first in *. cbn. apply Forall_app. split; [exact Hg |].
    constructor; [exact Hle | constructor].
  - intros H. constructor; [exact Hg | now apply IH].
Qed.

Lemma Qgtb_false_le (a b : Q) : Qgtb a b = false -> (a <= b)%Q.
Proof.
  unfold Qgtb. intros H. apply negb_false_iff in H. now apply Qle_bool_iff.
Qed.

Lemma traced_step_best_first (gs : list group) (h : heading) :
  Forall best_first gs -> Forall best_first (traced_step gs h).
Proof.
  intros Hgs. unfold traced_step.
  destruct (negb (PyStr.truthy (PyStr.strip (title h)))); [exact Hgs |].
  match goal with
  | |- context [List.find ?p gs] =>
      destruct (List.find p gs) as [[existing collapsed]|] eqn:Hfind
  end.
  - destruct (Qgtb (confidence h) (confidence existing)) eqn:Hgt.
    + apply Forall_app. split; [now apply remove_first_kept |].
      constructor; [| constructor].
      apply find_some in Hfind. destruct Hfind as [Hin _].
      rewrite List.Forall_forall in Hgs. specialize (Hgs _ Hin).
      apply Qgtb_lt in Hgt. unfold best_first in *. cbn in *.
      apply Forall_app. split.
      * eapply List.Forall_impl; [| exact Hgs]. cbn. intros x Hx.
        eapply Qle_trans; [exact Hx | now apply Qlt_le_weak].
      * constructor; [now apply Qlt_le_weak | constructor].
    + apply (absorb_best_first _ _ _ _ Hfind); [| exact Hgs].
      cbn. now apply Qgtb_false_le.
  - apply Forall_app. split; [exact Hgs |]. repeat constructor.
Qed.

Lemma remove_first_members (p : heading -> bool) (gs : list group) (found : group) :
  List.find (fun g => p (fst g)) gs = Some found ->
  Permutation (concat (map members gs))
              (members found ++ concat (map members (remove_first p gs))).
Proof.
  induction gs as [|g gs IH]; cbn [List.find remove_first]; [discriminate |].
  destruct (p (fst g)).
  - intros H. injection H as <-. reflexivity.
  - intros H. cbn [map concat]. rewrite (IH H).
    rewrite !app_assoc. apply Permutation_app_tail, Permutation_app_comm.
Qed.

Lemma absorb_members (p : heading -> bool) (h : heading) (gs : list group)
    (found : group) :
  List.find (fun g => p (fst g)) gs = Some found ->
  Permutation (concat (map members (absorb p h gs))) (h :: concat (map members gs)).
Proof.
  induction gs as [|g gs IH]; cbn [List.find absorb]; [discriminate |].
  destruct (p (fst g)).
  - intros _. destruct g as [s c]. cbn.
    rewrite <- app_assoc. cbn.
    change (s :: c ++ h :: concat (map members gs))
      with ((s :: c) ++ h :: concat (map members gs)).
    rewrite <- Permutation_middle. reflexivity.
  - intros H. cbn [map concat]. rewrite (IH H).
    rewrite <- Permutation_middle. reflexivity.
Qed.

Lemma traced_step_members (gs : list group) (h : heading) :
  Permutation (concat (map members (traced_step gs h)))
              (concat (map members gs) ++ (if titled h then [h] else [])).
Proof.
  unfold traced_step, titled.
  destruct (PyStr.truthy (PyStr.strip (title h))); cbn [negb];
    [| now rewrite app_nil_r].
  match goal with
  | |- context [List.find ?p gs] =>
      destruct (List.find p gs) as [[existing collapsed]|] eqn:Hfind
  end.
  - destruct (Qgtb (confidence h) (confidence existing)).
    + rewrite map_app, concat_app. cbn [map concat members fst snd].
      rewrite app_nil_r.
      rewrite (remove_first_members _ _ _ Hfind). unfold members. cbn [fst snd].
      set (others := concat _).
      transitivity (h :: (existing :: collapsed) ++ others);
        [| apply Permutation_cons_append].
      rewrite <- Permutation_middle. apply perm_skip.
      rewrite (Permutation_app_comm others). apply Permutation_app_tail.
      apply (Permutation_app_comm collapsed [existing]).
    + rewrite (absorb_members _ _ _ _ Hfind).
      rewrite Permutation_app_comm. reflexivity.
  - rewrite map_app, concat_app. cbn. reflexivity.
Qed.

(** Every candidate with a title survives or collapsed into exactly one
    survivor (possibly through entries the survivor replaced), the
    survivors are the list [_advanced_deduplication] returns, and each of
    them has the greatest confidence of its group. *)
Lemma deduplication_keeps_best_of_group (headings : list heading) :
  map fst (traced_deduplication headings) = _advanced_deduplication headings
  /\ Forall best_first (traced_deduplication headings)
  /\ Permutation (concat (map members (traced_deduplication headings)))
                 (List.filter titled headings).
Proof.
  unfold traced_deduplication, _advanced_deduplication.
  split; [apply (traced_fold_heads headings []) | split].
  - assert (H : forall gs, Forall best_first gs ->
                           Forall best_first (fold_left traced_step headings gs)).
    { induction headings as [|h headings IH]; intros gs Hgs; cbn; [exact Hgs |].
      apply IH. now apply traced_step_best_first. }
    apply H. constructor.
  - assert (H : forall gs,
               Permutation (concat (map members (fold_left traced_step headings gs)))
                           (concat (map members gs) ++ List.filter titled headings)).
    { induction headings as [|h headings IH]; intros gs; cbn [fold_left List.filter].
      - now rewrite app_nil_r.
      - rewrite IH, traced_step_members, <- app_assoc.
        apply Permutation_app_head. destruct (titled h); reflexivity. }
    apply (H []).
Qed.

(** ** Deduplication: when the accepted titles are pairwise distinct *)

Lemma ordered_pairs_append {A : Type} (R : A -> A -> Prop) (l : list A) (x : A) :
  ForallOrdPairs R l -> Forall (fun a => R a x) l -> ForallOrdPairs R (l ++ [x]).
Proof.
  induction 1 as [|a l Ha Hl IH]; cbn; intros Hx.
  - repeat constructor.
  - inversion Hx as [|? ? Hax Hlx]; subst.
    constructor; [| now apply IH].
    apply Forall_app. split; [exact Ha | now repeat constructor].
Qed.

Lemma find_none_all {A : Type} (p : A -> bool) (l : list A) :
  List.find p l = None -> Forall (fun a => p a = false) l.
Proof.
  intros H. apply List.Forall_forall. intros a Ha.
  apply (find_none p l H a Ha).
Qed.

(** While no candidate has a higher confidence than an earlier one, no
    accepted entry is ever replaced, and the accepted entries stay pairwise
    distinct. *)
Lemma dedup_fold_distinct (headings : list heading) :
  forall unique_headings,
    ForallOrdPairs distinct_titles unique_headings ->
    never_rising headings ->
    (forall a h, In a unique_headings -> In h headings ->
                 (confidence h <= confidence a)%Q) ->
    ForallOrdPairs distinct_titles (fold_left dedup_step headings unique_headings).
Proof.
  induction headings as [|h headings IH]; intros unique_headings Hacc Hfall Hbound;
    cbn [fold_left]; [exact Hacc |].
  inversion Hfall as [|? ? Hh Hrest]; subst.
  rewrite List.Forall_forall in Hh.
  unfold dedup_step at 2.
  destruct (negb (PyStr.truthy (PyStr.strip (title h)))).
  { apply IH; auto. intros a x Ha Hx. apply Hbound; [exact Ha | now right]. }
  destruct (List.find _ unique_headings) as [existing|] eqn:Hfind.
  - assert (Hle : (confidence h <= confidence existing)%Q).
    { apply find_some in Hfind. apply Hbound; [tauto | now left]. }
    assert (Hgt : Qgtb (confidence h) (confidence existing) = false).
    { unfold Qgtb. apply negb_false_iff. now apply Qle_bool_iff. }
    rewrite Hgt. apply IH; auto.
    intros a x Ha Hx. apply Hbound; [exact Ha | now right].
  - apply IH; auto.
    + apply ordered_pairs_append; [exact Hacc |]. now apply find_none_all in Hfind.
    + intros a x Ha Hx. apply in_app_or in Ha. destruct Ha as [Ha | [<- | []]].
      * apply Hbound; [exact Ha | now right].
      * now apply Hh.
Qed.

(** On a list where no candidate has a higher confidence than one before
    it, no accepted candidate is a duplicate of an earlier accepted one. *)
Lemma falling_confidence_gives_distinct_titles (headings : list heading) :
  never_rising headings ->
  ForallOrdPairs distinct_titles (_advanced_deduplication headings).
Proof.
  intros Hfall. unfold _advanced_deduplication.
  apply dedup_fold_distinct; [constructor | exact Hfall |].
  intros a h [].
Qed.

Lemma falling_confidence_gives_distinct_titles_witness :
  ForallOrdPairs distinct_titles (_advanced_deduplication falling_candidates).
Proof.
  apply falling_confidence_gives_distinct_titles.
  unfold never_rising, falling_candidates.
  repeat (constructor; [repeat (constructor; [vm_compute; discriminate |]);
                        constructor |]).
  constructor.
Defined.

(** ** The similarity of two titles *)

Lemma ratio_bounds (a b : nat) :
  (a <= b)%nat -> (0 < b)%nat ->
  (0 <= inject_Z (Z.of_nat a) / inject_Z (Z.of_nat b))%Q
  /\ (inject_Z (Z.of_nat a) / inject_Z (Z.of_nat b) <= 1)%Q.
Proof.
  intros Hab Hb.
  assert (Hpos : (0 < inject_Z (Z.of_nat b))%Q).
  { change 0%Q with (inject_Z 0). rewrite <- Zlt_Qlt. lia. }
  split.
  - apply Qle_shift_div_l; [exact Hpos |].
    rewrite Qmult_0_l. change 0%Q with (inject_Z 0). rewrite <- Zle_Qle. lia.
  - apply Qle_shift_div_r; [exact Hpos |].
    rewrite Qmult_1_l. rewrite <- Zle_Qle. lia.
Qed.

Lemma similarity_unfold (title1 title2 : string) :
  _calculate_similarity title1 title2
  = if negb (PyStr.truthy title1) || negb (PyStr.truthy title2) then 0.0%Q
    else if Nat.eqb (size (word_set title1)) 0 || Nat.eqb (size (word_set title2)) 0
         then 0.0%Q
         else if Nat.eqb (size (word_set title1 ∪ word_set title2)) 0 then 0.0%Q
              else (inject_Z (Z.of_nat (size (word_set title1 ∩ word_set title2)))
                    / inject_Z (Z.of_nat (size (word_set title1 ∪ word_set title2))))%Q.
Proof. reflexivity. Qed.

Lemma similarity_symmetric (a b : string) :
  _calculate_similarity a b = _calculate_similarity b a.
Proof.
  rewrite !similarity_unfold.
  rewrite (orb_comm (negb (PyStr.truthy a))).
  rewrite (orb_comm (size (word_set a) =? 0)%nat).
  rewrite (comm_L (∪) (word_set a)), (comm_L (∩) (word_set a)). reflexivity.
Qed.

(** The similarity is a ratio between 0 and 1, it does not depend on the
    order of the two titles, it is 1 (as a rational) between two titles with
    the same non-empty set of words, and 0 as soon as one title has no
    word. *)
Lemma similarity_is_a_symmetric_ratio :
  (forall a b, (0 <= _calculate_similarity a b)%Q /\ (_calculate_similarity a b <= 1)%Q)
  /\ (forall a b, _calculate_similarity a b = _calculate_similarity b a)
  /\ (forall a b, word_set a = word_set b -> PyStr.split a <> [] ->
                  (_calculate_similarity a b == 1)%Q)
  /\ (forall a b, PyStr.split a = [] \/ PyStr.split b = [] ->
                  _calculate_similarity a b = 0.0%Q).
Proof.
  split; [| split; [| split]].
  - intros a b. rewrite similarity_unfold.
    destruct (negb (PyStr.truthy a) || negb (PyStr.truthy b));
      [split; discriminate |].
    destruct ((size (word_set a) =? 0)%nat || (size (word_set b) =? 0)%nat);
      [split; discriminate |].
    destruct (size (word_set a ∪ word_set b) =? 0)%nat eqn:Hunion;
      [split; discriminate |].
    apply ratio_bounds.
    + apply subseteq_size. etransitivity;
        [apply intersection_subseteq_l | apply union_subseteq_l].
    + apply Nat.eqb_neq in Hunion. lia.
  - exact similarity_symmetric.
  - intros a b Hsame Hwords. rewrite similarity_unfold, <- Hsame.
    destruct (PyStr.split a) as [|w ws] eqn:Hs; [congruence |].
    assert (Hw : w ∈ word_set a).
    { unfold word_set. rewrite Hs. apply elem_of_list_to_set. left. }
    assert (Ha : PyStr.truthy a = true).
    { destruct a; [discriminate Hs | reflexivity]. }
    assert (Hb : PyStr.truthy b = true).
    { destruct b; [| reflexivity]. rewrite Hsame in Hw.
      unfold word_set in Hw. cbn in Hw. now apply not_elem_of_empty in Hw. }
    assert (Hsize : (size (word_set a) =? 0)%nat = false).
    { apply Nat.eqb_neq. intros H0. apply size_empty_inv in H0.
      apply H0 in Hw. now apply not_elem_of_empty in Hw. }
    rewrite Ha, Hb. cbn [negb orb]. rewrite Hsize. cbn [orb].
    rewrite (idemp_L (∪)), (idemp_L (∩)), Hsize.
    apply Qmult_inv_r. intros H0.
    apply Nat.eqb_neq in Hsize. apply Hsize.
    unfold Qeq in H0. cbn in H0. lia.
  - intros a b Hempty. rewrite similarity_unfold.
    destruct (negb (PyStr.truthy a) || negb (PyStr.truthy b)); [reflexivity |].
    assert (Hzero : (size (word_set a) =? 0)%nat || (size (word_set b) =? 0)%nat = true).
    { unfold word_set. destruct Hempty as [-> | ->]; cbn.
      - reflexivity.
      - apply orb_true_r. }
    now rewrite Hzero.
Qed.

(** The duplicate test gives the same answer whichever of two candidates
    is the accepted one. *)
Lemma duplicate_test_is_symmetric (a b : heading) :
  duplicates (comparison_title a) b = duplicates (comparison_title b) a.
Proof.
  unfold duplicates, comparison_title.
  rewrite String.eqb_sym.
  now rewrite similarity_symmetric.
Qed.

(** ** Where the report goes, and what the run says about it *)

Lemma existsb_append (p : ascii -> bool) (a b : string) :
  PyStr.existsb p (a ++ b)%string = PyStr.existsb p a || PyStr.existsb p b.
Proof.
  induction a as [|c a IH]; [reflexivity |].
  change (String c a ++ b)%string with (String c (a ++ b)%string).
  cbn [PyStr.existsb]. now rewrite IH, orb_assoc.
Qed.

Lemma basename_plain (name : string) :
  lacks Path.SLASH name -> Path.basename name = name.
Proof.
  unfold lacks. destruct name as [|c name]; [reflexivity |].
  cbn [PyStr.existsb Path.basename]. intros H.
  apply orb_false_iff in H. destruct H as [Hc Hname].
  rewrite Ascii.eqb_sym, Hc. now rewrite Hname.
Qed.

Lemma basename_after_directory (dir name : string) :
  lacks Path.SLASH name -> Path.basename (dir ++ "/" ++ name)%string = name.
Proof.
  intros Hname. induction dir as [|c dir IH].
  - change ("" ++ "/" ++ name)%string with (String Path.SLASH name).
    cbn [Path.basename]. rewrite Ascii.eqb_refl. now apply basename_plain.
  - change (String c dir ++ "/" ++ name)%string
      with (String c (dir ++ "/" ++ name)%string).
    cbn [Path.basename]. rewrite IH.
    destruct (Ascii.eqb c Path.SLASH); [reflexivity |].
    rewrite existsb_append.
    change ("/" ++ name)%string with (String Path.SLASH name).
    cbn [PyStr.existsb]. rewrite Ascii.eqb_refl. now rewrite orb_true_r.
Qed.

Lemma cut_extension_none (seen : bool) (ext : string) :
  lacks PyStr.DOT ext -> Path.cut_extension seen ext = None.
Proof.
  unfold lacks. revert seen.
  induction ext as [|c ext IH]; intros seen H; [reflexivity |].
  cbn [PyStr.existsb] in H. apply orb_false_iff in H. destruct H as [Hc Hext].
  cbn [Path.cut_extension]. rewrite (IH _ Hext).
  rewrite Ascii.eqb_sym, Hc. reflexivity.
Qed.

Lemma cut_extension_at_last_dot (stem ext : string) :
  lacks PyStr.DOT ext ->
  forall seen,
    seen || PyStr.existsb (fun c => negb (Ascii.eqb c PyStr.DOT)) stem = true ->
    Path.cut_extension seen (stem ++ "." ++ ext)%string = Some stem.
Proof.
  intros Hext. induction stem as [|c stem IH]; intros seen Hseen.
  - change ("" ++ "." ++ ext)%string with (String PyStr.DOT ext).
    cbn [Path.cut_extension]. rewrite (cut_extension_none _ ext Hext).
    cbn in Hseen. rewrite orb_false_r in Hseen. subst seen. reflexivity.
  - change (String c stem ++ "." ++ ext)%string
      with (String c (stem ++ "." ++ ext)%string).
    cbn [Path.cut_extension]. rewrite IH; [reflexivity |].
    cbn [PyStr.existsb] in Hseen. now rewrite <- orb_assoc.
Qed.

Lemma splitext_root_of_name (stem ext : string) :
  has_stem stem -> lacks PyStr.DOT ext ->
  Path.splitext_root (stem ++ "." ++ ext)%string = stem.
Proof.
  intros Hstem Hext. unfold Path.splitext_root.
  rewrite (cut_extension_at_last_dot stem ext Hext false); [reflexivity |].
  exact Hstem.
Qed.

(** Without an output path, the report of [dir/stem.ext] is written to
    [stem_best_outline.json], a path relative to the current directory,
    whatever the directory of the document; a given output path is used as
    it is.  The file holds the whole result and its path is returned,
    unless the result has an integer that cannot be printed: then the file
    is left with the beginning of the dump and [None] is returned. *)
Lemma report_goes_to_current_directory
    (dir stem ext : string) (w : world) (result : extraction) :
  has_stem stem -> lacks Path.SLASH stem ->
  lacks PyStr.DOT ext -> lacks Path.SLASH ext ->
  output_writable w = true ->
  extract_all_headings (path_of dir stem ext) (document w) = Ok result ->
  convert_to_json (path_of dir stem ext) w None
    = (if dumpable result
       then (Some (stem ++ "_best_outline.json")%string,
             Some ((stem ++ "_best_outline.json")%string, Complete result))
       else (None, Some ((stem ++ "_best_outline.json")%string, Truncated result)))
  /\ forall output_path,
       convert_to_json (path_of dir stem ext) w (Some output_path)
       = (if dumpable result
          then (Some output_path, Some (output_path, Complete result))
          else (None, Some (output_path, Truncated result))).
Proof.
  intros Hstem Hslash Hdot Hext Hw Hresult. unfold convert_to_json.
  unfold output_writable in Hw. rewrite Hresult.
  destruct (output w); try discriminate. split; [| reflexivity].
  unfold path_of. rewrite basename_after_directory.
  - now rewrite splitext_root_of_name.
  - unfold lacks in *. rewrite !existsb_append, Hslash, Hext. reflexivity.
Qed.

Lemma report_goes_to_current_directory_witness :
  convert_to_json (path_of "/home/user/docs" "summary.v2" "pdf")
                  {| document := Parsed summary_reader; output := Writable |} None
    = (Some "summary.v2_best_outline.json",
       Some ("summary.v2_best_outline.json",
             Complete
               (ReportResult
                  {| pdf_filename := "summary.v2.pdf"; total_headings := 1;
                     methods := methods summary_report;
                     headings := headings summary_report |})))
  /\ forall output_path,
       convert_to_json (path_of "/home/user/docs" "summary.v2" "pdf")
                       {| document := Parsed summary_reader; output := Writable |}
                       (Some output_path)
       = (Some output_path,
          Some (output_path,
                Complete
                  (ReportResult
                     {| pdf_filename := "summary.v2.pdf"; total_headings := 1;
                        methods := methods summary_report;
                        headings := headings summary_report |}))).
Proof.
  pose proof (report_goes_to_current_directory
                "/home/user/docs" "summary.v2" "pdf"
                {| document := Parsed summary_reader; output := Writable |}
                (ReportResult
                   {| pdf_filename := "summary.v2.pdf"; total_headings := 1;
                      methods := methods summary_report;
                      headings := headings summary_report |})) as H.
  replace (dumpable _) with true in H by (vm_compute; reflexivity).
  apply H; vm_compute; reflexivity.
Defined.

(** [main] returns with status 0 exactly when the output file holds the
    whole dump of the result, and then it printed the two lines of success;
    that happens exactly when it was given one argument, the extraction
    raised nothing, the output file could be written and every integer of
    the result could be printed.  In every other case its status is 1 and
    it printed the line of failure or of usage; it then wrote nothing, or
    left a file that holds the beginning of the dump only. *)
Lemma main_reports_what_it_did (argv : list string) (w : world) :
  let out := main argv w in
  (exit_status out = 0 \/ exit_status out = 1)
  /\ (exit_status out = 0 <->
      exists output_path result, written out = Some (output_path, Complete result))
  /\ (exit_status out = 0 <->
      exists prog pdf_path result,
        argv = [prog; pdf_path]
        /\ extract_all_headings pdf_path (document w) = Ok result
        /\ output w = Writable
        /\ dumpable result = true)
  /\ (exit_status out = 0 ->
      exists output_path result,
        written out = Some (output_path, Complete result)
        /\ printed out = ["Conversion completed successfully!";
                          ("Output saved to: " ++ output_path)%string])
  /\ (exit_status out = 1 ->
      (printed out = ["Conversion failed!"]
       \/ printed out = ["Usage: python best_pdf_converter.py <pdf_file>"])
      /\ (written out = None
          \/ exists output_path result,
               written out = Some (output_path, Truncated result))).
Proof.
  cbn zeta. unfold main.
  destruct argv as [|prog [|pdf_path [|extra argv]]];
    try (cbn; repeat split; auto; try discriminate;
         try (intros (p & res & H); discriminate);
         intros (p & q & res & H & _); discriminate).
  unfold convert_to_json.
  destruct (extract_all_headings pdf_path (document w)) as [result|e] eqn:Hresult.
  - destruct (output w) eqn:Hw.
    + cbn. repeat split; auto; try discriminate;
        try (intros (p & res & H); discriminate).
      intros (p & q & res & _ & _ & H & _). discriminate.
    + cbn. repeat split; eauto; try discriminate;
        try (intros (p & res & H); discriminate).
      intros (p & q & res & _ & _ & H & _). discriminate.
    + destruct (dumpable result) eqn:Hdump.
      * rewrite truthy_append, orb_true_r. cbn.
        repeat split; auto; try discriminate; eauto 10.
      * cbn. repeat split; eauto; try discriminate;
          try (intros (p & res & H); discriminate).
        intros (p & q & res & H & H' & _ & Hd). injection H as <- <-.
        congruence.
  - cbn. repeat split; auto; try discriminate;
      try (intros (p & res & H); discriminate).
    intros (p & q & res & H & H' & _). injection H as <- <-. congruence.
Qed.

(** ** The normalizer, applied twice *)

Lemma longest_ws (s : string) : Re.longest (Re.Star Re.ws) s = Some (ws_run s).
Proof.
  induction s as [|c s IH]; simpl; [reflexivity |].
  destruct (PyChar.isspace c); simpl.
  - now rewrite IH.
  - now rewrite longest_Never.
Qed.

Lemma longest_ws_plus (c : ascii) (s : string) :
  Re.longest (Re.plus Re.ws) (String c s)
  = if PyChar.isspace c then Some (S (ws_run s)) else None.
Proof.
  unfold Re.plus. simpl. destruct (PyChar.isspace c); simpl.
  - now rewrite longest_ws.
  - now rewrite longest_Never.
Qed.

(** [re.sub(r'\s+', ' ', s)] is [squeeze false s]. *)
Lemma collapse_is_squeeze (s : string) :
  Re.sub_from (Re.plus Re.ws) " " (ws_run s) s = squeeze true s
  /\ Re.sub (Re.plus Re.ws) " " s = squeeze false s.
Proof.
  unfold Re.sub. induction s as [|c s [IHrun IH]]; [split; reflexivity |].
  cbn [ws_run squeeze Re.sub_from]. rewrite longest_ws_plus.
  destruct (PyChar.isspace c).
  - split; [exact IHrun |]. now rewrite IHrun.
  - split; now rewrite IH.
Qed.

Lemma squeeze_is_spaced (s : string) :
  forall b, spaced b (squeeze b s) = true.
Proof.
  induction s as [|c s IH]; intros b; [reflexivity |].
  cbn [squeeze]. destruct (PyChar.isspace c) eqn:Hc.
  - destruct b; [apply IH |].
    cbn [spaced]. rewrite (IH true). reflexivity.
  - cbn [spaced]. rewrite Hc. apply IH.
Qed.

Lemma squeeze_spaced (s : string) :
  forall b, spaced b s = true -> squeeze b s = s.
Proof.
  induction s as [|c s IH]; intros b H; [reflexivity |].
  cbn [spaced squeeze] in *. destruct (PyChar.isspace c).
  - apply andb_true_iff in H. destruct H as [H Hs].
    apply andb_true_iff in H. destruct H as [Hb Hc].
    apply negb_true_iff in Hb. subst b. apply Ascii.eqb_eq in Hc. subst c.
    now rewrite (IH true Hs).
  - now rewrite (IH false H).
Qed.

Lemma spaced_any (s : string) (b : bool) :
  spaced b s = true -> spaced false s = true.
Proof.
  destruct s as [|c s]; [reflexivity |]. cbn [spaced].
  destruct (PyChar.isspace c); [| auto].
  intros H. apply andb_true_iff in H. destruct H as [H Hs].
  apply andb_true_iff in H. destruct H as [_ Hc]. now rewrite Hc, Hs.
Qed.

Lemma lstrip_spaced (s : string) :
  forall b, spaced b s = true -> spaced false (PyStr.lstrip s) = true.
Proof.
  induction s as [|c s IH]; intros b H; [reflexivity |].
  cbn [PyStr.lstrip]. destruct (PyChar.isspace c) eqn:Hc.
  - cbn [spaced] in H. rewrite Hc in H.
    apply andb_true_iff in H. destruct H as [_ Hs]. now apply (IH true).
  - now apply (spaced_any _ b).
Qed.

Lemma rstrip_spaced (s : string) :
  forall b, spaced b s = true -> spaced b (PyStr.rstrip s) = true.
Proof.
  induction s as [|c s IH]; intros b H; [reflexivity |].
  cbn [PyStr.rstrip]. cbn [spaced] in H.
  destruct (PyChar.isspace c) eqn:Hc.
  - apply andb_true_iff in H. destruct H as [H Hs].
    specialize (IH true Hs).
    destruct (PyStr.rstrip s) as [|d t]; [reflexivity |].
    cbn [spaced] in *. rewrite Hc, H. exact IH.
  - specialize (IH false H).
    destruct (PyStr.rstrip s) as [|d t].
    + cbn [spaced]. now rewrite Hc.
    + cbn [spaced] in *. rewrite Hc. exact IH.
Qed.

Lemma rstrip_rstrip (s : string) : PyStr.rstrip (PyStr.rstrip s) = PyStr.rstrip s.
Proof.
  induction s as [|c s IH]; [reflexivity |].
  cbn [PyStr.rstrip].
  destruct (PyStr.rstrip s) as [|d t] eqn:Hs.
  - destruct (PyChar.isspace c) eqn:Hc; [reflexivity |].
    cbn [PyStr.rstrip]. now rewrite Hc.
  - cbn [PyStr.rstrip] in *. now rewrite IH.
Qed.

(** A stripped string does not start with whitespace. *)
Lemma lstrip_strip (s : string) : PyStr.lstrip (PyStr.strip s) = PyStr.strip s.
Proof.
  unfold PyStr.strip.
  assert (H : forall z, PyStr.lstrip z = z -> PyStr.lstrip (PyStr.rstrip z) = PyStr.rstrip z).
  { intros [|c z] Hz; [reflexivity |].
    cbn [PyStr.lstrip] in Hz. destruct (PyChar.isspace c) eqn:Hc.
    - exfalso. pose proof (lstrip_length z) as Hlen. rewrite Hz in Hlen.
      cbn in Hlen. lia.
    - cbn [PyStr.rstrip].
      destruct (PyStr.rstrip z); rewrite ?Hc; cbn [PyStr.lstrip]; now rewrite Hc. }
  apply H. induction s as [|c s IH]; [reflexivity |].
  cbn [PyStr.lstrip]. destruct (PyChar.isspace c) eqn:Hc; [exact IH |].
  cbn [PyStr.lstrip]. now rewrite Hc.
Qed.

Lemma strip_strip (s : string) : PyStr.strip (PyStr.strip s) = PyStr.strip s.
Proof.
  unfold PyStr.strip at 1. rewrite lstrip_strip.
  unfold PyStr.strip. apply rstrip_rstrip.
Qed.

Lemma clean_is_spaced (text : string) :
  spaced false (_clean_extracted_text text) = true.
Proof.
  rewrite clean_is_collapse_and_strip, (proj2 (collapse_is_squeeze text)).
  unfold PyStr.strip. apply rstrip_spaced, (lstrip_spaced _ false), squeeze_is_spaced.
Qed.

Lemma strip_of_clean (text : string) :
  PyStr.strip (_clean_extracted_text text) = _clean_extracted_text text.
Proof. rewrite clean_is_collapse_and_strip. apply strip_strip. Qed.

Lemma collapse_of_clean (text : string) :
  Re.sub (Re.plus Re.ws) " " (_clean_extracted_text text) = _clean_extracted_text text.
Proof.
  rewrite (proj2 (collapse_is_squeeze _)). apply squeeze_spaced, clean_is_spaced.
Qed.

(** Cleaning a cleaned text changes nothing, and neither do the strip and
    the whitespace collapse that the line analysis applies once more. *)
Lemma clean_text_is_stable (text : string) :
  _clean_extracted_text (_clean_extracted_text text) = _clean_extracted_text text
  /\ PyStr.strip (_clean_extracted_text text) = _clean_extracted_text text
  /\ Re.sub (Re.plus Re.ws) " " (_clean_extracted_text text)
     = _clean_extracted_text text.
Proof.
  split; [| split; [apply strip_of_clean | apply collapse_of_clean]].
  rewrite (clean_is_collapse_and_strip (_clean_extracted_text text)).
  rewrite collapse_of_clean. apply strip_of_clean.
Qed.

(** ** From a candidate back to its page and line *)

Lemma scan_lines_elements (f : string -> Z -> result (option heading)) (h : heading) :
  forall lines n acc,
    In h (scan_lines f n lines acc) ->
    In h acc \/ exists (j : nat) (line : string),
                  lines !! j = Some line /\ f line (n + Z.of_nat j) = Ok (Some h).
Proof.
  induction lines as [|line rest IH]; cbn [scan_lines]; intros n acc Hin; [auto |].
  destruct (f line n) as [[h'|]|] eqn:Hline; [| | auto].
  - destruct (IH _ _ Hin) as [Hacc | (j & l & Hj & Hf)].
    + apply in_app_or in Hacc. destruct Hacc as [Hacc | [<- | []]]; [auto |].
      right. exists 0%nat, line. split; [reflexivity |]. now rewrite Z.add_0_r.
    + right. exists (S j), l. split; [exact Hj |].
      now replace (n + Z.of_nat (S j)) with (n + 1 + Z.of_nat j) by lia.
  - destruct (IH _ _ Hin) as [Hacc | (j & l & Hj & Hf)]; [auto |].
    right. exists (S j), l. split; [exact Hj |].
    now replace (n + Z.of_nat (S j)) with (n + 1 + Z.of_nat j) by lia.
Qed.

Lemma scan_pages_elements (Q : Z -> string -> heading -> Prop)
    (f : Z -> string -> list heading -> list heading) (h : heading) :
  (forall pn text acc, In h (f pn text acc) -> In h acc \/ Q pn text h) ->
  forall ps pn acc,
    In h (scan_pages f pn ps acc) ->
    In h acc \/ exists (i : nat) (p : page) (text : string),
                  ps !! i = Some p /\ extract_text p = Ok text
                  /\ Q (pn + Z.of_nat i) text h.
Proof.
  intros Hf ps. induction ps as [|p rest IH]; cbn [scan_pages]; intros pn acc Hin;
    [auto |].
  destruct (IH _ _ Hin) as [Hacc | (i & p' & text & Hi & Hp & HQ)].
  - destruct (extract_text p) as [text|] eqn:Hp; [| auto].
    destruct (PyStr.truthy text); [| auto].
    destruct (Hf _ _ _ Hacc) as [H | H]; [auto |].
    right. exists 0%nat, p, text. rewrite Z.add_0_r. auto.
  - right. exists (S i), p', text. split; [exact Hi | split; [exact Hp |]].
    now replace (pn + Z.of_nat (S i)) with (pn + 1 + Z.of_nat i) by lia.
Qed.

Lemma page_text_at (r : pdf_reader) (i : nat) (p : page) (text : string) :
  pages r !! i = Some p -> extract_text p = Ok text ->
  page_text r (1 + Z.of_nat i) = Some text.
Proof.
  intros Hi Hp. unfold page_text.
  destruct (1 + Z.of_nat i <? 1) eqn:Hlt; [apply Z.ltb_lt in Hlt; lia |].
  replace (Z.to_nat (1 + Z.of_nat i - 1)) with i by lia.
  now rewrite Hi, Hp.
Qed.

Lemma line_at_position (text : string) (j : nat) (line : string) :
  PyStr.split_on PyStr.LF text !! j = Some line ->
  line_at text (1 + Z.of_nat j) = Some line.
Proof.
  intros Hj. unfold line_at.
  destruct (1 + Z.of_nat j <? 1) eqn:Hlt; [apply Z.ltb_lt in Hlt; lia |].
  now replace (Z.to_nat (1 + Z.of_nat j - 1)) with j by lia.
Qed.

Lemma font_line_shape (page_num : Z) (line : string) (line_num : Z) (h : heading) :
  font_line page_num line line_num = Ok (Some h) ->
  h = candidate (PyStr.strip line) 1 page_num line_num font_analysis 0.6
  /\ 3 < PyStr.len (PyStr.strip line) < 50.
Proof.
  unfold font_line.
  destruct (3 <? PyStr.len (PyStr.strip line)) eqn:Hlo; [| discriminate].
  destruct (PyStr.len (PyStr.strip line) <? 50) eqn:Hhi; [| discriminate].
  cbn [andb]. apply Z.ltb_lt in Hlo, Hhi.
  repeat match goal with
         | |- context [if ?b then _ else _] => destruct b
         | |- context [bind ?m _] => destruct m; cbn [bind]
         end;
    intros H; try discriminate; injection H as <-; auto.
Qed.

Lemma position_line_shape (page_num : Z) (line : string) (line_num : Z) (h : heading) :
  position_line page_num line line_num = Ok (Some h) ->
  h = candidate (PyStr.strip line) (if line_num =? 1 then 0 else 1)
                page_num line_num position_analysis 0.65
  /\ line_num <= 3
  /\ 3 < PyStr.len (PyStr.strip line) < 100
  /\ (exists c rest, PyStr.strip line = String c rest /\ PyChar.isupper c = true)
  /\ PyStr.endswith PyStr.DOT (PyStr.strip line) = false.
Proof.
  unfold position_line.
  destruct (line_num <=? 3) eqn:Hnum; [| discriminate].
  destruct (3 <? PyStr.len (PyStr.strip line)) eqn:Hlo; [| discriminate].
  destruct (PyStr.len (PyStr.strip line) <? 100) eqn:Hhi; [| discriminate].
  cbn [andb]. apply Z.leb_le in Hnum. apply Z.ltb_lt in Hlo, Hhi.
  destruct (PyStr.strip line) as [|c rest] eqn:Hstrip; [discriminate |].
  cbn [PyStr.first bind].
  destruct (PyChar.isupper c) eqn:Hc; [| discriminate].
  destruct (PyStr.endswith PyStr.DOT (String c rest)) eqn:Hdot; [discriminate |].
  cbn [andb negb]. intros H. injection H as <-.
  repeat split; auto; try lia. eauto.
Qed.

(** Every candidate of the font detector is the stripped text of the line
    it names, on the page it names, and has 4 to 49 characters. *)
Lemma font_candidate_is_its_line (r : pdf_reader) (h : heading) :
  In h (_extract_headings_by_font r) ->
  exists page_num line_num text line,
    page_number h = Some page_num /\ line_number h = Some line_num
    /\ page_text r page_num = Some text /\ line_at text line_num = Some line
    /\ title h = PyStr.strip line /\ 3 < PyStr.len (title h) < 50
    /\ level h = 1.
Proof.
  unfold _extract_headings_by_font. intros Hin.
  apply (scan_pages_elements
           (fun pn text h => exists (j : nat) line,
                PyStr.split_on PyStr.LF text !! j = Some line
                /\ font_line pn line (1 + Z.of_nat j) = Ok (Some h))) in Hin.
  - destruct Hin as [[] | (i & p & text & Hi & Hp & j & line & Hj & Hline)].
    apply font_line_shape in Hline. destruct Hline as [-> Hlen].
    exists (1 + Z.of_nat i), (1 + Z.of_nat j), text, line. cbn.
    repeat split; auto; try lia.
    + now apply (page_text_at r i p).
    + now apply line_at_position.
  - intros pn text acc Hacc. now apply scan_lines_elements in Hacc.
Qed.

(** Every candidate of the position detector is the stripped text of one
    of the first three lines of its page; it starts with an uppercase
    letter, does not end in a period, has 4 to 99 characters, and has level
    0 exactly when it is the first line. *)
Lemma position_candidate_is_its_line (r : pdf_reader) (h : heading) :
  In h (_extract_headings_by_position r) ->
  exists page_num line_num text line,
    page_number h = Some page_num /\ line_number h = Some line_num
    /\ page_text r page_num = Some text /\ line_at text line_num = Some line
    /\ title h = PyStr.strip line
    /\ 1 <= line_num <= 3
    /\ 3 < PyStr.len (title h) < 100
    /\ (exists c rest, title h = String c rest /\ PyChar.isupper c = true)
    /\ PyStr.endswith PyStr.DOT (title h) = false
    /\ (level h = 0 <-> line_num = 1) /\ (level h = 1 <-> line_num <> 1).
Proof.
  unfold _extract_headings_by_position. intros Hin.
  apply (scan_pages_elements
           (fun pn text h => exists (j : nat) line,
                PyStr.split_on PyStr.LF text !! j = Some line
                /\ position_line pn line (1 + Z.of_nat j) = Ok (Some h))) in Hin.
  - destruct Hin as [[] | (i & p & text & Hi & Hp & j & line & Hj & Hline)].
    apply position_line_shape in Hline.
    destruct Hline as (-> & Hnum & Hlen & Hupper & Hdot).
    exists (1 + Z.of_nat i), (1 + Z.of_nat j), text, line. cbn.
    repeat split; auto; try lia.
    + now apply (page_text_at r i p).
    + now apply line_at_position.
    + destruct (1 + Z.of_nat j =? 1) eqn:H1; [apply Z.eqb_eq in H1; lia | discriminate].
    + intros ->. reflexivity.
    + destruct (1 + Z.of_nat j =? 1) eqn:H1; [discriminate |].
      apply Z.eqb_neq in H1. lia.
    + intros Hne. apply Z.eqb_neq in Hne. now rewrite Hne.
  - intros pn text acc Hacc. now apply scan_lines_elements in Hacc.
Qed.

(** ** The text detector sees one line per page *)

Lemma analyze_line_shape (line : string) (page_num line_num : Z) (h : heading) :
  _analyze_line_for_heading line page_num line_num = Ok (Some h) ->
  let collapsed := Re.sub (Re.plus Re.ws) " " (PyStr.strip line) in
  (exists lvl conf, h = candidate collapsed lvl page_num line_num text_analysis conf)
  /\ 3 <= PyStr.len collapsed <= 200
  /\ _is_regular_text collapsed = false.
Proof.
  unfold _analyze_line_for_heading. cbn zeta.
  set (collapsed := Re.sub (Re.plus Re.ws) " " (PyStr.strip line)).
  destruct (PyStr.len collapsed <? 3) eqn:Hlo; [discriminate |].
  destruct (200 <? PyStr.len collapsed) eqn:Hhi; [discriminate |].
  cbn [orb]. apply Z.ltb_ge in Hlo, Hhi.
  destruct (_is_regular_text collapsed); [discriminate |].
  destruct (classify_line collapsed) as [found|]; cbn [bind]; [| discriminate].
  destruct (Qgtb (fst found) 0.6); [| discriminate].
  intros H. injection H as <-. repeat split; eauto; lia.
Qed.

Lemma text_page_scan (page_num : Z) (text : string) (acc : list heading) (h : heading) :
  In h (scan_lines (text_line page_num) 1
                   (PyStr.split_on PyStr.LF (_clean_extracted_text text)) acc) ->
  In h acc
  \/ ((exists lvl conf,
         h = candidate (_clean_extracted_text text) lvl page_num 1 text_analysis conf)
      /\ 3 <= PyStr.len (_clean_extracted_text text) <= 200
      /\ _is_regular_text (_clean_extracted_text text) = false).
Proof.
  rewrite clean_text_single_line.
  pose proof (strip_of_clean text) as Hstrip.
  pose proof (collapse_of_clean text) as Hcollapse.
  intros Hin. apply scan_lines_elements in Hin.
  destruct Hin as [Hacc | (j & line & Hj & Hline)]; [auto |]. right.
  destruct j as [|j]; [| destruct j; discriminate].
  cbn in Hj. injection Hj as <-. cbn in Hline.
  unfold text_line in Hline. rewrite Hstrip in Hline.
  destruct (_ || _); [discriminate |].
  apply analyze_line_shape in Hline. cbn zeta in Hline.
  now rewrite Hstrip, Hcollapse in Hline.
Qed.

(** Every candidate of the text detector has line number 1, and its title
    is the whole cleaned text of its page, of 3 to 200 characters: a page
    whose cleaned text is longer gives no candidate. *)
Lemma text_candidate_is_its_page (r : pdf_reader) (h : heading) :
  In h (_extract_headings_from_text r) ->
  exists page_num text,
    page_number h = Some page_num /\ line_number h = Some 1
    /\ page_text r page_num = Some text
    /\ title h = _clean_extracted_text text
    /\ 3 <= PyStr.len (title h) <= 200
    /\ _is_regular_text (title h) = false.
Proof.
  unfold _extract_headings_from_text. intros Hin.
  apply (scan_pages_elements
           (fun pn text h =>
              (exists lvl conf,
                 h = candidate (_clean_extracted_text text) lvl pn 1 text_analysis conf)
              /\ 3 <= PyStr.len (_clean_extracted_text text) <= 200
              /\ _is_regular_text (_clean_extracted_text text) = false)) in Hin.
  - destruct Hin as [[] | (i & p & text & Hi & Hp & (lvl & conf & ->) & Hlen & Hreg)].
    exists (1 + Z.of_nat i), text. cbn.
    repeat split; auto; try lia. now apply (page_text_at r i p).
  - intros pn text acc. apply text_page_scan.
Qed.

Lemma scan_lines_length (f : string -> Z -> result (option heading)) :
  forall lines n acc,
    (length (scan_lines f n lines acc) <= length acc + length lines)%nat.
Proof.
  induction lines as [|line rest IH]; cbn [scan_lines]; intros n acc; [cbn; lia |].
  destruct (f line n) as [[h|]|]; cbn [length].
  - specialize (IH (n + 1) (acc ++ [h])). rewrite length_app in IH. cbn in IH. lia.
  - specialize (IH (n + 1) acc). lia.
  - lia.
Qed.

Lemma scan_pages_length (k : nat) (f : Z -> string -> list heading -> list heading) :
  (forall pn text acc, (length (f pn text acc) <= length acc + k)%nat) ->
  forall ps pn acc,
    (length (scan_pages f pn ps acc) <= length acc + k * length ps)%nat.
Proof.
  intros Hf ps. induction ps as [|p rest IH]; cbn [scan_pages length];
    intros pn acc; [lia |].
  match goal with
  | |- context [scan_pages f _ rest ?a] => specialize (IH (pn + 1) a);
      assert (Ha : (length a <= length acc + k)%nat)
  end.
  { destruct (extract_text p) as [text|]; [| lia].
    destruct (PyStr.truthy text); [apply Hf | lia]. }
  lia.
Qed.

(** Lines after the third are never candidates of the position detector. *)
Lemma position_scan_length (page_num : Z) :
  forall lines n acc,
    1 <= n ->
    (length (scan_lines (position_line page_num) n lines acc)
     <= length acc + Z.to_nat (4 - n))%nat.
Proof.
  induction lines as [|line rest IH]; cbn [scan_lines]; intros n acc Hn; [lia |].
  destruct (position_line page_num line n) as [[h|]|] eqn:Hline.
  - apply position_line_shape in Hline. destruct Hline as (_ & Hnum & _).
    specialize (IH (n + 1) (acc ++ [h]) ltac:(lia)).
    rewrite length_app in IH. cbn in IH. lia.
  - specialize (IH (n + 1) acc ltac:(lia)). lia.
  - lia.
Qed.

Lemma scan_lines_appends (f : string -> Z -> result (option heading)) :
  forall lines n acc, scan_lines f n lines acc = acc ++ scan_lines f n lines [].
Proof.
  induction lines as [|line rest IH]; cbn [scan_lines]; intros n acc;
    [now rewrite app_nil_r |].
  destruct (f line n) as [[h|]|].
  - rewrite (IH (n + 1) (acc ++ [h])), (IH (n + 1) ([] ++ [h])).
    now rewrite <- app_assoc.
  - apply IH.
  - now rewrite app_nil_r.
Qed.

Lemma none_on_other_page (pn n : Z) (l : list heading) :
  Forall (fun h => page_number h = Some pn) l -> pn <> n ->
  List.filter (on_page n) l = [].
Proof.
  intros Hl Hne. induction Hl as [|h l Hh _ IH]; [reflexivity |].
  cbn [List.filter]. unfold on_page at 1. rewrite Hh.
  rewrite bool_decide_eq_false_2 by congruence. exact IH.
Qed.

(** A loop over the pages that appends, for each page, at most [k]
    candidates carrying the number of that page, leaves at most [k]
    candidates with any one page number. *)
Lemma scan_pages_on_page (k : nat) (f : Z -> string -> list heading -> list heading)
    (g : Z -> string -> list heading) :
  (forall pn text acc, f pn text acc = acc ++ g pn text) ->
  (forall pn text, Forall (fun h => page_number h = Some pn) (g pn text)) ->
  (forall pn text, (length (g pn text) <= k)%nat) ->
  forall ps pn acc n,
    (length (List.filter (on_page n) (scan_pages f pn ps acc))
     <= length (List.filter (on_page n) acc) + (if (pn <=? n)%Z then k else 0))%nat.
Proof.
  intros Hf Hpage Hk ps.
  induction ps as [|p rest IH]; cbn [scan_pages]; intros pn acc n; [lia |].
  match goal with
  | |- context [scan_pages f _ rest ?a] =>
      specialize (IH (pn + 1) a n);
      assert (Ha : (length (List.filter (on_page n) a)
                    <= length (List.filter (on_page n) acc)
                       + (if (pn =? n)%Z then k else 0))%nat)
  end.
  { destruct (extract_text p) as [text|]; [| lia].
    destruct (PyStr.truthy text); [| lia].
    rewrite Hf, List.filter_app, length_app.
    destruct (Z.eqb_spec pn n) as [Heq | Hne].
    - pose proof (List.filter_length_le (on_page n) (g pn text)) as Hle.
      specialize (Hk pn text). lia.
    - rewrite (none_on_other_page pn n _ (Hpage pn text) Hne). cbn. lia. }
  destruct (Z.eqb_spec pn n), (Z.leb_spec pn n), (Z.leb_spec (pn + 1) n); lia.
Qed.

(** The text detector reports at most one candidate with any given page
    number, and the position detector at most three; so the first reports
    no more candidates than the document has pages, and the second no more
    than three times as many. *)
Lemma candidates_per_page (r : pdf_reader) :
  (forall page_num,
     (length (List.filter (on_page page_num) (_extract_headings_from_text r)) <= 1)%nat
     /\ (length (List.filter (on_page page_num) (_extract_headings_by_position r))
         <= 3)%nat)
  /\ (length (_extract_headings_from_text r) <= length (pages r))%nat
  /\ (length (_extract_headings_by_position r) <= 3 * length (pages r))%nat.
Proof.
  assert (Htext : forall pn text,
            (length (scan_lines (text_line pn) 1
                       (PyStr.split_on PyStr.LF (_clean_extracted_text text)) [])
             <= 1)%nat).
  { intros pn text. rewrite clean_text_single_line.
    apply (scan_lines_length _ [_] 1 []). }
  assert (Hposition : forall pn text,
            (length (scan_lines (position_line pn) 1
                       (PyStr.split_on PyStr.LF text) []) <= 3)%nat).
  { intros pn text. apply (position_scan_length pn _ 1 []). lia. }
  split; [intros page_num; split | split].
  - unfold _extract_headings_from_text.
    pose proof (scan_pages_on_page 1
      (fun page_num text headings =>
         scan_lines (text_line page_num) 1
           (PyStr.split_on PyStr.LF (_clean_extracted_text text)) headings)
      (fun page_num text =>
         scan_lines (text_line page_num) 1
           (PyStr.split_on PyStr.LF (_clean_extracted_text text)) [])) as H.
    cbn beta in H.
    specialize (H ltac:(intros; apply scan_lines_appends)).
    specialize (H ltac:(
      intros pn text; apply scan_lines_Forall; [| constructor];
      intros line n h Hline; unfold text_line in Hline;
      destruct (_ || _); [discriminate |];
      apply analyze_line_shape in Hline;
      destruct Hline as ((lvl & conf & ->) & _); reflexivity)).
    specialize (H Htext (pages r) 1 [] page_num). cbn [List.filter length] in H.
    destruct (1 <=? page_num); lia.
  - unfold _extract_headings_by_position.
    pose proof (scan_pages_on_page 3
      (fun page_num text headings =>
         scan_lines (position_line page_num) 1 (PyStr.split_on PyStr.LF text) headings)
      (fun page_num text =>
         scan_lines (position_line page_num) 1 (PyStr.split_on PyStr.LF text) [])) as H.
    cbn beta in H.
    specialize (H ltac:(intros; apply scan_lines_appends)).
    specialize (H ltac:(
      intros pn text; apply scan_lines_Forall; [| constructor];
      intros line n h Hline; apply position_line_shape in Hline;
      destruct Hline as (-> & _); reflexivity)).
    specialize (H Hposition (pages r) 1 [] page_num). cbn [List.filter length] in H.
    destruct (1 <=? page_num); lia.
  - unfold _extract_headings_from_text.
    pose proof (scan_pages_length 1
      (fun page_num text headings =>
         scan_lines (text_line page_num) 1
           (PyStr.split_on PyStr.LF (_clean_extracted_text text)) headings)) as H.
    cbn beta in H. specialize (H ltac:(
      intros pn text acc; rewrite clean_text_single_line;
      apply (scan_lines_length _ [_] 1 acc)) (pages r) 1 []).
    cbn [length] in H. lia.
  - unfold _extract_headings_by_position.
    pose proof (scan_pages_length 3
      (fun page_num text headings =>
         scan_lines (position_line page_num) 1 (PyStr.split_on PyStr.LF text) headings)) as H.
    cbn beta in H. specialize (H ltac:(
      intros pn text acc; apply (position_scan_length pn _ 1 acc); lia) (pages r) 1 []).
    cbn [length] in H. lia.
Qed.

(** ** The forest holds every heading once *)

Lemma flatten_node (h : heading) (cs : list node) :
  flatten (Node h cs) = h :: forest_headings cs.
Proof.
  unfold forest_headings. cbn [flatten]. f_equal.
  induction cs as [|c cs IH]; [reflexivity |]. cbn [map concat]. now rewrite IH.
Qed.

Lemma forest_headings_omap {A : Type} (g : A -> option node) (l : list A) :
  forest_headings (omap g l)
  = concat (map (fun x => from_option flatten [] (g x)) l).
Proof.
  unfold forest_headings. induction l as [|x l IH]; [reflexivity |].
  cbn [omap list_omap map concat]. destruct (g x) as [n|]; cbn; now rewrite IH.
Qed.

Lemma concat_map_permutation {A B : Type} (g : A -> list B) (l l' : list A) :
  Permutation l l' -> Permutation (concat (map g l)) (concat (map g l')).
Proof.
  induction 1 as [|x l l' _ IH|x y l|l l' l'' _ IH1 _ IH2]; cbn.
  - reflexivity.
  - now apply Permutation_app_head.
  - rewrite !app_assoc. apply Permutation_app_tail, Permutation_app_comm.
  - now transitivity (concat (map g l')).
Qed.

Lemma concat_map_ext_in {A B : Type} (g g' : A -> list B) (l : list A) :
  (forall x, In x l -> g x = g' x) -> concat (map g l) = concat (map g' l).
Proof.
  induction l as [|x l IH]; cbn; intros H; [reflexivity |].
  rewrite (H x) by auto. rewrite IH; [reflexivity |]. intros y Hy. apply H. auto.
Qed.

Lemma concat_map_lookup {B : Type} (f : node -> list B) (l : list node) :
  forall base,
    concat (map (fun i => from_option f [] (l !! (i - base)%nat)) (seq base (length l)))
    = concat (map f l).
Proof.
  induction l as [|x l IH]; intros base; [reflexivity |].
  cbn [length seq map concat]. rewrite Nat.sub_diag. cbn. f_equal.
  rewrite <- (IH (S base)). apply concat_map_ext_in.
  intros i Hi. apply in_seq in Hi.
  replace (i - base)%nat with (S (i - S base)) by lia. reflexivity.
Qed.

(** The values built by [reify], flattened, are the headings themselves
    and, for every position appended to some dict, the flattened value at
    that position. *)
Lemma reify_headings (hs : list heading) :
  forall (ch : list (list nat)) (base : nat),
    length ch = length hs ->
    (forall j cs c, ch !! j = Some cs -> In c cs -> (base + j < c)%nat) ->
    Permutation
      (forest_headings (reify hs ch base))
      (hs ++ concat (map (fun c => from_option flatten []
                                     (reify hs ch base !! (c - base)%nat))
                         (concat ch))).
Proof.
  induction hs as [|h hs IH]; intros [|cs ch] base Hlen Hch; cbn in Hlen;
    try discriminate; [reflexivity |].
  cbn [reify]. set (later := reify hs ch (S base)).
  unfold forest_headings. cbn [map concat]. rewrite flatten_node.
  rewrite forest_headings_omap. fold (forest_headings later).
  cbn [concat app]. rewrite map_app, concat_app.
  rewrite (concat_map_ext_in
             (fun c => from_option flatten [] ((Node h _ :: later) !! (c - base)%nat))
             (fun c => from_option flatten [] (later !! (c - S base)%nat)) cs).
  2:{ intros c Hc. specialize (Hch 0%nat cs c eq_refl Hc).
      replace (c - base)%nat with (S (c - S base)) by lia. reflexivity. }
  rewrite (concat_map_ext_in
             (fun c => from_option flatten [] ((Node h _ :: later) !! (c - base)%nat))
             (fun c => from_option flatten [] (later !! (c - S base)%nat)) (concat ch)).
  2:{ intros c Hc. apply in_concat in Hc. destruct Hc as (cs' & Hcs' & Hc).
      apply list_elem_of_In, list_elem_of_lookup in Hcs'. destruct Hcs' as [j Hj].
      specialize (Hch (S j) cs' c Hj Hc).
      replace (c - base)%nat with (S (c - S base)) by lia. reflexivity. }
  apply perm_skip.
  assert (IH' : Permutation
                  (forest_headings later)
                  (hs ++ concat (map (fun c => from_option flatten []
                                                 (later !! (c - S base)%nat))
                                     (concat ch)))).
  { apply (IH ch (S base)); [lia |].
    intros j cs' c Hj Hc. specialize (Hch (S j) cs' c Hj Hc). lia. }
  rewrite IH'. rewrite !app_assoc. apply Permutation_app_tail, Permutation_app_comm.
Qed.

Lemma forest_holds_sorted_list (sorted : list heading) :
  Permutation (forest_headings (forest_of sorted (run_builder sorted))) sorted.
Proof.
  destruct (run_builder_complete sorted) as [Hlen Hplaced].
  destruct (run_builder_ok sorted) as [_ Hchildren].
  set (st := run_builder sorted) in *.
  set (nodes := reify sorted (children st) 0).
  assert (Hnodes : length nodes = length sorted) by (now apply reify_length).
  unfold forest_of. fold nodes. rewrite forest_headings_omap.
  set (F := fun i => from_option flatten [] (nodes !! i)).
  assert (Hall : Permutation (concat (map F (seq 0 (length sorted))))
                             (sorted ++ concat (map F (concat (children st))))).
  { rewrite <- Hnodes.
    rewrite <- (concat_map_ext_in
                  (fun i => from_option flatten [] (nodes !! (i - 0)%nat)) F)
      by (intros i _; unfold F; now rewrite Nat.sub_0_r).
    rewrite (concat_map_lookup flatten nodes 0).
    fold (forest_headings nodes). unfold nodes.
    rewrite (reify_headings sorted (children st) 0 Hlen).
    - apply Permutation_app_head.
      erewrite concat_map_ext_in; [reflexivity |].
      intros c _. unfold F, nodes. now rewrite Nat.sub_0_r.
    - intros j cs c Hj Hc. destruct (Hchildren j cs c Hj Hc) as [Hlt _]. exact Hlt. }
  rewrite <- (concat_map_permutation F _ _ Hplaced) in Hall.
  rewrite map_app, concat_app in Hall.
  now apply Permutation_app_inv_r in Hall.
Qed.

Lemma sort_insert_permutation {A : Type} (key : A -> list py_value) (x : A)
    (sorted sorted' : list A) :
  sort_insert key x sorted = Ok sorted' -> Permutation sorted' (x :: sorted).
Proof.
  revert sorted'. induction sorted as [|y rest IH]; cbn; intros sorted' H.
  - injection H as <-. reflexivity.
  - destruct (tuple_lt (key x) (key y)) as [[|]|]; cbn in H; try discriminate.
    + injection H as <-. reflexivity.
    + destruct (sort_insert key x rest) as [rest'|]; cbn in H; try discriminate.
      injection H as <-. rewrite (IH rest' eq_refl). apply perm_swap.
Qed.

Lemma sort_into_permutation {A : Type} (key : A -> list py_value) (l : list A) :
  forall sorted sorted',
    sort_into key sorted l = Ok sorted' -> Permutation sorted' (sorted ++ l).
Proof.
  induction l as [|x l IH]; cbn; intros sorted sorted' H.
  - injection H as <-. now rewrite app_nil_r.
  - destruct (sort_insert key x sorted) as [s1|] eqn:Hs; cbn in H; try discriminate.
    rewrite (IH _ _ H). apply sort_insert_permutation in Hs. rewrite Hs.
    apply Permutation_middle.
Qed.

Lemma py_sort_permutation {A : Type} (key : A -> list py_value) (l sorted : list A) :
  py_sort key l = Ok sorted -> Permutation sorted l.
Proof. intros H. now apply sort_into_permutation in H. Qed.

Lemma build_hierarchy_sorts_first (headings : list heading) (forest : list node) :
  _build_hierarchy headings = Ok forest ->
  exists sorted, py_sort level_key headings = Ok sorted
                 /\ forest = forest_of sorted (run_builder sorted).
Proof.
  unfold _build_hierarchy. intros H.
  destruct (py_sort level_key headings) as [sorted|]; cbn in H; [| discriminate].
  injection H as <-. eauto.
Qed.

Lemma build_hierarchy_permutation (headings : list heading) (forest : list node) :
  _build_hierarchy headings = Ok forest ->
  Permutation (forest_headings forest) headings.
Proof.
  intros H. apply build_hierarchy_sorts_first in H.
  destruct H as (sorted & Hsort & ->). rewrite forest_holds_sorted_list.
  now apply py_sort_permutation in Hsort.
Qed.

(** The forest [_build_hierarchy] returns holds every heading of its
    input exactly once, as a root or as a descendant of a root, and so it
    has as many nodes as the input has headings. *)
Lemma hierarchy_holds_every_heading_once (headings : list heading) (forest : list node) :
  _build_hierarchy headings = Ok forest ->
  Permutation (forest_headings forest) headings
  /\ length (forest_headings forest) = length headings.
Proof.
  intros H. apply build_hierarchy_permutation in H.
  split; [exact H | now apply Permutation_length].
Qed.

Lemma hierarchy_holds_every_heading_once_witness :
  Permutation (forest_headings sample_forest) sample_headings
  /\ length (forest_headings sample_forest) = length sample_headings.
Proof.
  apply hierarchy_holds_every_heading_once. vm_compute. reflexivity.
Defined.

(** In a report, the nodes of the tree are exactly the candidates the
    deduplication kept: [total_headings] counts them, it never exceeds the
    sum of the four method counts, and every node was produced by one of the
    detectors. *)
Lemma report_tree_matches_its_counts
    (pdf_path : string) (f : pdf_file) (r : pdf_reader) (rep : report) :
  load_pdf f = Some r ->
  extract_all_headings pdf_path f = Ok (ReportResult rep) ->
  Permutation (forest_headings (headings rep))
              (_advanced_deduplication (all_headings_of r))
  /\ total_headings rep = length (forest_headings (headings rep))
  /\ (total_headings rep
      <= count_builtin_outline (methods rep) + count_text_analysis (methods rep)
         + count_font_analysis (methods rep) + count_position_analysis (methods rep))%nat
  /\ forall h, In h (forest_headings (headings rep)) -> In h (all_headings_of r).
Proof.
  intros Hload H. unfold extract_all_headings in H. rewrite Hload in H.
  fold (all_headings_of r) in H.
  destruct (py_sort by_position _) as [final|] eqn:Hsort; cbn in H; try discriminate.
  destruct (_build_hierarchy final) as [forest|] eqn:Hforest; cbn in H;
    try discriminate.
  injection H as <-. cbn.
  apply build_hierarchy_permutation in Hforest.
  apply py_sort_permutation in Hsort.
  assert (Hperm : Permutation (forest_headings forest)
                              (_advanced_deduplication (all_headings_of r)))
    by (now rewrite Hforest).
  split; [exact Hperm | split; [| split]].
  - now rewrite Hforest.
  - rewrite (Permutation_length Hsort).
    pose proof (dedup_fold_length (all_headings_of r) []) as Hlen.
    unfold all_headings_of in Hlen at 2. rewrite !length_app in Hlen. cbn in Hlen.
    unfold _advanced_deduplication. lia.
  - intros h Hh. apply (Permutation_in _ Hperm) in Hh.
    unfold _advanced_deduplication in Hh.
    destruct (dedup_fold_incl _ _ _ Hh) as [[] | Hin]. exact Hin.
Qed.

Lemma report_tree_matches_its_counts_witness :
  Permutation (forest_headings (headings summary_report))
              (_advanced_deduplication (all_headings_of summary_reader))
  /\ total_headings summary_report = length (forest_headings (headings summary_report))
  /\ (total_headings summary_report
      <= count_builtin_outline (methods summary_report)
         + count_text_analysis (methods summary_report)
         + count_font_analysis (methods summary_report)
         + count_position_analysis (methods summary_report))%nat
  /\ forall h, In h (forest_headings (headings summary_report)) ->
               In h (all_headings_of summary_reader).
Proof.
  apply (report_tree_matches_its_counts
           "docs/summary.pdf" (Parsed summary_reader) summary_reader summary_report);
    vm_compute; reflexivity.
Defined.

(** ** Exactly when the extraction fails *)

Lemma same_pages_comparable (x y : heading) :
  paged x = paged y ->
  comparable (by_position x) (by_position y)
  /\ comparable (level_key x) (level_key y).
Proof.
  unfold paged, comparable, by_position, level_key, page_key, line_key.
  destruct (page_number x) as [px|], (page_number y) as [py|]; try discriminate;
    intros _; cbn;
    destruct (line_number x), (line_number y); cbn;
    repeat match goal with |- context [if ?b then _ else _] => destruct b end;
    eauto.
Qed.

Lemma different_pages_raise (x y : heading) :
  paged x <> paged y -> tuple_lt (by_position x) (by_position y) = Raise TypeError.
Proof.
  unfold paged, by_position, page_key.
  destruct (page_number x), (page_number y); intros H; try congruence; reflexivity.
Qed.

Lemma sort_into_uniform (k : bool) (l : list heading) :
  forall sorted,
    Forall (fun h => paged h = k) sorted -> Forall (fun h => paged h = k) l ->
    exists sorted', sort_into by_position sorted l = Ok sorted'.
Proof.
  intros sorted Hsorted Hl.
  destruct (sort_into_returns by_position l sorted) as (s & Hs & _); [| eauto].
  rewrite List.Forall_forall in Hsorted, Hl.
  intros x y Hx Hy. apply same_pages_comparable.
  apply in_app_or in Hx, Hy.
  assert (Hkx : paged x = k) by (destruct Hx; auto).
  assert (Hky : paged y = k) by (destruct Hy; auto).
  congruence.
Qed.

Lemma sort_into_mixed (l : list heading) :
  forall (k : bool) (sorted : list heading),
    sorted <> [] -> Forall (fun h => paged h = k) sorted ->
    Exists (fun h => paged h <> k) l ->
    sort_into by_position sorted l = Raise TypeError.
Proof.
  induction l as [|x l IH]; intros k sorted Hne Hsorted Hex;
    [inversion Hex |].
  cbn [sort_into].
  destruct (bool_decide (paged x = k)) eqn:Hx.
  - apply bool_decide_eq_true_1 in Hx.
    destruct (sort_insert_returns by_position x sorted) as (s1 & Hs1 & Hin).
    { rewrite List.Forall_forall in Hsorted. intros y Hy.
      apply same_pages_comparable. rewrite (Hsorted y Hy). exact Hx. }
    rewrite Hs1. cbn [bind]. apply (IH k).
    + destruct s1; [| discriminate]. exfalso. apply (proj2 (Hin x)). now left.
    + apply List.Forall_forall. intros z Hz. apply Hin in Hz.
      rewrite List.Forall_forall in Hsorted. destruct Hz as [-> | Hz]; auto.
    + inversion Hex as [? ? Hbad | ? ? Hlater]; subst; [contradiction | exact Hlater].
  - apply bool_decide_eq_false_1 in Hx.
    destruct sorted as [|y rest]; [congruence |].
    inversion Hsorted as [|? ? Hy _]; subst.
    cbn [sort_insert]. rewrite different_pages_raise; [reflexivity |].
    congruence.
Qed.

Lemma sort_of_mixed_pages (l : list heading) :
  mixed_pages l -> py_sort by_position l = Raise TypeError.
Proof.
  intros [(x & Hx & Hpx) (y & Hy & Hpy)]. unfold py_sort.
  destruct l as [|z l]; [destruct Hx |]. cbn [sort_into sort_insert bind].
  apply (sort_into_mixed l (paged z) [z]); [discriminate | now repeat constructor |].
  apply List.Exists_exists.
  destruct (paged z) eqn:Hz.
  - exists y. destruct Hy as [-> | Hy]; [congruence |]. split; [exact Hy | congruence].
  - exists x. destruct Hx as [-> | Hx]; [congruence |]. split; [exact Hx | congruence].
Qed.

Lemma not_mixed_is_uniform (l : list heading) :
  ~ mixed_pages l -> exists k, Forall (fun h => paged h = k) l.
Proof.
  intros Hnot.
  destruct (List.existsb paged l) eqn:Hsome.
  - exists true. apply List.Forall_forall. intros h Hh.
    destruct (paged h) eqn:Hp; [reflexivity |]. exfalso. apply Hnot.
    apply List.existsb_exists in Hsome. split; eauto.
  - exists false. apply List.Forall_forall. intros h Hh.
    destruct (paged h) eqn:Hp; [| reflexivity].
    assert (List.existsb paged l = true) by (apply List.existsb_exists; eauto).
    congruence.
Qed.

(** A document that loads yields a report unless the candidates kept by
    the deduplication mix page numbers with [None] (an outline entry without
    page next to a candidate with one); then the sort by position compares
    [None] with an integer and the extraction raises [TypeError]. *)
Lemma extraction_fails_exactly_on_mixed_pages
    (pdf_path : string) (f : pdf_file) (r : pdf_reader) :
  load_pdf f = Some r ->
  (mixed_pages (_advanced_deduplication (all_headings_of r)) ->
   extract_all_headings pdf_path f = Raise TypeError)
  /\ (~ mixed_pages (_advanced_deduplication (all_headings_of r)) ->
      exists rep, extract_all_headings pdf_path f = Ok (ReportResult rep)).
Proof.
  intros Hload. unfold extract_all_headings. rewrite Hload.
  fold (all_headings_of r). split.
  - intros Hmixed. now rewrite (sort_of_mixed_pages _ Hmixed).
  - intros Hnot. apply not_mixed_is_uniform in Hnot. destruct Hnot as [k Hk].
    destruct (sort_into_uniform k (_advanced_deduplication (all_headings_of r)) [])
      as [final Hfinal]; [constructor | exact Hk |].
    change (sort_into by_position [] ?l) with (py_sort by_position l) in Hfinal.
    rewrite Hfinal. cbn [bind].
    assert (Hk' : Forall (fun h => paged h = k) final).
    { apply py_sort_permutation in Hfinal.
      rewrite List.Forall_forall in Hk. apply List.Forall_forall.
      intros h Hh. apply Hk. now apply (Permutation_in _ Hfinal). }
    unfold _build_hierarchy.
    destruct (py_sort_returns level_key final) as (sorted & -> & _).
    { rewrite List.Forall_forall in Hk'. intros x y Hx Hy.
      apply same_pages_comparable. rewrite (Hk' x Hx), (Hk' y Hy). reflexivity. }
    cbn [bind]. eauto.
Qed.

(** [extract_all_headings] returns the error result exactly when loading
    fails: no file at the path, a file the parser rejects, or a document
    without pages. *)
Lemma error_result_exactly_on_load_failure (pdf_path : string) (f : pdf_file) :
  (exists message, extract_all_headings pdf_path f = Ok (ErrorResult message))
  <-> (f = Missing \/ (exists e, f = Unreadable e)
       \/ (exists r, f = Parsed r /\ pages r = [])).
Proof.
  rewrite <- load_pdf_fails_iff. split.
  - intros [message H]. unfold extract_all_headings in H.
    destruct (load_pdf f) as [r|]; [| reflexivity].
    destruct (py_sort by_position _) as [final|]; cbn in H; [| discriminate].
    destruct (_build_hierarchy final); cbn in H; discriminate.
  - intros Hload. eexists. now apply load_failure_is_error_result.
Qed.

Lemma extraction_fails_exactly_on_mixed_pages_witness :
  extract_all_headings "summary.pdf" (Parsed cover_reader) = Raise TypeError.
Proof.
  apply (extraction_fails_exactly_on_mixed_pages
           "summary.pdf" (Parsed cover_reader) cover_reader); [reflexivity |].
  split; vm_compute; eexists; split; [right; left; reflexivity | reflexivity
                                     | left; reflexivity | reflexivity].
Defined.

(** ** The candidates of a two-line page *)

Lemma font_candidate_is_its_line_witness :
  exists page_num line_num text line,
    Some 1 = Some page_num /\ Some 1 = Some line_num
    /\ page_text summary_reader page_num = Some text
    /\ line_at text line_num = Some line
    /\ "SUMMARY OF RESULTS" = PyStr.strip line
    /\ 3 < PyStr.len "SUMMARY OF RESULTS" < 50
    /\ 1 = 1.
Proof.
  apply (font_candidate_is_its_line summary_reader
           (candidate "SUMMARY OF RESULTS" 1 1 1 font_analysis 0.6)).
  vm_compute. left. reflexivity.
Defined.

Lemma position_candidate_is_its_line_witness :
  exists page_num line_num text line,
    Some 1 = Some page_num /\ Some 1 = Some line_num
    /\ page_text summary_reader page_num = Some text
    /\ line_at text line_num = Some line
    /\ "SUMMARY OF RESULTS" = PyStr.strip line
    /\ 1 <= line_num <= 3
    /\ 3 < PyStr.len "SUMMARY OF RESULTS" < 100
    /\ (exists c rest, "SUMMARY OF RESULTS" = String c rest /\ PyChar.isupper c = true)
    /\ PyStr.endswith PyStr.DOT "SUMMARY OF RESULTS" = false
    /\ (0 = 0 <-> line_num = 1) /\ (0 = 1 <-> line_num <> 1).
Proof.
  apply (position_candidate_is_its_line summary_reader
           (candidate "SUMMARY OF RESULTS" 0 1 1 position_analysis 0.65)).
  vm_compute. left. reflexivity.
Defined.

Lemma text_candidate_is_its_page_witness :
  exists page_num text,
    Some 1 = Some page_num /\ Some 1 = Some 1
    /\ page_text chapter_reader page_num = Some text
    /\ "Chapter 1" = _clean_extracted_text text
    /\ 3 <= PyStr.len "Chapter 1" <= 200
    /\ _is_regular_text "Chapter 1" = false.
Proof.
  apply (text_candidate_is_its_page chapter_reader
           (candidate "Chapter 1" 0 1 1 text_analysis 0.9)).
  vm_compute. left. reflexivity.
Defined.

(** ** The builtin outline, entry by entry *)

Lemma get_page_number_of_finite (p : page_ref) :
  _get_page_number p
  = if finite_page p then Ok (one_based_page p) else Raise OverflowError.
Proof.
  destruct (finite_page p) eqn:Hfinite.
  - destruct (_get_page_number p) as [found|e] eqn:Hp.
    + now rewrite (get_page_number_resolves p found Hp).
    + assert (Hinf : infinite_page p) by (apply get_page_number_raises_iff; eauto).
      destruct Hinf as [neg [-> | ->]]; discriminate.
  - destruct p as [|n|[q| |neg]|[q| |neg]|s]; try discriminate; reflexivity.
Qed.

Lemma process_outline_item_walk (item : outline_item) :
  forall lvl,
    _process_outline_item item lvl
    = map (fun ed => outline_dict (fst ed) (snd ed) (one_based_page (entry_page (fst ed))))
          (List.filter (fun ed => finite_page (entry_page (fst ed))) (item_depths item lvl)).
Proof.
  induction item as [e | items IH] using outline_item_induction; intros lvl.
  - cbn [_process_outline_item item_depths]. rewrite get_page_number_of_finite.
    cbn [List.filter fst snd]. now destruct (finite_page (entry_page e)).
  - cbn [_process_outline_item item_depths].
    induction items as [|i items IHitems]; [reflexivity |].
    inversion IH as [|? ? Hi Hitems]; subst.
    rewrite List.filter_app, map_app, <- Hi, <- (IHitems Hitems). reflexivity.
Qed.

Lemma item_depths_entries (item : outline_item) :
  forall lvl, map fst (item_depths item lvl) = item_entries item
              /\ Forall (fun ed => lvl <= snd ed) (item_depths item lvl).
Proof.
  induction item as [e | items IH] using outline_item_induction; intros lvl.
  - cbn. split; [reflexivity |]. repeat constructor. cbn. lia.
  - cbn [item_depths item_entries].
    induction items as [|i items IHitems]; [split; [reflexivity | constructor] |].
    inversion IH as [|? ? Hi Hitems]; subst.
    destruct (Hi (lvl + 1)) as [Hfst Hlvl]. destruct (IHitems Hitems) as [Hfst' Hlvl'].
    split.
    + now rewrite map_app, Hfst, Hfst'.
    + apply Forall_app. split; [| exact Hlvl'].
      eapply List.Forall_impl; [| exact Hlvl]. cbn. intros; lia.
Qed.

(** The builtin reader walks the outline in order: it returns one dict for
    each entry whose page is not an infinite float, with the nesting depth
    of the entry as level (0 at the top) and the page the entry resolves
    to; so no level is negative and there are at most as many dicts as
    entries. *)
Lemma builtin_outline_follows_the_outline (r : pdf_reader) :
  _extract_builtin_outline r
  = map builtin_dict
        (List.filter (fun ed => finite_page (entry_page (fst ed))) (outline_depths r))
  /\ map fst (outline_depths r) = outline_entries r
  /\ Forall (fun h => 0 <= level h) (_extract_builtin_outline r)
  /\ (length (_extract_builtin_outline r) <= length (outline_entries r))%nat.
Proof.
  assert (Hwalk : forall items,
    map (fun item => set_confidence 0.95 (set_source builtin_outline item))
        (_process_outline_items items 0)
    = map builtin_dict
          (List.filter (fun ed => finite_page (entry_page (fst ed)))
                  (concat (map (fun i => item_depths i 0) items)))).
  { intros items. unfold _process_outline_items.
    induction items as [|i items IH]; [reflexivity |].
    cbn [map concat]. rewrite List.filter_app, !map_app, IH. f_equal.
    rewrite process_outline_item_walk, map_map. reflexivity. }
  assert (Hdepths : forall items,
    map fst (concat (map (fun i => item_depths i 0) items))
    = concat (map item_entries items)
    /\ Forall (fun ed => 0 <= snd ed) (concat (map (fun i => item_depths i 0) items))).
  { induction items as [|i items [IHfst IHlvl]]; [split; [reflexivity | constructor] |].
    cbn [map concat]. destruct (item_depths_entries i 0) as [Hfst Hlvl].
    split; [now rewrite map_app, Hfst, IHfst | now apply Forall_app]. }
  assert (Hfirst : _extract_builtin_outline r
                   = map builtin_dict
                         (List.filter (fun ed => finite_page (entry_page (fst ed)))
                                 (outline_depths r))).
  { unfold _extract_builtin_outline, outline_depths.
    destruct (outline r) as [[|i items]|]; try reflexivity. apply Hwalk. }
  assert (Hsecond : map fst (outline_depths r) = outline_entries r
                    /\ Forall (fun ed => 0 <= snd ed) (outline_depths r)).
  { unfold outline_depths, outline_entries.
    destruct (outline r) as [items|]; [apply Hdepths | split; [reflexivity | constructor]]. }
  destruct Hsecond as [Hentries Hlevels].
  split; [exact Hfirst | split; [exact Hentries | split]].
  - rewrite Hfirst. apply List.Forall_forall. intros h Hh.
    apply in_map_iff in Hh. destruct Hh as (ed & <- & Hed).
    apply filter_In in Hed. rewrite List.Forall_forall in Hlevels.
    apply (Hlevels ed), Hed.
  - rewrite Hfirst, length_map, <- Hentries, length_map. apply List.filter_length_le.
Qed.

(** ** Deduplication: blank titles and duplicate-free lists *)

Lemma dedup_step_blank (unique_headings : list heading) (h : heading) :
  titled h = false -> dedup_step unique_headings h = unique_headings.
Proof. unfold dedup_step, titled. now intros ->. Qed.

Lemma dedup_fold_skips_blank (headings : list heading) :
  forall unique_headings,
    fold_left dedup_step headings unique_headings
    = fold_left dedup_step (List.filter titled headings) unique_headings.
Proof.
  induction headings as [|h headings IH]; intros acc; [reflexivity |].
  cbn [fold_left List.filter]. destruct (titled h) eqn:Hh.
  - cbn [fold_left]. apply IH.
  - rewrite dedup_step_blank by exact Hh. apply IH.
Qed.

Lemma dedup_step_titled (unique_headings : list heading) (h : heading) :
  Forall (fun x => titled x = true) unique_headings ->
  Forall (fun x => titled x = true) (dedup_step unique_headings h).
Proof.
  intros Hacc. unfold dedup_step.
  destruct (PyStr.truthy (PyStr.strip (title h))) eqn:Hh; cbn [negb]; [| exact Hacc].
  assert (Hnew : Forall (fun x => titled x = true) [h]) by now repeat constructor.
  destruct (List.find _ unique_headings) as [existing|].
  - destruct (Qgtb _ _); [| exact Hacc].
    apply Forall_app. split; [| exact Hnew].
    rewrite List.Forall_forall in *. intros x Hx. eapply Hacc, list_remove_incl, Hx.
  - apply Forall_app. now split.
Qed.

Lemma dedup_step_grows (unique_headings : list heading) (h : heading) :
  titled h = true \/ unique_headings <> [] <-> dedup_step unique_headings h <> [].
Proof.
  unfold dedup_step, titled.
  destruct (PyStr.truthy (PyStr.strip (title h))); cbn [negb].
  - split; [intros _ | auto].
    destruct (List.find _ unique_headings) as [existing|] eqn:Hfind.
    + destruct (Qgtb _ _).
      * intros H. now apply app_eq_nil in H.
      * intros ->. discriminate.
    + intros H. now apply app_eq_nil in H.
  - split; [intros [H | H]; [discriminate | exact H] | auto].
Qed.

(** Candidates whose stripped title is empty are skipped: the pass returns
    what it returns without them, only titled candidates, and the empty
    list exactly when every candidate has a blank title. *)
Lemma blank_titles_are_ignored (headings : list heading) :
  _advanced_deduplication headings = _advanced_deduplication (List.filter titled headings)
  /\ Forall (fun h => titled h = true) (_advanced_deduplication headings)
  /\ (_advanced_deduplication headings = []
      <-> Forall (fun h => titled h = false) headings).
Proof.
  unfold _advanced_deduplication.
  split; [apply dedup_fold_skips_blank | split].
  - assert (H : forall acc, Forall (fun x => titled x = true) acc ->
                  Forall (fun x => titled x = true) (fold_left dedup_step headings acc)).
    { induction headings as [|h headings IH]; intros acc Hacc; [exact Hacc |].
      cbn [fold_left]. now apply IH, dedup_step_titled. }
    apply H. constructor.
  - assert (H : forall acc,
               fold_left dedup_step headings acc = []
               <-> acc = [] /\ Forall (fun h => titled h = false) headings).
    { induction headings as [|h headings IH]; intros acc; cbn [fold_left].
      - split; [intros ->; split; [reflexivity | constructor] | tauto].
      - rewrite IH. pose proof (dedup_step_grows acc h) as Hgrow.
        destruct (titled h) eqn:Hh.
        + split.
          * intros [Hnil _]. exfalso. apply (proj1 Hgrow); auto.
          * intros [_ Hall]. inversion Hall; congruence.
        + rewrite dedup_step_blank by exact Hh. split.
          * intros [-> Hall]. split; [reflexivity | now constructor].
          * intros [-> Hall]. inversion Hall; subst. now split. }
    rewrite H. tauto.
Qed.

Lemma ordered_pairs_suffix {A : Type} (R : A -> A -> Prop) (l1 l2 : list A) :
  ForallOrdPairs R (l1 ++ l2) -> ForallOrdPairs R l2.
Proof.
  induction l1 as [|a l1 IH]; cbn; [auto |].
  intros H. inversion H; subst. auto.
Qed.

Lemma dedup_fold_distinct_kept (headings : list heading) :
  forall unique_headings,
    Forall (fun h => titled h = true) headings ->
    ForallOrdPairs distinct_titles (unique_headings ++ headings) ->
    fold_left dedup_step headings unique_headings = unique_headings ++ headings.
Proof.
  induction headings as [|h headings IH]; intros acc Htitled Hdistinct;
    cbn [fold_left]; [now rewrite app_nil_r |].
  inversion Htitled as [|? ? Hh Hrest]; subst.
  assert (Hstep : dedup_step acc h = acc ++ [h]).
  { unfold dedup_step. unfold titled in Hh. rewrite Hh. cbn [negb].
    destruct (List.find _ acc) as [existing|] eqn:Hfind; [| reflexivity].
    exfalso. apply find_some in Hfind. destruct Hfind as [Hin Hdup].
    apply in_split in Hin. destruct Hin as (l1 & l2 & ->).
    rewrite <- app_assoc in Hdistinct. cbn in Hdistinct.
    apply ordered_pairs_suffix in Hdistinct.
    inversion Hdistinct as [|? ? Hall _]; subst.
    rewrite List.Forall_forall in Hall.
    specialize (Hall h ltac:(apply in_or_app; right; now left)).
    unfold distinct_titles in Hall. congruence. }
  rewrite Hstep, IH; [now rewrite <- app_assoc | exact Hrest |].
  now rewrite <- app_assoc.
Qed.

(** When no titled candidate is a duplicate of an earlier titled one, the
    pass returns the titled candidates, all of them and in their order. *)
Lemma distinct_candidates_are_all_kept (headings : list heading) :
  ForallOrdPairs distinct_titles (List.filter titled headings) ->
  _advanced_deduplication headings = List.filter titled headings.
Proof.
  intros Hdistinct. unfold _advanced_deduplication.
  rewrite dedup_fold_skips_blank.
  apply (dedup_fold_distinct_kept (List.filter titled headings) []);
    [| exact Hdistinct].
  apply List.Forall_forall. intros h Hh. now apply filter_In in Hh.
Qed.

Lemma distinct_candidates_are_all_kept_witness :
  _advanced_deduplication sample_headings = List.filter titled sample_headings.
Proof.
  apply distinct_candidates_are_all_kept.
  change (List.filter titled sample_headings) with sample_headings.
  unfold sample_headings.
  repeat (constructor; [repeat (constructor; [vm_compute; reflexivity |]);
                        constructor |]).
  constructor.
Defined.

(** ** The shape of the forest

    The list is sorted by level before the loop runs.  The headings of the
    lowest level then come first and empty the stack one after the other;
    the last of them stays at the bottom of the stack, and the loop runs on
    the remaining headings as it would run on them alone, except that what
    it would append to the top-level list it appends to the children of
    that heading. *)

Lemma pop_stack_all (lvl : Z) (stack : list (nat * heading)) :
  Forall (fun e => lvl <= level (snd e)) stack -> pop_stack lvl stack = [].
Proof.
  induction 1 as [|top below Htop _ IH]; [reflexivity |].
  cbn [pop_stack]. replace (level (snd top) >=? lvl) with true; [exact IH |].
  symmetry. rewrite Z.geb_leb. now apply Z.leb_le.
Qed.

Lemma pop_stack_bottom (lvl : Z) (stack : list (nat * heading)) (i : nat) (b : heading) :
  level b < lvl -> pop_stack lvl (stack ++ [(i, b)]) = pop_stack lvl stack ++ [(i, b)].
Proof.
  intros Hb. induction stack as [|top below IH]; cbn [pop_stack app].
  - cbn [snd]. replace (level b >=? lvl) with false; [reflexivity |].
    symmetry. rewrite Z.geb_leb. now apply Z.leb_gt.
  - destruct (level (snd top) >=? lvl); [exact IH | reflexivity].
Qed.

Lemma pop_stack_moved (lvl : Z) (m : nat) (stack : list (nat * heading)) :
  pop_stack lvl (map (fun e => ((m + fst e)%nat, snd e)) stack)
  = map (fun e => ((m + fst e)%nat, snd e)) (pop_stack lvl stack).
Proof.
  induction stack as [|top below IH]; [reflexivity |].
  cbn [map pop_stack snd]. destruct (level (snd top) >=? lvl); [exact IH | reflexivity].
Qed.

Lemma place_all_app (l1 l2 : list heading) :
  forall st k, place_all st k (l1 ++ l2)
               = place_all (place_all st k l1) (k + length l1) l2.
Proof.
  induction l1 as [|h l1 IH]; intros st k; cbn [app place_all length].
  - now rewrite Nat.add_0_r.
  - rewrite IH. f_equal. lia.
Qed.

(** The headings of one level, one after the other: each becomes a
    top-level dict and is alone on the stack. *)
Lemma place_all_one_level (b : heading) (leaves : list heading) :
  forall ch top stk k,
    Forall (fun x => level x = level b) leaves ->
    Forall (fun e => level b <= level (snd e)) stk ->
    place_all {| children := ch; hierarchy := top; stack := stk |} k (leaves ++ [b])
    = {| children := ch; hierarchy := top ++ seq k (S (length leaves));
         stack := [((k + length leaves)%nat, b)] |}.
Proof.
  induction leaves as [|x leaves IH]; intros ch top stk k Hleaves Hstack.
  - cbn [app place_all length seq]. unfold place. cbn [stack].
    rewrite pop_stack_all by exact Hstack. now rewrite Nat.add_0_r.
  - inversion Hleaves as [|? ? Hx Hrest]; subst.
    cbn [app place_all length]. unfold place. cbn [stack].
    rewrite pop_stack_all by (now rewrite Hx).
    cbn [children hierarchy]. rewrite IH.
    + replace (k + S (length leaves))%nat with (S k + length leaves)%nat by lia.
      now rewrite <- app_assoc.
    + exact Hrest.
    + repeat constructor. cbn. lia.
Qed.

Lemma alter_under_map {A B : Type} (g : A -> B) (f : A -> A) (f' : B -> B)
    (p : nat) (l : list A) :
  (forall x, f' (g x) = g (f x)) ->
  alter f' p (map g l) = map g (alter f p l).
Proof.
  intros Hfg. revert p. induction l as [|x l IH]; intros [|p]; cbn; try reflexivity.
  - now rewrite Hfg.
  - f_equal. apply IH.
Qed.

Lemma alter_after {A : Type} (f : A -> A) (l1 l2 : list A) (p : nat) :
  alter f (length l1 + p)%nat (l1 ++ l2) = l1 ++ alter f p l2.
Proof. induction l1 as [|x l1 IH]; cbn; [reflexivity | f_equal; exact IH]. Qed.

Lemma place_under (m : nat) (b : heading) (top : list nat) (st : builder)
    (k : nat) (h : heading) :
  level b < level h ->
  place (under m b top st) (S m + k) h = under m b top (place st k h).
Proof.
  intros Hb. unfold place at 1. cbn [under stack children hierarchy].
  rewrite pop_stack_bottom by exact Hb. rewrite (pop_stack_moved (level h) (S m)).
  unfold place. destruct (pop_stack (level h) (stack st)) as [|[p hp] below].
  - cbn [map app]. unfold under. cbn [children hierarchy stack map fst snd app].
    f_equal.
    pose proof (alter_after (fun cs => cs ++ [(S m + k)%nat]) (replicate m [])
                  (map (Nat.add (S m)) (hierarchy st)
                   :: map (map (Nat.add (S m))) (children st)) 0) as Halter.
    rewrite length_replicate, Nat.add_0_r in Halter. rewrite Halter.
    cbn [alter list_alter]. now rewrite map_app.
  - cbn [map app fst snd]. unfold under.
    cbn [children hierarchy stack map fst snd app]. f_equal.
    pose proof (alter_after (fun cs => cs ++ [(S m + k)%nat]) (replicate m [])
                  (map (Nat.add (S m)) (hierarchy st)
                   :: map (map (Nat.add (S m))) (children st)) (S p)) as Halter.
    rewrite length_replicate in Halter.
    replace (m + S p)%nat with (S m + p)%nat in Halter by lia.
    rewrite Halter. cbn [alter list_alter]. do 2 f_equal.
    apply alter_under_map. intros cs. now rewrite map_app.
Qed.

Lemma place_all_under (m : nat) (b : heading) (top : list nat) (rest : list heading) :
  forall st k,
    Forall (fun h => level b < level h) rest ->
    place_all (under m b top st) (S m + k) rest = under m b top (place_all st k rest).
Proof.
  induction rest as [|h rest IH]; intros st k Hrest; [reflexivity |].
  inversion Hrest as [|? ? Hh Hrest']; subst. cbn [place_all].
  rewrite place_under by exact Hh.
  replace (S (S m + k)) with (S m + S k)%nat by lia. now apply IH.
Qed.

Lemma omap_ext_in {A B : Type} (f g : A -> option B) (l : list A) :
  (forall x, In x l -> f x = g x) -> omap f l = omap g l.
Proof.
  induction l as [|x l IH]; intros H; [reflexivity |]. cbn.
  rewrite (H x) by now left. rewrite IH by (intros y Hy; apply H; now right).
  reflexivity.
Qed.

Lemma omap_map {A B C : Type} (f : B -> option C) (g : A -> B) (l : list A) :
  omap f (map g l) = omap (fun x => f (g x)) l.
Proof.
  induction l as [|x l IH]; [reflexivity |]. cbn. now rewrite IH.
Qed.

Lemma omap_lookup_seq {A : Type} (l : list A) :
  forall k, omap (fun i => l !! i) (seq 0 k) = take k l.
Proof.
  induction l as [|x l IH]; intros k.
  - rewrite take_nil. induction (seq 0 k) as [|i s IHs]; [reflexivity | exact IHs].
  - destruct k as [|k]; [reflexivity |].
    cbn [seq omap list_omap lookup list_lookup take].
    change (list_omap ?f ?s) with (omap f s).
    rewrite <- seq_shift, omap_map. cbn [lookup list_lookup].
    change (fun i => list_lookup i l) with (fun i => l !! i).
    now rewrite IH.
Qed.

(** The nested values do not depend on where the positions start. *)
Lemma reify_moved (m : nat) (hs : list heading) :
  forall ch base,
    reify hs (map (map (Nat.add m)) ch) (m + base) = reify hs ch base.
Proof.
  induction hs as [|h hs IH]; intros [|cs ch] base; try reflexivity.
  cbn [map reify].
  replace (S (m + base)) with (m + S base)%nat by lia. rewrite IH.
  f_equal. f_equal. rewrite omap_map. apply omap_ext_in. intros c _.
  f_equal. lia.
Qed.

Lemma reify_leaves (leaves hs : list heading) (ch : list (list nat)) :
  forall base,
    reify (leaves ++ hs) (replicate (length leaves) [] ++ ch) base
    = map leaf leaves ++ reify hs ch (base + length leaves).
Proof.
  induction leaves as [|x leaves IH]; intros base; cbn [app length replicate map reify].
  - now rewrite Nat.add_0_r.
  - rewrite IH.
    replace (base + S (length leaves))%nat with (S base + length leaves)%nat by lia.
    reflexivity.
Qed.

(** The forest of a list that starts with the headings of its lowest
    level: they are the top-level dicts, none but the last has children,
    and the children of the last are the forest of the remaining list. *)
Lemma forest_of_lowest_level (leaves : list heading) (b : heading) (rest : list heading) :
  Forall (fun x => level x = level b) leaves ->
  Forall (fun h => level b < level h) rest ->
  forest_of (leaves ++ b :: rest) (run_builder (leaves ++ b :: rest))
  = map leaf leaves ++ [Node b (forest_of rest (run_builder rest))].
Proof.
  intros Hleaves Hrest.
  set (m := length leaves).
  assert (Hrun : run_builder (leaves ++ b :: rest)
                 = under m b (seq 0 (S m)) (run_builder rest)).
  { unfold run_builder.
    change (leaves ++ b :: rest) with (leaves ++ [b] ++ rest).
    rewrite app_assoc, place_all_app, place_all_one_level;
      [| exact Hleaves | constructor].
    rewrite !length_app. cbn [length app Nat.add]. fold m.
    replace (m + 1 + length rest)%nat with (m + S (length rest))%nat by lia.
    replace (m + 1)%nat with (S m + 0)%nat by lia.
    rewrite <- (place_all_under m b (seq 0 (S m)) rest) by exact Hrest.
    f_equal. unfold under. cbn [children hierarchy stack map app].
    f_equal. rewrite replicate_add. cbn [replicate]. do 2 f_equal.
    induction (length rest) as [|n IHn]; [reflexivity |]. cbn. f_equal. exact IHn. }
  rewrite Hrun. unfold forest_of. cbn [under children hierarchy].
  unfold m at 2. rewrite reify_leaves, Nat.add_0_l. fold m. cbn [reify].
  pose proof (reify_moved (S m) rest (children (run_builder rest)) 0) as Hmoved.
  rewrite Nat.add_0_r in Hmoved. rewrite Hmoved, omap_lookup_seq.
  replace (S m) with (length (map leaf leaves) + 1)%nat
    by (rewrite length_map; fold m; lia).
  rewrite take_app_add'; [| reflexivity]. f_equal. cbn [take]. f_equal.
  rewrite length_map. fold m. f_equal.
  rewrite omap_map. apply omap_ext_in. intros i _. f_equal. lia.
Qed.

Lemma level_key_order (x y : heading) (before : bool) :
  tuple_lt (level_key x) (level_key y) = Ok before ->
  if before then level x <= level y else level y <= level x.
Proof.
  unfold level_key. cbn [tuple_lt py_eq py_lt].
  destruct (level x =? level y) eqn:Heq.
  - apply Z.eqb_eq in Heq. intros _. destruct before; lia.
  - intros H. injection H as <-.
    destruct (level x <? level y) eqn:Hlt; [apply Z.ltb_lt in Hlt | apply Z.ltb_ge in Hlt];
      lia.
Qed.

Lemma sort_insert_level_sorted (x : heading) (sorted : list heading) :
  forall sorted',
    level_sorted sorted -> sort_insert level_key x sorted = Ok sorted' ->
    level_sorted sorted'.
Proof.
  unfold level_sorted.
  induction sorted as [|y rest IH]; intros sorted' Hsorted H; cbn [sort_insert] in H.
  - injection H as <-. repeat constructor.
  - inversion Hsorted as [|? ? Hy Hrest]; subst.
    destruct (tuple_lt (level_key x) (level_key y)) as [before|] eqn:Hlt; cbn in H;
      [| discriminate].
    apply level_key_order in Hlt. destruct before.
    + injection H as <-. constructor; [| exact Hsorted].
      constructor; [exact Hlt |].
      eapply List.Forall_impl; [| exact Hy]. cbn. intros; lia.
    + destruct (sort_insert level_key x rest) as [rest'|] eqn:Hins; cbn in H;
        [| discriminate].
      injection H as <-. constructor; [| now apply (IH rest')].
      apply sort_insert_permutation in Hins.
      apply List.Forall_forall. intros z Hz.
      apply (Permutation_in _ Hins) in Hz. destruct Hz as [<- | Hz]; [exact Hlt |].
      rewrite List.Forall_forall in Hy. now apply Hy.
Qed.

Lemma py_sort_level_sorted (l sorted : list heading) :
  py_sort level_key l = Ok sorted -> level_sorted sorted.
Proof.
  unfold py_sort.
  assert (H : forall acc, level_sorted acc -> sort_into level_key acc l = Ok sorted ->
                          level_sorted sorted).
  { induction l as [|x l IH]; intros acc Hacc H; cbn [sort_into] in H.
    - now injection H as <-.
    - destruct (sort_insert level_key x acc) as [acc'|] eqn:Hins; cbn in H;
        [| discriminate].
      apply (IH acc'); [| exact H]. now apply (sort_insert_level_sorted x acc). }
  apply H. constructor.
Qed.

(** A sorted list starts with the headings of its lowest level. *)
Lemma lowest_level_first (x : heading) (l : list heading) :
  level_sorted (x :: l) ->
  exists leaves b rest,
    x :: l = leaves ++ b :: rest
    /\ Forall (fun y => level y = level b) leaves
    /\ Forall (fun h => level b < level h) rest
    /\ level b = level x
    /\ level_sorted rest.
Proof.
  unfold level_sorted. revert x.
  induction l as [|y l IH]; intros x Hsorted.
  - exists [], x, [].
    split; [reflexivity | split; [constructor | split; [constructor | split; [reflexivity | constructor]]]].
  - inversion Hsorted as [|? ? Hx Hrest]; subst.
    inversion Hx as [|? ? Hxy Hxl]; subst.
    destruct (Z.eq_dec (level x) (level y)) as [Heq | Hne].
    + destruct (IH y Hrest) as (leaves & b & rest & Hsplit & Hleaves & Hlater & Hb & Hr).
      exists (x :: leaves), b, rest. rewrite Hsplit.
      split; [reflexivity | split; [| split; [exact Hlater | split; [lia | exact Hr]]]].
      constructor; [lia | exact Hleaves].
    + exists [], x, (y :: l).
      split; [reflexivity | split; [constructor | split; [| split; [reflexivity | exact Hrest]]]].
      inversion Hrest as [|? ? Hy _]; subst.
      constructor; [lia |].
      eapply List.Forall_impl; [| exact Hy]. cbn. intros; lia.
Qed.

Lemma forest_headings_row (leaves : list heading) (b : heading) (subs : list node) :
  forest_headings (map leaf leaves ++ [Node b subs])
  = leaves ++ b :: forest_headings subs.
Proof.
  unfold forest_headings. rewrite map_app, concat_app. cbn [map concat].
  rewrite flatten_node, app_nil_r. f_equal.
  induction leaves as [|x leaves IH]; [reflexivity |]. cbn. now rewrite IH.
Qed.

Lemma forest_is_comb (n : nat) :
  forall sorted,
    (length sorted <= n)%nat -> level_sorted sorted ->
    comb (forest_of sorted (run_builder sorted))
    /\ Forall (fun root => forall h, In h sorted -> level (node_heading root) <= level h)
              (forest_of sorted (run_builder sorted))
    /\ forest_headings (forest_of sorted (run_builder sorted)) = sorted.
Proof.
  induction n as [|n IH]; intros [|x l] Hlen Hsorted;
    try (split; [constructor | split; [constructor | reflexivity]]);
    cbn in Hlen; try lia.
  destruct (lowest_level_first x l Hsorted)
    as (leaves & b & rest & Hsplit & Hleaves & Hlater & Hb & Hrest).
  rewrite Hsplit, forest_of_lowest_level by assumption.
  assert (Hshort : (length rest <= n)%nat).
  { apply (f_equal (@length heading)) in Hsplit.
    rewrite length_app in Hsplit. cbn in Hsplit. lia. }
  destruct (IH rest Hshort Hrest) as (Hcomb & Hroots & Hread).
  split; [| split; [| now rewrite forest_headings_row, Hread]].
  - constructor; [exact Hleaves | | exact Hcomb].
    pose proof (forest_holds_sorted_list rest) as Hperm.
    apply List.Forall_forall. intros c Hc.
    rewrite List.Forall_forall in Hlater. apply Hlater.
    apply (Permutation_in _ Hperm). unfold forest_headings.
    apply in_concat. exists (flatten c). split; [now apply in_map |].
    destruct c as [hc cs]. now left.
  - assert (Hlow : forall h, In h (leaves ++ b :: rest) -> level b <= level h).
    { intros h Hh. apply in_app_or in Hh. rewrite List.Forall_forall in Hleaves, Hlater.
      destruct Hh as [Hh | [<- | Hh]]; [rewrite (Hleaves h Hh) | | apply Hlater in Hh]; lia. }
    apply Forall_app. split.
    + apply List.Forall_forall. intros root Hroot. apply in_map_iff in Hroot.
      destruct Hroot as (y & <- & Hy). cbn. intros h Hh.
      rewrite List.Forall_forall in Hleaves. rewrite (Hleaves y Hy). now apply Hlow.
    + repeat constructor. exact Hlow.
Qed.

(** The forest [_build_hierarchy] returns is a comb: its top-level dicts
    are headings of the lowest level of the input, only the last of them
    has children, and its children, which all have the next level that
    occurs, are of that shape again.  So every heading hangs under the last
    heading, in the sort order, of the level before its own, wherever it
    stands in the document. *)
Lemma hierarchy_is_a_comb (headings : list heading) (forest : list node) :
  _build_hierarchy headings = Ok forest ->
  comb forest
  /\ Forall (fun root => forall h, In h headings -> level (node_heading root) <= level h)
            forest.
Proof.
  intros H. apply build_hierarchy_sorts_first in H.
  destruct H as (sorted & Hsort & ->).
  destruct (forest_is_comb (length sorted) sorted (le_n _)
              (py_sort_level_sorted headings sorted Hsort)) as (Hcomb & Hroots & _).
  split; [exact Hcomb |].
  apply py_sort_permutation in Hsort.
  eapply List.Forall_impl; [| exact Hroots]. cbn. intros root Hroot h Hh.
  apply Hroot. apply (Permutation_in h (Permutation_sym Hsort) Hh).
Qed.

Lemma hierarchy_is_a_comb_witness :
  comb sample_forest
  /\ Forall (fun root => forall h, In h sample_headings ->
                                   level (node_heading root) <= level h)
            sample_forest.
Proof.
  apply hierarchy_is_a_comb. vm_compute. reflexivity.
Defined.

(** ** The forest, read from the top *)

Lemma level_key_order_paged (x y : heading) (before : bool) :
  has_page x -> has_page y ->
  tuple_lt (level_key x) (level_key y) = Ok before ->
  if before then sort_order x y /\ ~ sort_order y x else sort_order y x.
Proof.
  unfold has_page, sort_order, level_key, page_key, line_key.
  destruct (page_number x) as [px|], (page_number y) as [py|]; try congruence.
  intros _ _. cbn [tuple_lt py_eq py_lt int_of].
  destruct (line_number x) as [nx|], (line_number y) as [ny|]; cbn [int_of py_eq py_lt];
    repeat match goal with
      | |- context [?a =? ?b] => destruct (Z.eqb_spec a b)
      | |- context [?a <? ?b] => destruct (Z.ltb_spec a b)
      end;
    intros Hres; injection Hres as <-; lia.
Qed.

Lemma sort_order_trans (x y z : heading) :
  sort_order x y -> sort_order y z -> sort_order x z.
Proof. unfold sort_order. lia. Qed.

Lemma sort_insert_in_order (x : heading) (sorted : list heading) :
  forall sorted',
    has_page x -> Forall has_page sorted ->
    ForallOrdPairs sort_order sorted ->
    sort_insert level_key x sorted = Ok sorted' ->
    ForallOrdPairs sort_order sorted'.
Proof.
  induction sorted as [|y rest IH]; intros sorted' Hx Hpages Hsorted H;
    cbn [sort_insert] in H.
  - injection H as <-. repeat constructor.
  - inversion Hsorted as [|? ? Hy Hrest]; subst.
    inversion Hpages as [|? ? Hpy Hprest]; subst.
    destruct (tuple_lt (level_key x) (level_key y)) as [before|] eqn:Hlt; cbn in H;
      [| discriminate].
    apply level_key_order_paged in Hlt; [| assumption ..]. destruct before.
    + injection H as <-. constructor; [| exact Hsorted].
      constructor; [tauto |].
      eapply List.Forall_impl; [| exact Hy]. cbn. intros z Hz.
      apply (sort_order_trans x y z); tauto.
    + destruct (sort_insert level_key x rest) as [rest'|] eqn:Hins; cbn in H;
        [| discriminate].
      injection H as <-. constructor; [| now apply (IH rest')].
      apply sort_insert_permutation in Hins.
      apply List.Forall_forall. intros z Hz.
      apply (Permutation_in _ Hins) in Hz. destruct Hz as [<- | Hz]; [exact Hlt |].
      rewrite List.Forall_forall in Hy. now apply Hy.
Qed.

Lemma py_sort_in_order (l sorted : list heading) :
  Forall has_page l ->
  py_sort level_key l = Ok sorted -> ForallOrdPairs sort_order sorted.
Proof.
  unfold py_sort. intros Hpages.
  assert (H : forall acc, Forall has_page acc -> ForallOrdPairs sort_order acc ->
                          sort_into level_key acc l = Ok sorted ->
                          ForallOrdPairs sort_order sorted).
  { induction Hpages as [|x l Hx Hl IH]; intros acc Hacc Hsorted H; cbn [sort_into] in H.
    - now injection H as <-.
    - destruct (sort_insert level_key x acc) as [acc'|] eqn:Hins; cbn in H;
        [| discriminate].
      apply (IH acc'); [| now apply (sort_insert_in_order x acc) | exact H].
      apply sort_insert_permutation in Hins.
      apply List.Forall_forall. intros z Hz.
      apply (Permutation_in _ Hins) in Hz. destruct Hz as [<- | Hz]; [exact Hx |].
      rewrite List.Forall_forall in Hacc. now apply Hacc. }
  apply H; constructor.
Qed.

(** Read from the top (a dict, then its children), the forest gives the
    input list as the sort left it; when every heading has a page number,
    that is the order by level, then page, then line. *)
Lemma forest_reads_in_sort_order (headings : list heading) (forest : list node) :
  _build_hierarchy headings = Ok forest ->
  py_sort level_key headings = Ok (forest_headings forest)
  /\ level_sorted (forest_headings forest)
  /\ (Forall has_page headings -> ForallOrdPairs sort_order (forest_headings forest)).
Proof.
  intros H. apply build_hierarchy_sorts_first in H.
  destruct H as (sorted & Hsort & ->).
  pose proof (py_sort_level_sorted headings sorted Hsort) as Hlevels.
  destruct (forest_is_comb (length sorted) sorted (le_n _) Hlevels) as (_ & _ & ->).
  split; [exact Hsort | split; [exact Hlevels |]].
  intros Hpages. now apply (py_sort_in_order headings).
Qed.

Lemma forest_reads_in_sort_order_witness :
  (py_sort level_key sample_headings = Ok (forest_headings sample_forest)
   /\ level_sorted (forest_headings sample_forest)
   /\ (Forall has_page sample_headings ->
       ForallOrdPairs sort_order (forest_headings sample_forest)))
  /\ Forall has_page sample_headings.
Proof.
  split; [apply (forest_reads_in_sort_order sample_headings sample_forest);
          vm_compute; reflexivity |].
  unfold sample_headings.
  repeat (constructor; [intros Hp; vm_compute in Hp; discriminate Hp |]). constructor.
Defined.

(** ** The alphabet of a normalized title *)

Lemma longest_never (s : string) : Re.longest Re.Never s = None.
Proof. induction s as [|c s IH]; [reflexivity |]. cbn. now rewrite IH. Qed.

Lemma longest_class (p : ascii -> bool) (c : ascii) (s : string) :
  Re.longest (Re.Class p) (String c s) = if p c then Some 1%nat else None.
Proof.
  cbn [Re.longest Re.deriv Re.nullable]. destruct (p c).
  - destruct s as [|d s]; [reflexivity |].
    cbn [Re.longest Re.deriv Re.nullable]. now rewrite longest_never.
  - now rewrite longest_never.
Qed.

Lemma sub_class_leaves (p q : ascii -> bool) (s : string) :
  PyStr.existsb (fun c => q c && negb (p c)) s = false ->
  PyStr.existsb q (Re.sub (Re.Class p) "" s) = false.
Proof.
  unfold Re.sub. induction s as [|c s IH]; [reflexivity |].
  cbn [PyStr.existsb Re.sub_from]. rewrite longest_class. intros H.
  apply orb_false_iff in H. destruct H as [Hc Hs].
  destruct (p c); cbn [negb] in Hc.
  - now apply IH.
  - rewrite andb_true_r in Hc. cbn [PyStr.existsb]. now rewrite Hc, IH.
Qed.

Lemma sub_keeps_absence (p : ascii -> bool) (r : Re.regex) (repl : string) (s : string) :
  PyStr.existsb p repl = false -> PyStr.existsb p s = false ->
  forall skip, PyStr.existsb p (Re.sub_from r repl skip s) = false.
Proof.
  intros Hrepl. induction s as [|c s IH]; intros Hs skip; [reflexivity |].
  cbn [PyStr.existsb] in Hs. apply orb_false_iff in Hs. destruct Hs as [Hc Hs].
  cbn [Re.sub_from]. destruct skip as [|k]; [| now apply IH].
  destruct (Re.longest r (String c s)) as [[|k]|].
  - cbn [PyStr.existsb]. now rewrite Hc, IH.
  - rewrite existsb_append, Hrepl. now apply IH.
  - cbn [PyStr.existsb]. now rewrite Hc, IH.
Qed.

Lemma lower_is_not_upper (c : ascii) : PyChar.isupper (PyChar.lower c) = false.
Proof. destruct c as [[] [] [] [] [] [] [] []]; reflexivity. Qed.

Lemma lower_has_no_upper (t : string) :
  PyStr.existsb PyChar.isupper (PyStr.lower t) = false.
Proof.
  induction t as [|c t IH]; [reflexivity |].
  cbn [PyStr.lower PyStr.existsb]. now rewrite lower_is_not_upper, IH.
Qed.

Lemma existsb_either (p q : ascii -> bool) (s : string) :
  PyStr.existsb p s = false -> PyStr.existsb q s = false ->
  PyStr.existsb (fun c => p c || q c) s = false.
Proof.
  induction s as [|c s IH]; [reflexivity |]. cbn [PyStr.existsb].
  intros Hp Hq. apply orb_false_iff in Hp, Hq.
  destruct Hp as [-> Hp], Hq as [-> Hq]. now rewrite IH.
Qed.

(** A normalized title is made of spaces and of word characters only, and
    none of them is a capital A-Z or an accented capital of U+00C0..U+00DE:
    no punctuation, no line break and no tab is left in it. *)
Lemma normalized_title_alphabet (t : string) :
  PyStr.existsb (fun c => negb (plain_char c)) (_normalize_title t) = false.
Proof.
  unfold _normalize_title.
  set (normalized := Re.sub (Re.plus Re.ws) " " (PyStr.strip (PyStr.lower t))).
  assert (Hspaces : PyStr.existsb other_whitespace normalized = false)
    by apply (collapse_leaves_spaces_only _ 0).
  assert (Hupper : PyStr.existsb PyChar.isupper normalized = false).
  { apply sub_keeps_absence; [reflexivity |]. unfold PyStr.strip.
    apply rstrip_keeps_absence, lstrip_keeps_absence, lower_has_no_upper. }
  apply sub_class_leaves.
  apply (existsb_weaken (fun c => other_whitespace c || PyChar.isupper c));
    [| now apply existsb_either].
  intros c. unfold plain_char, other_whitespace.
  change (latin_capital c) with (PyChar.isupper c).
  destruct (PyChar.isword c), (PyChar.isspace c), (PyChar.isupper c),
    (Ascii.eqb c PyStr.SP); cbn; congruence.
Qed.

(** ** What regular text keeps out of the text candidates *)

Lemma skip_pattern_is_regular (p : Re.pattern) (line : string) :
  In p skip_patterns -> Re.matches p line = true -> _is_regular_text line = true.
Proof.
  intros Hp Hmatch. unfold _is_regular_text.
  replace (List.existsb (fun pattern => Re.matches pattern line) skip_patterns)
    with true; [reflexivity |].
  symmetry. apply List.existsb_exists. eauto.
Qed.

Lemma digits_denote (c : ascii) (s : string) :
  PyStr.existsb (fun c => negb (PyChar.isdecimal c)) (String c s) = false ->
  denotes (Re.plus Re.digit) (String c s).
Proof.
  revert c. induction s as [|d s IH]; intros c H; cbn [PyStr.existsb] in H;
    apply orb_false_iff in H; destruct H as [Hc Hs]; apply negb_false_iff in Hc.
  - apply (denotes_cat Re.digit (Re.Star Re.digit) (String c "") "");
      [now constructor | constructor].
  - specialize (IH d Hs). inversion IH as [| |? ? u v Hu Hv| | | |]; subst.
    apply (denotes_cat Re.digit (Re.Star Re.digit) (String c "") (u ++ v));
      [now constructor |].
    now apply denotes_star_cons.
Qed.

Lemma rstrip_first (c : ascii) (s rest : string) :
  PyStr.rstrip s = String c rest -> exists rest', s = String c rest'.
Proof.
  destruct s as [|d s]; cbn [PyStr.rstrip]; [discriminate |].
  destruct (PyStr.rstrip s).
  - destruct (PyChar.isspace d); [discriminate |]. intros H. injection H as -> _. eauto.
  - intros H. injection H as -> _. eauto.
Qed.

Lemma lstrip_first (c : ascii) (s rest : string) :
  PyStr.lstrip s = String c rest -> PyChar.isspace c = false.
Proof.
  induction s as [|d s IH]; cbn [PyStr.lstrip]; [discriminate |].
  destruct (PyChar.isspace d) eqn:Hd; [exact IH |].
  intros H. injection H as <- _. exact Hd.
Qed.

(** A line that starts with a lowercase letter a-z, a hyphen or an
    asterisk is regular text, and so is a line of digits only.  So the title
    of a text candidate starts with none of these, nor with a space, and is
    not a number. *)
Lemma regular_text_is_never_a_candidate :
  (forall c rest, PyChar.is_az c = true \/ bullet_class c = true ->
                  _is_regular_text (String c rest) = true)
  /\ (forall line, PyStr.existsb (fun c => negb (PyChar.isdecimal c)) line = false ->
                   _is_regular_text line = true)
  /\ (forall r h, In h (_extract_headings_from_text r) ->
        exists c rest,
          title h = String c rest
          /\ PyChar.is_az c = false /\ bullet_class c = false
          /\ PyChar.isspace c = false
          /\ PyStr.existsb (fun c => negb (PyChar.isdecimal c)) (title h) = true).
Proof.
  assert (Hfirst : forall c rest, PyChar.is_az c = true \/ bullet_class c = true ->
                                  _is_regular_text (String c rest) = true).
  { intros c rest [Hc | Hc].
    - apply (skip_pattern_is_regular (Re.open Re.lower_az));
        [cbn; tauto |].
      unfold Re.matches, Re.open, Re.lower_az. cbn [Re.dollar Re.body].
      now rewrite longest_class, Hc.
    - apply (skip_pattern_is_regular (Re.open (padded (Re.Class bullet_class))));
        [cbn; tauto |].
      unfold Re.matches, Re.open. cbn [Re.dollar Re.body].
      destruct (longest_complete (String c rest) (padded (Re.Class bullet_class)) 1)
        as (n & -> & _); [cbn; lia | | reflexivity].
      cbn [PyStr.take]. unfold padded.
      apply (denotes_cat _ _ "" (String c "")); [constructor |].
      apply (denotes_cat _ _ (String c "") ""); [now constructor | constructor]. }
  assert (Hdigits : forall line,
             PyStr.existsb (fun c => negb (PyChar.isdecimal c)) line = false ->
             _is_regular_text line = true).
  { intros [|c s] H.
    - reflexivity.
    - apply (skip_pattern_is_regular (Re.closed (Re.plus Re.digit)));
        [cbn; tauto |].
      unfold Re.matches, Re.closed. cbn [Re.dollar Re.body].
      apply orb_true_iff. left. apply fullmatch_denotes. now apply digits_denote. }
  split; [exact Hfirst | split; [exact Hdigits |]].
  intros r h Hin. unfold _extract_headings_from_text in Hin.
  apply (scan_pages_elements
           (fun pn text h =>
              (exists lvl conf,
                 h = candidate (_clean_extracted_text text) lvl pn 1 text_analysis conf)
              /\ 3 <= PyStr.len (_clean_extracted_text text) <= 200
              /\ _is_regular_text (_clean_extracted_text text) = false)) in Hin;
    [| intros pn text acc; apply text_page_scan].
  destruct Hin as [[] | (i & p & text & _ & _ & (lvl & conf & ->) & Hlen & Hreg)].
  cbn [title candidate].
  pose proof (strip_of_clean text) as Hstrip.
  revert Hlen Hreg Hstrip.
  destruct (_clean_extracted_text text) as [|c rest]; intros Hlen Hreg Hstrip;
    [unfold PyStr.len in Hlen; cbn [String.length Z.of_nat] in Hlen; lia |].
  exists c, rest. split; [reflexivity |].
  assert (Hnot : forall b, (b = true -> _is_regular_text (String c rest) = true) ->
                           b = false).
  { intros [] Hb; [| reflexivity]. rewrite Hb in Hreg by reflexivity. discriminate. }
  split; [apply Hnot; intros Hc; apply Hfirst; now left |].
  split; [apply Hnot; intros Hc; apply Hfirst; now right |].
  split.
  - unfold PyStr.strip in Hstrip. apply rstrip_first in Hstrip.
    destruct Hstrip as [rest' Hstrip]. now apply lstrip_first in Hstrip.
  - destruct (PyStr.existsb _ (String c rest)) eqn:Hd; [reflexivity |].
    apply Hdigits in Hd. congruence.
Qed.
